(** * gba-link-connection (C port): the link-cable connection controller

    A shallow embedding of [link_connection.h]: the [U16Queue] ring
    buffer, the [LinkState] / [LinkConnection] records, the private and
    public API and the three interrupt reactions, followed by the
    properties of the protocol state machine.

    Conventions of the embedding.
    - C integers are [Z]; every wrap-around of a [u32]/[u16]/[u8]/[int]
      is written out with [u32], [u16], [u8] and [int].
    - Arrays are lists indexed through stdpp's lookup and insert.
    - The memory-mapped registers ([REG_SIOCNT], [REG_SIOMLT_SEND],
      [REG_SIOMULTI], [REG_RCNT], [REG_TM]) form the record [Regs]; code
      that touches them takes and returns a [Regs].  The hardware may
      change the registers between two reactions, so a reaction receives
      the register file it observes as an argument.
    - [LINK_QUEUE_CLEAR] is a [while] loop; it is modelled with fuel and
      returns [None] when the fuel runs out.  Everything that calls it
      is in the [option] monad. *)

From Stdlib Require Import ZArith Lia.
From stdpp Require Import base tactics option list numbers.

Local Open Scope Z_scope.

(** ** Machine integers *)

Definition u8 (x : Z) : Z := x mod 2 ^ 8.
Definition u16 (x : Z) : Z := x mod 2 ^ 16.
Definition u32 (x : Z) : Z := x mod 2 ^ 32.

(** Conversion to a 32-bit [int] (two's complement, as the ARM
    compilers define the out-of-range cast). *)
Definition int (x : Z) : Z := (x + 2 ^ 31) mod 2 ^ 32 - 2 ^ 31.

(** ** Constants *)

Definition LINK_MAX_PLAYERS : Z := 4.
Definition LINK_DISCONNECTED : Z := 0xFFFF.
Definition LINK_NO_DATA : Z := 0x0.
Definition LINK_REMOTE_TIMEOUT_OFFLINE : Z := -1.
Definition LINK_BIT_SLAVE : Z := 2.
Definition LINK_BIT_READY : Z := 3.
Definition LINK_BITS_PLAYER_ID : Z := 4.
Definition LINK_BIT_ERROR : Z := 6.
Definition LINK_BIT_START : Z := 7.
Definition LINK_BIT_MULTIPLAYER : Z := 13.
Definition LINK_BIT_IRQ : Z := 14.
Definition LINK_BIT_GENERAL_PURPOSE_LOW : Z := 14.
Definition LINK_BIT_GENERAL_PURPOSE_HIGH : Z := 15.

(** Timer control bits of libtonc's [tonc_memdef.h], which the header
    includes. *)
Definition TM_FREQ_1024 : Z := 0x0003.
Definition TM_IRQ : Z := 0x0040.
Definition TM_ENABLE : Z := 0x0080.
Definition LINK_BASE_FREQUENCY : Z := TM_FREQ_1024.

(** [REG |= 1 << BIT] and [REG &= ~(1 << BIT)] on a 16-bit register. *)
Definition LINK_SET_HIGH (reg bit : Z) : Z := u16 (Z.lor reg (Z.shiftl 1 bit)).
Definition LINK_SET_LOW (reg bit : Z) : Z :=
  u16 (Z.land reg (Z.lnot (Z.shiftl 1 bit))).

(** ** [U16Queue]: the std::queue<u16> replacement *)

Record U16Queue : Type := mkU16Queue {
  buf : list Z;
  cap : Z;
  len : Z;
  i : Z;
  j : Z
}.

(** [malloc] returns uninitialised storage: [fresh] stands for whatever
    the [cap] cells hold at allocation time. *)
Definition u16q_init (cap0 : Z) (fresh : list Z) : U16Queue :=
  {| buf := fresh; cap := cap0; len := 0; i := 0; j := 0 |}.

Definition u16q_empty (q : U16Queue) : bool := i q =? j q.

(** [q->buf[q->i]].  A well-formed queue has [i q < cap q = length (buf q)],
    see [wf_queue]; outside of it the C read is out of bounds. *)
Definition u16q_front (q : U16Queue) : Z := buf q !!! Z.to_nat (i q).

(** The source declares [u16q_pop] as [void]; its [res] is not used by
    the only caller, which reads [u16q_front] first. *)
Definition u16q_pop (q : U16Queue) : U16Queue :=
  let i1 := u32 (i q + 1) in
  {| buf := buf q;
     cap := cap q;
     len := u32 (len q - 1);
     i := if cap q <=? i1 then 0 else i1;
     j := j q |}.

(** [q->buf[q->j++] = n].  A well-formed queue has [j q < length (buf q)];
    the list update leaves the buffer alone where C would write out of
    bounds. *)
Definition u16q_push (q : U16Queue) (n : Z) : U16Queue :=
  let j1 := u32 (j q + 1) in
  {| buf := <[Z.to_nat (j q) := n]> (buf q);
     cap := cap q;
     len := u32 (len q + 1);
     i := i q;
     j := if cap q <=? j1 then 0 else j1 |}.

Definition LINK_QUEUE_POP (q : U16Queue) : Z * U16Queue :=
  if u16q_empty q then (LINK_NO_DATA, q)
  else (u16q_front q, u16q_pop q).

(** [while (!u16q_empty(q)) LINK_QUEUE_POP(q);] with [fuel] iterations
    at most. *)
Fixpoint LINK_QUEUE_CLEAR (fuel : nat) (q : U16Queue) : option U16Queue :=
  if u16q_empty q then Some q
  else match fuel with
       | O => None
       | S fuel' => LINK_QUEUE_CLEAR fuel' (snd (LINK_QUEUE_POP q))
       end.

(** What the queue delivers: the values of successive [LINK_QUEUE_POP]s
    until the emptiness test holds.  A well-formed queue is drained after
    fewer than [cap q] pops. *)
Fixpoint u16q_drain (n : nat) (q : U16Queue) : list Z :=
  match n with
  | O => []
  | S n' =>
      if u16q_empty q then []
      else fst (LINK_QUEUE_POP q) :: u16q_drain n' (snd (LINK_QUEUE_POP q))
  end.

Definition u16q_contents (q : U16Queue) : list Z :=
  u16q_drain (Z.to_nat (cap q)) q.

(** ** Records of the connection *)

Inductive BaudRate : Type :=
  | BAUD_RATE_0   (* 9600 bps *)
  | BAUD_RATE_1   (* 38400 bps *)
  | BAUD_RATE_2   (* 57600 bps *)
  | BAUD_RATE_3.  (* 115200 bps *)

Definition BaudRate_value (b : BaudRate) : Z :=
  match b with
  | BAUD_RATE_0 => 0
  | BAUD_RATE_1 => 1
  | BAUD_RATE_2 => 2
  | BAUD_RATE_3 => 3
  end.

Record LinkState : Type := mkLinkState {
  player_count : Z;                      (* u8 *)
  current_player_id : Z;                 (* u8 *)
  incoming_messages : list U16Queue;     (* U16Queue[LINK_MAX_PLAYERS] *)
  outgoing_messages : U16Queue;
  timeouts : list Z;                     (* int[LINK_MAX_PLAYERS] *)
  irq_flag : bool;
  irq_timeout : Z;                       (* u32 *)
  is_locked : bool
}.

Record LinkConnection : Type := mkLinkConnection {
  state : LinkState;
  baud_rate : BaudRate;
  timeout : Z;                           (* u32 *)
  remote_timeout : Z;                    (* u32 *)
  buffer_size : Z;                       (* u32 *)
  interval : Z;                          (* u32 *)
  send_timer_id : Z;                     (* u8 *)
  is_enabled : bool
}.

(** Parameters for [lc_init]; the fields carry the prefix [settings_]
    because they share their names with those of [LinkConnection]. *)
Record LinkConnectionSettings : Type := mkLinkConnectionSettings {
  settings_baud_rate : BaudRate;
  settings_timeout : Z;
  settings_remote_timeout : Z;
  settings_buffer_size : Z;
  settings_interval : Z;
  settings_send_timer_id : Z
}.

(** Assignments to single fields. *)

Definition set_player_count (v : Z) (s : LinkState) : LinkState :=
  mkLinkState v (current_player_id s) (incoming_messages s)
    (outgoing_messages s) (timeouts s) (irq_flag s) (irq_timeout s)
    (is_locked s).
Definition set_current_player_id (v : Z) (s : LinkState) : LinkState :=
  mkLinkState (player_count s) v (incoming_messages s)
    (outgoing_messages s) (timeouts s) (irq_flag s) (irq_timeout s)
    (is_locked s).
Definition set_incoming_messages (v : list U16Queue) (s : LinkState)
  : LinkState :=
  mkLinkState (player_count s) (current_player_id s) v
    (outgoing_messages s) (timeouts s) (irq_flag s) (irq_timeout s)
    (is_locked s).
Definition set_outgoing_messages (v : U16Queue) (s : LinkState) : LinkState :=
  mkLinkState (player_count s) (current_player_id s) (incoming_messages s)
    v (timeouts s) (irq_flag s) (irq_timeout s) (is_locked s).
Definition set_timeouts (v : list Z) (s : LinkState) : LinkState :=
  mkLinkState (player_count s) (current_player_id s) (incoming_messages s)
    (outgoing_messages s) v (irq_flag s) (irq_timeout s) (is_locked s).
Definition set_irq_flag (v : bool) (s : LinkState) : LinkState :=
  mkLinkState (player_count s) (current_player_id s) (incoming_messages s)
    (outgoing_messages s) (timeouts s) v (irq_timeout s) (is_locked s).
Definition set_irq_timeout (v : Z) (s : LinkState) : LinkState :=
  mkLinkState (player_count s) (current_player_id s) (incoming_messages s)
    (outgoing_messages s) (timeouts s) (irq_flag s) v (is_locked s).
Definition set_is_locked (v : bool) (s : LinkState) : LinkState :=
  mkLinkState (player_count s) (current_player_id s) (incoming_messages s)
    (outgoing_messages s) (timeouts s) (irq_flag s) (irq_timeout s) v.

Definition set_state (v : LinkState) (c : LinkConnection) : LinkConnection :=
  mkLinkConnection v (baud_rate c) (timeout c) (remote_timeout c)
    (buffer_size c) (interval c) (send_timer_id c) (is_enabled c).
Definition set_is_enabled (v : bool) (c : LinkConnection) : LinkConnection :=
  mkLinkConnection (state c) (baud_rate c) (timeout c) (remote_timeout c)
    (buffer_size c) (interval c) (send_timer_id c) v.

(** [incoming_messages[k]] and [timeouts[k]] for an index below
    [LINK_MAX_PLAYERS]; both arrays have exactly four cells in C. *)
Global Instance U16Queue_inhabited : Inhabited U16Queue :=
  populate (mkU16Queue [] 0 0 0 0).

Definition incoming (s : LinkState) (k : Z) : U16Queue :=
  incoming_messages s !!! Z.to_nat k.
Definition set_incoming (k : Z) (q : U16Queue) (s : LinkState) : LinkState :=
  set_incoming_messages (<[Z.to_nat k := q]> (incoming_messages s)) s.
Definition timeout_of (s : LinkState) (k : Z) : Z :=
  timeouts s !!! Z.to_nat k.
Definition set_timeout (k : Z) (v : Z) (s : LinkState) : LinkState :=
  set_timeouts (<[Z.to_nat k := v]> (timeouts s)) s.

(** ** The memory-mapped registers *)

Record TMR_REC : Type := mkTMR_REC {
  tm_start : Z;                          (* u16 *)
  tm_cnt : Z                             (* u16 *)
}.

Global Instance TMR_REC_inhabited : Inhabited TMR_REC :=
  populate (mkTMR_REC 0 0).

Record Regs : Type := mkRegs {
  REG_SIOCNT : Z;                        (* vu16 *)
  REG_SIOMLT_SEND : Z;                   (* vu16 *)
  REG_SIOMULTI : list Z;                 (* vu16[4] *)
  REG_RCNT : Z;                          (* vu16 *)
  REG_TM : list TMR_REC                  (* TMR_REC[4] *)
}.

Definition set_REG_SIOCNT (v : Z) (r : Regs) : Regs :=
  mkRegs v (REG_SIOMLT_SEND r) (REG_SIOMULTI r) (REG_RCNT r) (REG_TM r).
Definition set_REG_SIOMLT_SEND (v : Z) (r : Regs) : Regs :=
  mkRegs (REG_SIOCNT r) v (REG_SIOMULTI r) (REG_RCNT r) (REG_TM r).
Definition set_REG_RCNT (v : Z) (r : Regs) : Regs :=
  mkRegs (REG_SIOCNT r) (REG_SIOMLT_SEND r) (REG_SIOMULTI r) v (REG_TM r).
Definition set_REG_TM (v : list TMR_REC) (r : Regs) : Regs :=
  mkRegs (REG_SIOCNT r) (REG_SIOMLT_SEND r) (REG_SIOMULTI r) (REG_RCNT r) v.

(** ** Loops over the player slots *)

(** [for (u32 k = 0; k < LINK_MAX_PLAYERS; k++) body], the body in the
    [option] monad. *)
Fixpoint for_each {A : Type} (body : Z -> A -> option A) (ks : list Z)
    (a : A) : option A :=
  match ks with
  | [] => Some a
  | k :: ks' =>
      match body k a with
      | Some a' => for_each body ks' a'
      | None => None
      end
  end.

Definition slots : list Z := seqZ 0 LINK_MAX_PLAYERS.

(** ** Link State *)

(** [LinkState self = {}] zero-initialises every field, the timeouts
    included; [fresh k] is the uninitialised storage of the [k]-th
    allocation. *)
Definition linkstate_init (buffer_size0 : Z) (fresh : Z -> list Z)
  : LinkState :=
  {| player_count := 0;
     current_player_id := 0;
     incoming_messages :=
       (fun k => u16q_init buffer_size0 (fresh k)) <$> slots;
     outgoing_messages := u16q_init buffer_size0 (fresh LINK_MAX_PLAYERS);
     timeouts := [0; 0; 0; 0];
     irq_flag := false;
     irq_timeout := 0;
     is_locked := false |}.

Definition linkstate_is_connected (self : LinkState) : bool :=
  (1 <? player_count self) && (current_player_id self <? player_count self).

(** [player_id] is a [u8].  An index outside the four-cell array has no
    defined result: [None]. *)
Definition linkstate_has_message (self : LinkState) (player_id : Z)
  : option (bool * LinkState) :=
  if player_count self <=? player_id then Some (false, self)
  else
    let self1 := set_is_locked true self in
    match incoming_messages self1 !! Z.to_nat player_id with
    | Some q =>
        let has_message := negb (u16q_empty q) in
        Some (has_message, set_is_locked false self1)
    | None => None
    end.

Definition linkstate_read_message (self : LinkState) (player_id : Z)
  : option (Z * LinkState) :=
  let self1 := set_is_locked true self in
  match incoming_messages self1 !! Z.to_nat player_id with
  | Some q =>
      let '(message, q') := LINK_QUEUE_POP q in
      let self2 := set_incoming player_id q' self1 in
      Some (message, set_is_locked false self2)
  | None => None
  end.

(** ** Link Connection private API *)

Definition isBitHigh (bit : Z) (hw : Regs) : bool :=
  negb (Z.land (Z.shiftr (REG_SIOCNT hw) bit) 1 =? 0).
Definition setBitHigh (bit : Z) (hw : Regs) : Regs :=
  set_REG_SIOCNT (LINK_SET_HIGH (REG_SIOCNT hw) bit) hw.
Definition setBitLow (bit : Z) (hw : Regs) : Regs :=
  set_REG_SIOCNT (LINK_SET_LOW (REG_SIOCNT hw) bit) hw.

Definition lc_is_ready (hw : Regs) : bool := isBitHigh LINK_BIT_READY hw.
Definition lc_has_error (hw : Regs) : bool := isBitHigh LINK_BIT_ERROR hw.
Definition lc_is_master (hw : Regs) : bool :=
  negb (isBitHigh LINK_BIT_SLAVE hw).
Definition lc_is_sending (hw : Regs) : bool := isBitHigh LINK_BIT_START hw.
Definition lc_did_timeout (self : LinkConnection) : bool :=
  timeout self <=? irq_timeout (state self).

Definition lc_reset_state_slot (fuel : nat) (k : Z) (s : LinkState)
  : option LinkState :=
  match LINK_QUEUE_CLEAR fuel (incoming s k) with
  | Some q =>
      Some (set_timeout k LINK_REMOTE_TIMEOUT_OFFLINE (set_incoming k q s))
  | None => None
  end.

Definition lc_reset_state (fuel : nat) (self : LinkConnection)
  : option LinkConnection :=
  let s1 := set_current_player_id 0 (set_player_count 0 (state self)) in
  match for_each (lc_reset_state_slot fuel) slots s1 with
  | Some s2 =>
      match LINK_QUEUE_CLEAR fuel (outgoing_messages s2) with
      | Some q =>
          let s3 := set_outgoing_messages q s2 in
          Some (set_state (set_irq_timeout 0 (set_irq_flag false s3)) self)
      | None => None
      end
  | None => None
  end.

Definition lc_transfer (data : Z) (hw : Regs) : Regs :=
  let hw1 := set_REG_SIOMLT_SEND data hw in
  if lc_is_master hw1 then setBitHigh LINK_BIT_START hw1 else hw1.

Definition lc_send_pending_data (self : LinkConnection) (hw : Regs)
  : LinkConnection * Regs :=
  let '(data, q) := LINK_QUEUE_POP (outgoing_messages (state self)) in
  (set_state (set_outgoing_messages q (state self)) self,
   lc_transfer data hw).

(** [REG_TM] has four timers; [send_timer_id] is meant to name one of
    them.  The list update leaves the registers alone for any other id,
    where C would address the I/O space past the timers. *)
Definition lc_stop_timer (self : LinkConnection) (hw : Regs) : Regs :=
  let n := Z.to_nat (send_timer_id self) in
  let t := REG_TM hw !!! n in
  set_REG_TM
    (<[n := mkTMR_REC (tm_start t)
              (u16 (Z.land (tm_cnt t) (Z.lnot TM_ENABLE)))]> (REG_TM hw)) hw.

Definition lc_start_timer (self : LinkConnection) (hw : Regs) : Regs :=
  let n := Z.to_nat (send_timer_id self) in
  let start := u16 (u32 (- interval self)) in
  let cnt := Z.lor (Z.lor TM_ENABLE TM_IRQ) LINK_BASE_FREQUENCY in
  set_REG_TM (<[n := mkTMR_REC start cnt]> (REG_TM hw)) hw.

Definition lc_stop (self : LinkConnection) (hw : Regs) : Regs :=
  let hw1 := lc_stop_timer self hw in
  let hw2 :=
    set_REG_RCNT (LINK_SET_LOW (REG_RCNT hw1) LINK_BIT_GENERAL_PURPOSE_LOW)
      hw1 in
  set_REG_RCNT (LINK_SET_HIGH (REG_RCNT hw2) LINK_BIT_GENERAL_PURPOSE_HIGH)
    hw2.

Definition lc_start (self : LinkConnection) (hw : Regs) : Regs :=
  let hw1 := lc_start_timer self hw in
  let hw2 :=
    set_REG_RCNT (LINK_SET_LOW (REG_RCNT hw1) LINK_BIT_GENERAL_PURPOSE_HIGH)
      hw1 in
  let hw3 := set_REG_SIOCNT (BaudRate_value (baud_rate self)) hw2 in
  let hw4 := set_REG_SIOMLT_SEND 0 hw3 in
  setBitHigh LINK_BIT_IRQ (setBitHigh LINK_BIT_MULTIPLAYER hw4).

Definition lc_reset (fuel : nat) (self : LinkConnection) (hw : Regs)
  : option (LinkConnection * Regs) :=
  match lc_reset_state fuel self with
  | Some self' => Some (self', lc_start self' (lc_stop self' hw))
  | None => None
  end.

Definition lc_reset_if_needed (fuel : nat) (self : LinkConnection)
    (hw : Regs) : option (bool * (LinkConnection * Regs)) :=
  if negb (lc_is_ready hw) || lc_has_error hw then
    match lc_reset fuel self hw with
    | Some r => Some (true, r)
    | None => None
    end
  else Some (false, (self, hw)).

(** [lc_push] (pop the oldest value when [len >= buffer_size], then
    push) is not embedded: no function of the header calls it, and it
    hands [LINK_QUEUE_POP] the address of its own pointer argument.
    [u16q_destroy], [linkstate_destroy] and [lc_destroy] only free the
    buffers. *)

(** ** Public API *)

(** [is_enabled] is not named by the initialiser, so it starts [false]. *)
Definition lc_init (settings : LinkConnectionSettings) (fresh : Z -> list Z)
    (hw : Regs) : LinkConnection * Regs :=
  let self :=
    {| state := linkstate_init (settings_buffer_size settings) fresh;
       baud_rate := settings_baud_rate settings;
       timeout := settings_timeout settings;
       remote_timeout := settings_remote_timeout settings;
       buffer_size := settings_buffer_size settings;
       interval := settings_interval settings;
       send_timer_id := settings_send_timer_id settings;
       is_enabled := false |} in
  (self, lc_stop self hw).

Definition lc_is_active (self : LinkConnection) : bool := is_enabled self.

Definition lc_activate (fuel : nat) (self : LinkConnection) (hw : Regs)
  : option (LinkConnection * Regs) :=
  match lc_reset fuel self hw with
  | Some (self', hw') => Some (set_is_enabled true self', hw')
  | None => None
  end.

Definition lc_deactivate (fuel : nat) (self : LinkConnection) (hw : Regs)
  : option (LinkConnection * Regs) :=
  let self1 := set_is_enabled false self in
  match lc_reset_state fuel self1 with
  | Some self2 => Some (self2, lc_stop self2 hw)
  | None => None
  end.

(** [data] is a [u16]. *)
Definition lc_send (self : LinkConnection) (data : Z) : LinkConnection :=
  if (data =? LINK_DISCONNECTED) || (data =? LINK_NO_DATA) then self
  else
    let s1 := set_is_locked true (state self) in
    let s2 :=
      set_outgoing_messages (u16q_push (outgoing_messages s1) data) s1 in
    set_state (set_is_locked false s2) self.

Definition lc_is_connected (self : LinkConnection) : bool :=
  linkstate_is_connected (state self).

Definition lc_has_message (self : LinkConnection) (player_id : Z)
  : option (bool * LinkConnection) :=
  match linkstate_has_message (state self) player_id with
  | Some (b, s) => Some (b, set_state s self)
  | None => None
  end.

Definition lc_read_message (self : LinkConnection) (player_id : Z)
  : option (Z * LinkConnection) :=
  match linkstate_read_message (state self) player_id with
  | Some (message, s) => Some (message, set_state s self)
  | None => None
  end.

(** ** The three interrupt reactions *)

Definition lc_on_vblank (self : LinkConnection) : LinkConnection :=
  if negb (is_enabled self) || is_locked (state self) then self
  else
    let s1 :=
      if negb (irq_flag (state self))
      then set_irq_timeout (u32 (irq_timeout (state self) + 1)) (state self)
      else state self in
    set_state (set_irq_flag false s1) self.

Definition lc_on_timer (fuel : nat) (self : LinkConnection) (hw : Regs)
  : option (LinkConnection * Regs) :=
  if negb (is_enabled self) || is_locked (state self) then Some (self, hw)
  else if lc_did_timeout self then lc_reset fuel self hw
  else if lc_is_master hw && lc_is_ready hw && negb (lc_is_sending hw)
  then Some (lc_send_pending_data self hw)
  else Some (self, hw).

(** The body of the scan over the four slots: the accumulator pairs the
    state with [new_player_count]. *)
Definition lc_on_serial_slot (fuel : nat) (remote_timeout0 : Z) (hw : Regs)
    (k : Z) (acc : LinkState * Z) : option (LinkState * Z) :=
  let '(s, new_player_count) := acc in
  let data := REG_SIOMULTI hw !!! Z.to_nat k in
  if negb (data =? LINK_DISCONNECTED) then
    let s1 :=
      if negb (data =? LINK_NO_DATA) && negb (k =? current_player_id s)
      then set_incoming k (u16q_push (incoming s k) data) s
      else s in
    Some (set_timeout k 0 s1, new_player_count + 1)
  else if LINK_REMOTE_TIMEOUT_OFFLINE <? timeout_of s k then
    let s1 := set_timeout k (int (timeout_of s k + 1)) s in
    if int remote_timeout0 <=? timeout_of s1 k then
      match LINK_QUEUE_CLEAR fuel (incoming s1 k) with
      | Some q =>
          Some (set_timeout k LINK_REMOTE_TIMEOUT_OFFLINE
                  (set_incoming k q s1),
                new_player_count)
      | None => None
      end
    else Some (s1, new_player_count + 1)
  else Some (s, new_player_count).

Definition lc_on_serial (fuel : nat) (self : LinkConnection) (hw : Regs)
  : option (LinkConnection * Regs) :=
  if negb (is_enabled self) || is_locked (state self) then Some (self, hw)
  else
    match lc_reset_if_needed fuel self hw with
    | None => None
    | Some (true, r) => Some r
    | Some (false, (self0, hw0)) =>
        let s1 := set_irq_timeout 0 (set_irq_flag true (state self0)) in
        match
          for_each (lc_on_serial_slot fuel (remote_timeout self0) hw0)
            slots (s1, 0)
        with
        | None => None
        | Some (s2, new_player_count) =>
            let s3 := set_player_count (u8 new_player_count) s2 in
            let id :=
              Z.shiftr
                (Z.land (REG_SIOCNT hw0) (Z.shiftl 3 LINK_BITS_PLAYER_ID))
                LINK_BITS_PLAYER_ID in
            let self1 := set_state (set_current_player_id id s3) self0 in
            if negb (lc_is_master hw0)
            then Some (lc_send_pending_data self1 hw0)
            else Some (self1, hw0)
        end
    end.

(** ** Concrete scenarios *)

(** The settings of the example program, with two cells per queue. *)
Definition settings0 : LinkConnectionSettings :=
  {| settings_baud_rate := BAUD_RATE_1;
     settings_timeout := 3;
     settings_remote_timeout := 5;
     settings_buffer_size := 2;
     settings_interval := 50;
     settings_send_timer_id := 3 |}.

(** All registers zero: the transport is not ready. *)
Definition regs0 : Regs :=
  {| REG_SIOCNT := 0;
     REG_SIOMLT_SEND := 0;
     REG_SIOMULTI := [0; 0; 0; 0];
     REG_RCNT := 0;
     REG_TM := replicate 4 (mkTMR_REC 0 0) |}.

(** What the five allocations of [lc_init] happen to hold. *)
Definition fresh0 (k : Z) : list Z := [111; 222].

(** A register file with the ready bit set: this node is the master, no
    error, no transfer in flight, player id 0. *)
Definition regs_ready : Regs :=
  {| REG_SIOCNT := 8;
     REG_SIOMLT_SEND := 0;
     REG_SIOMULTI := [0; 0; 0; 0];
     REG_RCNT := 0;
     REG_TM := replicate 4 (mkTMR_REC 0 0) |}.

(** The connection [lc_init] returns for [settings0]. *)
Definition conn0 : LinkConnection := fst (lc_init settings0 fresh0 regs0).

(** [conn0] after [lc_activate]. *)
Definition conn_active : LinkConnection :=
  match lc_activate 2 conn0 regs0 with
  | Some (self, _) => self
  | None => conn0
  end.

(** [conn_active] with one value queued for sending. *)
Definition conn_sent7 : LinkConnection := lc_send conn_active 7.

(** The same settings with the silence timeout set to 0, activated. *)
Definition settings_timeout0 : LinkConnectionSettings :=
  {| settings_baud_rate := BAUD_RATE_1;
     settings_timeout := 0;
     settings_remote_timeout := 5;
     settings_buffer_size := 2;
     settings_interval := 50;
     settings_send_timer_id := 3 |}.

Definition conn_timeout0 : LinkConnection :=
  match lc_activate 2 (fst (lc_init settings_timeout0 fresh0 regs0)) regs0 with
  | Some (self, _) => self
  | None => conn0
  end.

(** An exchange in which slots 0 and 2 report values and slots 1 and 3
    report [LINK_DISCONNECTED]. *)
Definition regs_slots_0_2 : Regs :=
  {| REG_SIOCNT := 8;
     REG_SIOMLT_SEND := 0;
     REG_SIOMULTI := [5; 0xFFFF; 7; 0xFFFF];
     REG_RCNT := 0;
     REG_TM := replicate 4 (mkTMR_REC 0 0) |}.

(** [conn_active] after that exchange. *)
Definition conn_slots_0_2 : LinkConnection :=
  match lc_on_serial 2 conn_active regs_slots_0_2 with
  | Some (self, _) => self
  | None => conn0
  end.

(** [conn_active] after an exchange that the transport completed. *)
Definition conn_exchanged : LinkConnection :=
  match lc_on_serial 2 conn_active regs_ready with
  | Some (self, _) => self
  | None => conn0
  end.

(** The same settings with the remote timeout set to 2^31. *)
Definition settings_remote_2_31 : LinkConnectionSettings :=
  {| settings_baud_rate := BAUD_RATE_1;
     settings_timeout := 3;
     settings_remote_timeout := 2 ^ 31;
     settings_buffer_size := 2;
     settings_interval := 50;
     settings_send_timer_id := 3 |}.

(** An exchange in which slots 0 and 1 report values. *)
Definition regs_slots_0_1 : Regs :=
  {| REG_SIOCNT := 8;
     REG_SIOMLT_SEND := 0;
     REG_SIOMULTI := [5; 7; 0xFFFF; 0xFFFF];
     REG_RCNT := 0;
     REG_TM := replicate 4 (mkTMR_REC 0 0) |}.

(** An exchange in which only slot 0 reports a value. *)
Definition regs_slot_0 : Regs :=
  {| REG_SIOCNT := 8;
     REG_SIOMLT_SEND := 0;
     REG_SIOMULTI := [5; 0xFFFF; 0xFFFF; 0xFFFF];
     REG_RCNT := 0;
     REG_TM := replicate 4 (mkTMR_REC 0 0) |}.

(** Remote timeout 2^31: activated, then the exchange in which slots 0
    and 1 report. *)
Definition conn_remote_2_31 : LinkConnection :=
  match
    lc_activate 2 (fst (lc_init settings_remote_2_31 fresh0 regs0)) regs0
  with
  | Some (self, _) =>
      match lc_on_serial 2 self regs_slots_0_1 with
      | Some (self', _) => self'
      | None => conn0
      end
  | None => conn0
  end.

(** [conn_active] after the exchange in which slots 0 and 1 report. *)
Definition conn_slots_0_1 : LinkConnection :=
  match lc_on_serial 2 conn_active regs_slots_0_1 with
  | Some (self, _) => self
  | None => conn0
  end.

(** The same settings with one cell per queue, activated, and then
    with one value sent. *)
Definition settings_buffer1 : LinkConnectionSettings :=
  {| settings_baud_rate := BAUD_RATE_1;
     settings_timeout := 3;
     settings_remote_timeout := 5;
     settings_buffer_size := 1;
     settings_interval := 50;
     settings_send_timer_id := 3 |}.

Definition fresh1 (k : Z) : list Z := [111].

Definition conn_buffer1 : LinkConnection :=
  match
    lc_activate 1 (fst (lc_init settings_buffer1 fresh1 regs0)) regs0
  with
  | Some (self, _) => self
  | None => conn0
  end.

Definition conn_buffer1_sent7 : LinkConnection := lc_send conn_buffer1 7.

(** A register file with the ready and the slave bits set: this node is
    a slave, no error, player id 0. *)
Definition regs_slave_ready : Regs :=
  {| REG_SIOCNT := 12;
     REG_SIOMLT_SEND := 0;
     REG_SIOMULTI := [0; 0; 0; 0];
     REG_RCNT := 0;
     REG_TM := replicate 4 (mkTMR_REC 0 0) |}.

(** ** Runs of the API and of the reactions *)

(** [lc_send] called once for each value of [vs], in order. *)
Definition lc_sends (self : LinkConnection) (vs : list Z) : LinkConnection :=
  fold_left lc_send vs self.

(** [n] tick reactions in a row. *)
Definition lc_on_vblanks (n : nat) (self : LinkConnection) : LinkConnection :=
  Nat.iter n lc_on_vblank self.

(** Consecutive exchange-complete reactions, one for each register file
    of [hws]; the result lists the connection after each exchange. *)
Fixpoint lc_on_serials (fuel : nat) (self : LinkConnection)
    (hws : list Regs) : option (list LinkConnection) :=
  match hws with
  | [] => Some []
  | hw :: hws' =>
      match lc_on_serial fuel self hw with
      | Some (self', _) =>
          match lc_on_serials fuel self' hws' with
          | Some tr => Some (self' :: tr)
          | None => None
          end
      | None => None
      end
  end.

(** Pushes and pops issued to one queue; [u16q_run] returns the values
    the pops deliver. *)
Inductive qop : Type :=
  | QPush (n : Z)
  | QPop.

Fixpoint u16q_run (ops : list qop) (q : U16Queue) : list Z * U16Queue :=
  match ops with
  | [] => ([], q)
  | QPush n :: ops' => u16q_run ops' (u16q_push q n)
  | QPop :: ops' =>
      let '(v, q') := LINK_QUEUE_POP q in
      let '(vs, q'') := u16q_run ops' q' in
      (v :: vs, q'')
  end.

(** Consecutive pace reactions, one for each register file of [hws];
    the result lists what [REG_SIOMLT_SEND] holds after each and gives
    the final connection. *)
Fixpoint lc_on_timers (fuel : nat) (self : LinkConnection)
    (hws : list Regs) : option (list Z * LinkConnection) :=
  match hws with
  | [] => Some ([], self)
  | hw :: hws' =>
      match lc_on_timer fuel self hw with
      | Some (self', hw') =>
          match lc_on_timers fuel self' hws' with
          | Some (sent, self'') => Some (REG_SIOMLT_SEND hw' :: sent, self'')
          | None => None
          end
      | None => None
      end
  end.

(** A register file on which the pace reaction transmits: master, ready,
    no transfer in flight. *)
Definition master_idle (hw : Regs) : Prop :=
  lc_is_master hw = true /\
  lc_is_ready hw = true /\
  lc_is_sending hw = false.

(** The three interrupt reactions, and runs of them: every reaction
    comes with the register file it observes; the result gives the
    final connection and the register file each reaction left. *)
Inductive reaction : Type :=
  | OnVBlank
  | OnTimer
  | OnSerial.

Definition lc_react (fuel : nat) (self : LinkConnection) (r : reaction)
    (hw : Regs) : option (LinkConnection * Regs) :=
  match r with
  | OnVBlank => Some (lc_on_vblank self, hw)
  | OnTimer => lc_on_timer fuel self hw
  | OnSerial => lc_on_serial fuel self hw
  end.

Fixpoint lc_reacts (fuel : nat) (self : LinkConnection)
    (evs : list (reaction * Regs)) : option (LinkConnection * list Regs) :=
  match evs with
  | [] => Some (self, [])
  | (r, hw) :: evs' =>
      match lc_react fuel self r hw with
      | Some (self', hw') =>
          match lc_reacts fuel self' evs' with
          | Some (self'', hws) => Some (self'', hw' :: hws)
          | None => None
          end
      | None => None
      end
  end.

(** The inner loop of the example program ([main.c]), for one slot:
    [while (lc_has_message(&conn, id))
       data[id] = lc_read_message(&conn, id) - 1;]
    with [data[id]] a [u16]; at most [fuel] iterations. *)
Fixpoint main_read_all (fuel : nat) (conn : LinkConnection) (id data : Z)
  : option (Z * LinkConnection) :=
  match lc_has_message conn id with
  | Some (true, conn1) =>
      match fuel with
      | O => None
      | S fuel' =>
          match lc_read_message conn1 id with
          | Some (message, conn2) =>
              main_read_all fuel' conn2 id (u16 (message - 1))
          | None => None
          end
      end
  | Some (false, conn1) => Some (data, conn1)
  | None => None
  end.

(** ** Well-formedness *)

(** The cursors stay inside the buffer, whose size is the capacity.  A
    capacity of zero is left out: every push would write through a
    zero-sized allocation. *)
Definition wf_queue (q : U16Queue) : Prop :=
  0 < cap q < 2 ^ 32 /\
  0 <= i q < cap q /\
  0 <= j q < cap q /\
  Z.of_nat (length (buf q)) = cap q.

(** Number of pops until the emptiness test holds. *)
Definition u16q_dist (q : U16Queue) : Z :=
  if i q <=? j q then j q - i q else cap q - i q + j q.

(** The cells between the read and the write cursor. *)
Definition u16q_live (q : U16Queue) (k : Z) : Prop :=
  if i q <=? j q then i q <= k < j q
  else i q <= k < cap q \/ 0 <= k < j q.

Definition payload (v : Z) : Prop :=
  v <> LINK_NO_DATA /\ v <> LINK_DISCONNECTED.

Definition u16q_payloads (q : U16Queue) : Prop :=
  forall k, u16q_live q k -> payload (buf q !!! Z.to_nat k).

(** Two queues that deliver the same values to every future run: same
    cursors and capacity, same live cells. *)
Definition u16q_equiv (q1 q2 : U16Queue) : Prop :=
  cap q1 = cap q2 /\ i q1 = i q2 /\ j q1 = j q2 /\
  forall k, u16q_live q1 k ->
    buf q1 !!! Z.to_nat k = buf q2 !!! Z.to_nat k.

Definition wf_state (c : Z) (s : LinkState) : Prop :=
  length (incoming_messages s) = 4%nat /\
  Forall (fun q => wf_queue q /\ cap q = c) (incoming_messages s) /\
  (wf_queue (outgoing_messages s) /\ cap (outgoing_messages s) = c) /\
  length (timeouts s) = 4%nat /\
  Forall (fun t => -1 <= t < 2 ^ 31 - 1) (timeouts s) /\
  0 <= irq_timeout s < 2 ^ 32.

Definition wf_conn (self : LinkConnection) : Prop :=
  wf_state (buffer_size self) (state self).

(** A slot is online when its timeout counter is above the offline
    sentinel, the test of [lc_on_serial]. *)
Definition online (s : LinkState) (k : Z) : bool :=
  LINK_REMOTE_TIMEOUT_OFFLINE <? timeout_of s k.

(** Number of online slots. *)
Definition online_count (s : LinkState) : Z :=
  foldr (fun k n => Z.b2z (online s k) + n) 0 slots.

(** What one round of the scan of [lc_on_serial] does to slot [k], as a
    function of the slot's queue [q] and timeout counter [t] alone: the
    new queue, the new counter and the increment of
    [new_player_count].  [lc_on_serial_slot_step] relates it to
    [lc_on_serial_slot]. *)
Definition slot_step (fuel : nat) (remote_timeout0 cur k data : Z)
    (q : U16Queue) (t : Z) : option (U16Queue * Z * Z) :=
  if negb (data =? LINK_DISCONNECTED) then
    Some (if negb (data =? LINK_NO_DATA) && negb (k =? cur)
          then u16q_push q data else q,
          0, 1)
  else if LINK_REMOTE_TIMEOUT_OFFLINE <? t then
    if int remote_timeout0 <=? int (t + 1) then
      match LINK_QUEUE_CLEAR fuel q with
      | Some q' => Some (q', LINK_REMOTE_TIMEOUT_OFFLINE, 0)
      | None => None
      end
    else Some (q, int (t + 1), 1)
  else Some (q, t, 0).

(** [slot_step] for slot [k] of state [s] under the registers [hw]. *)
Definition slot_step_of (fuel : nat) (remote_timeout0 : Z) (hw : Regs)
    (s : LinkState) (k : Z) : option (U16Queue * Z * Z) :=
  slot_step fuel remote_timeout0 (current_player_id s) k
    (REG_SIOMULTI hw !!! Z.to_nat k) (incoming s k) (timeout_of s k).

(** The state right after [lc_reset_state]. *)
Definition reset_post (s : LinkState) : Prop :=
  player_count s = 0 /\
  current_player_id s = 0 /\
  length (incoming_messages s) = 4%nat /\
  Forall (fun q => u16q_empty q = true /\ u16q_contents q = [])
    (incoming_messages s) /\
  u16q_empty (outgoing_messages s) = true /\
  u16q_contents (outgoing_messages s) = [] /\
  timeouts s = replicate 4 LINK_REMOTE_TIMEOUT_OFFLINE /\
  irq_flag s = false /\
  irq_timeout s = 0.

(** Ticks that found no exchange: the silence counter, less one while
    the activity flag is still set (the first tick after an exchange
    clears the flag and does not count). *)
Definition silence (s : LinkState) : Z :=
  irq_timeout s - (if irq_flag s then 1 else 0).

(** An exchange that completes (transport ready, no error) and reads
    [LINK_DISCONNECTED] for [slot]. *)
Definition reads_disconnected (slot : Z) (hw : Regs) : Prop :=
  lc_is_ready hw = true /\
  lc_has_error hw = false /\
  REG_SIOMULTI hw !!! Z.to_nat slot = LINK_DISCONNECTED.

(** After an exchange: [slot] is one of the peers [player_count]
    counts. *)
Definition counted (self : LinkConnection) (slot : Z) : Prop :=
  player_count (state self) = online_count (state self) /\
  online (state self) slot = true.

(** After an exchange: [slot] has been evicted. *)
Definition evicted (self : LinkConnection) (slot : Z) : Prop :=
  u16q_empty (incoming (state self) slot) = true /\
  u16q_contents (incoming (state self) slot) = [] /\
  timeout_of (state self) slot = LINK_REMOTE_TIMEOUT_OFFLINE /\
  player_count (state self) = online_count (state self) /\
  online (state self) slot = false.

(** The invariant of the reachable connections: well-formed, and the
    live cells of every incoming queue hold payloads. *)
Definition inv (self : LinkConnection) : Prop :=
  wf_conn self /\
  Forall u16q_payloads (incoming_messages (state self)).

(** A second invariant of the reachable connections: the reentrancy
    flag is clear between calls, the peer count and the local slot id
    stay in range, an enabled connection counts exactly its online
    slots, and an offline slot has no message left. *)
Definition inv_presence (self : LinkConnection) : Prop :=
  is_locked (state self) = false /\
  0 <= player_count (state self) <= 4 /\
  0 <= current_player_id (state self) <= 3 /\
  (is_enabled self = true ->
   player_count (state self) = online_count (state self)) /\
  (forall k, 0 <= k < 4 ->
     online (state self) k = false ->
     u16q_empty (incoming (state self) k) = true).

(** ** Reachable connections *)

Definition valid_settings (st : LinkConnectionSettings) : Prop :=
  0 < settings_buffer_size st < 2 ^ 32 /\
  0 <= settings_timeout st < 2 ^ 32 /\
  0 <= settings_remote_timeout st < 2 ^ 32 /\
  0 <= settings_interval st < 2 ^ 32 /\
  0 <= settings_send_timer_id st < 4.

Definition valid_fresh (c : Z) (fresh : Z -> list Z) : Prop :=
  forall k, Z.of_nat (length (fresh k)) = c.

Definition valid_regs (hw : Regs) : Prop :=
  0 <= REG_SIOCNT hw < 2 ^ 16 /\
  length (REG_SIOMULTI hw) = 4%nat /\
  Forall (fun v => 0 <= v < 2 ^ 16) (REG_SIOMULTI hw).

(** The connections the program can be in between two calls: built by
    [lc_init], then driven by the public API and by the three reactions,
    each reaction observing some register file. *)
Inductive reachable : LinkConnection -> Prop :=
  | reach_init settings fresh hw :
      valid_settings settings ->
      valid_fresh (settings_buffer_size settings) fresh ->
      reachable (fst (lc_init settings fresh hw))
  | reach_activate fuel self hw self' hw' :
      reachable self ->
      lc_activate fuel self hw = Some (self', hw') ->
      reachable self'
  | reach_deactivate fuel self hw self' hw' :
      reachable self ->
      lc_deactivate fuel self hw = Some (self', hw') ->
      reachable self'
  | reach_send self data :
      reachable self ->
      0 <= data < 2 ^ 16 ->
      reachable (lc_send self data)
  | reach_has_message self player_id b self' :
      reachable self ->
      0 <= player_id < 2 ^ 8 ->
      lc_has_message self player_id = Some (b, self') ->
      reachable self'
  | reach_read_message self player_id message self' :
      reachable self ->
      0 <= player_id < 2 ^ 8 ->
      lc_read_message self player_id = Some (message, self') ->
      reachable self'
  | reach_vblank self :
      reachable self ->
      reachable (lc_on_vblank self)
  | reach_timer fuel self hw self' hw' :
      reachable self ->
      valid_regs hw ->
      lc_on_timer fuel self hw = Some (self', hw') ->
      reachable self'
  | reach_serial fuel self hw self' hw' :
      reachable self ->
      valid_regs hw ->
      lc_on_serial fuel self hw = Some (self', hw') ->
      reachable self'.

(** ** Proof automation *)

(** Case analysis on every boolean comparison of the goal. *)
Ltac zcases :=
  repeat match goal with
    | |- context [?a <=? ?b] => destruct (Z.leb_spec a b)
    | |- context [?a <? ?b] => destruct (Z.ltb_spec a b)
    | |- context [?a =? ?b] => destruct (Z.eqb_spec a b)
    end.

(** Split the conjunctions of the goal, without unfolding. *)
Ltac conjs := repeat match goal with |- _ /\ _ => split end.

(** Well-formedness of a concrete connection, by evaluation. *)
Ltac wf_concrete :=
  match goal with
  | |- wf_conn ?c =>
      let c' := eval vm_compute in c in
      change (wf_conn c')
  end;
  unfold wf_conn, wf_state, wf_queue; simpl;
  repeat first [ split | apply Forall_cons | apply Forall_nil ];
  simpl; lia.

(** Unfold the presence bookkeeping down to the lists. *)
Ltac presence_unfold :=
  unfold inv_presence, online_count, online, timeout_of, incoming in *;
  change slots with [0; 1; 2; 3] in *.

Arguments slot_step : simpl never.

(** * Properties *)

(** ** Machine integers *)

Lemma u32_small x : 0 <= x < 2 ^ 32 -> u32 x = x.
Proof. intros H. unfold u32. apply Z.mod_small. exact H. Qed.

Lemma u8_small x : 0 <= x < 2 ^ 8 -> u8 x = x.
Proof. intros H. unfold u8. apply Z.mod_small. exact H. Qed.

Lemma int_small x : - 2 ^ 31 <= x < 2 ^ 31 -> int x = x.
Proof.
  intros H. unfold int. rewrite Z.mod_small; lia.
Qed.

(** ** The ring buffer *)

Lemma u16q_empty_true q : u16q_empty q = true <-> i q = j q.
Proof. unfold u16q_empty. apply Z.eqb_eq. Qed.

Lemma u16q_empty_false q : u16q_empty q = false <-> i q <> j q.
Proof. unfold u16q_empty. apply Z.eqb_neq. Qed.

Lemma u16q_pop_i q :
  wf_queue q -> i (u16q_pop q) = if cap q <=? i q + 1 then 0 else i q + 1.
Proof.
  intros (Hc & Hi & _). simpl. rewrite u32_small by lia. reflexivity.
Qed.

Lemma u16q_push_j q n :
  wf_queue q ->
  j (u16q_push q n) = if cap q <=? j q + 1 then 0 else j q + 1.
Proof.
  intros (Hc & _ & Hj & _). simpl. rewrite u32_small by lia. reflexivity.
Qed.

Lemma wf_queue_pop q : wf_queue q -> wf_queue (u16q_pop q).
Proof.
  intros H. pose proof (u16q_pop_i q H) as Hi.
  destruct H as (Hc & Hi0 & Hj & Hl).
  unfold wf_queue. rewrite Hi. simpl. zcases; repeat split; lia.
Qed.

Lemma wf_queue_push q n : wf_queue q -> wf_queue (u16q_push q n).
Proof.
  intros H. pose proof (u16q_push_j q n H) as Hj.
  destruct H as (Hc & Hi & Hj0 & Hl).
  unfold wf_queue. rewrite Hj. simpl. rewrite length_insert.
  zcases; repeat split; lia.
Qed.

Lemma LINK_QUEUE_POP_empty q :
  u16q_empty q = true -> LINK_QUEUE_POP q = (LINK_NO_DATA, q).
Proof. intros H. unfold LINK_QUEUE_POP. rewrite H. reflexivity. Qed.

Lemma LINK_QUEUE_POP_nonempty q :
  u16q_empty q = false -> LINK_QUEUE_POP q = (u16q_front q, u16q_pop q).
Proof. intros H. unfold LINK_QUEUE_POP. rewrite H. reflexivity. Qed.

Lemma wf_queue_LINK_QUEUE_POP q :
  wf_queue q -> wf_queue (snd (LINK_QUEUE_POP q)).
Proof.
  intros H. unfold LINK_QUEUE_POP.
  destruct (u16q_empty q); simpl; auto using wf_queue_pop.
Qed.

Lemma cap_LINK_QUEUE_POP q : cap (snd (LINK_QUEUE_POP q)) = cap q.
Proof. unfold LINK_QUEUE_POP. destruct (u16q_empty q); reflexivity. Qed.

Lemma u16q_dist_bounds q : wf_queue q -> 0 <= u16q_dist q < cap q.
Proof.
  intros (Hc & Hi & Hj & _). unfold u16q_dist. zcases; lia.
Qed.

Lemma u16q_dist_zero q : wf_queue q -> u16q_dist q = 0 <-> i q = j q.
Proof.
  intros (Hc & Hi & Hj & _). unfold u16q_dist. zcases; lia.
Qed.

Lemma u16q_dist_pop q :
  wf_queue q -> i q <> j q -> u16q_dist (u16q_pop q) = u16q_dist q - 1.
Proof.
  intros H Hne. pose proof (u16q_pop_i q H) as Hi.
  destruct H as (Hc & Hi0 & Hj & _).
  unfold u16q_dist. rewrite Hi. simpl j. simpl cap. zcases; lia.
Qed.

(** The loop of [LINK_QUEUE_CLEAR] stops only on an empty queue. *)
Lemma LINK_QUEUE_CLEAR_empty fuel : forall q q',
  LINK_QUEUE_CLEAR fuel q = Some q' -> u16q_empty q' = true.
Proof.
  induction fuel as [|fuel IH]; intros q q'; simpl;
    destruct (u16q_empty q) eqn:E; intros H; try congruence.
  eapply IH; eassumption.
Qed.

(** It keeps the capacity, the buffer and the write cursor. *)
Lemma LINK_QUEUE_CLEAR_frame fuel : forall q q',
  LINK_QUEUE_CLEAR fuel q = Some q' ->
  cap q' = cap q /\ buf q' = buf q /\ j q' = j q.
Proof.
  induction fuel as [|fuel IH]; intros q q'; simpl;
    destruct (u16q_empty q) eqn:E; intros H; try congruence.
  - inversion H; auto.
  - inversion H; auto.
  - apply IH in H. unfold LINK_QUEUE_POP in H. rewrite E in H. simpl in H.
    exact H.
Qed.

(** On a well-formed queue the loop ends within [u16q_dist q] pops. *)
Lemma LINK_QUEUE_CLEAR_total fuel : forall q,
  wf_queue q -> u16q_dist q <= Z.of_nat fuel ->
  exists q', LINK_QUEUE_CLEAR fuel q = Some q' /\ wf_queue q'.
Proof.
  induction fuel as [|fuel IH]; intros q Hwf Hd; simpl;
    destruct (u16q_empty q) eqn:E; eauto.
  - apply u16q_empty_false in E.
    pose proof (u16q_dist_zero q Hwf). pose proof (u16q_dist_bounds q Hwf). lia.
  - rewrite (LINK_QUEUE_POP_nonempty q E). simpl.
    apply u16q_empty_false in E.
    apply IH; [apply wf_queue_pop; exact Hwf|].
    rewrite u16q_dist_pop by assumption. lia.
Qed.

Lemma LINK_QUEUE_CLEAR_cap fuel q :
  wf_queue q -> cap q <= Z.of_nat fuel ->
  exists q', LINK_QUEUE_CLEAR fuel q = Some q' /\ wf_queue q' /\
             cap q' = cap q /\ u16q_empty q' = true.
Proof.
  intros Hwf Hf.
  destruct (LINK_QUEUE_CLEAR_total fuel q Hwf) as (q' & Hq & Hwf').
  - pose proof (u16q_dist_bounds q Hwf). lia.
  - exists q'. split; [exact Hq|]. split; [exact Hwf'|]. split.
    + apply (LINK_QUEUE_CLEAR_frame fuel q q' Hq).
    + apply (LINK_QUEUE_CLEAR_empty fuel q q' Hq).
Qed.

Lemma u16q_drain_empty n q : u16q_empty q = true -> u16q_drain n q = [].
Proof. intros H. destruct n; simpl; [reflexivity|]. rewrite H. reflexivity. Qed.

Lemma u16q_contents_empty q : u16q_empty q = true -> u16q_contents q = [].
Proof. apply u16q_drain_empty. Qed.

(** ** Arrays of four cells *)

Lemma slots_eq : slots = [0; 1; 2; 3].
Proof. reflexivity. Qed.

Lemma length_four {A : Type} (l : list A) :
  length l = 4%nat -> exists a b c d, l = [a; b; c; d].
Proof.
  destruct l as [|a [|b [|c [|d [|e l]]]]]; simpl; intros H; try discriminate.
  eauto.
Qed.

(** ** [lc_reset_state] *)

Lemma lc_reset_state_total fuel self :
  wf_conn self -> buffer_size self <= Z.of_nat fuel ->
  exists self',
    lc_reset_state fuel self = Some self' /\
    reset_post (state self') /\
    wf_conn self' /\
    self' = set_state (state self') self /\
    is_locked (state self') = is_locked (state self).
Proof.
  destruct self as [s br tmo rt bs iv tid en].
  destruct s as [pc cur inc out tos flag it lock].
  unfold wf_conn, wf_state; simpl.
  intros (Hli & Hinc & (Hout & Hoc) & Hlt & Htos & Hit) Hfuel.
  destruct (length_four _ Hli) as (q0 & q1 & q2 & q3 & ->).
  destruct (length_four _ Hlt) as (t0 & t1 & t2 & t3 & ->).
  rewrite !Forall_cons_iff in Hinc.
  destruct Hinc as ((W0 & C0) & (W1 & C1) & (W2 & C2) & (W3 & C3) & _).
  destruct (LINK_QUEUE_CLEAR_cap fuel q0 W0) as (r0 & E0 & V0 & D0 & M0); [lia|].
  destruct (LINK_QUEUE_CLEAR_cap fuel q1 W1) as (r1 & E1 & V1 & D1 & M1); [lia|].
  destruct (LINK_QUEUE_CLEAR_cap fuel q2 W2) as (r2 & E2 & V2 & D2 & M2); [lia|].
  destruct (LINK_QUEUE_CLEAR_cap fuel q3 W3) as (r3 & E3 & V3 & D3 & M3); [lia|].
  destruct (LINK_QUEUE_CLEAR_cap fuel out Hout) as (ro & Eo & Vo & Do & Mo); [lia|].
  unfold lc_reset_state, lc_reset_state_slot. rewrite slots_eq. simpl.
  unfold incoming; simpl. rewrite E0. simpl.
  unfold incoming; simpl. rewrite E1. simpl.
  unfold incoming; simpl. rewrite E2. simpl.
  unfold incoming; simpl. rewrite E3. simpl.
  rewrite Eo.
  eexists. split; [reflexivity|].
  unfold reset_post, wf_conn, wf_state; simpl.
  rewrite !Forall_cons_iff.
  repeat match goal with |- _ /\ _ => split end;
    auto using u16q_contents_empty, Forall_nil_2;
    try reflexivity; try lia.
Qed.

(** ** Live cells of the ring buffer *)

Lemma u16q_live_front q : wf_queue q -> i q <> j q -> u16q_live q (i q).
Proof.
  intros (Hc & Hi & Hj & _) Hne. unfold u16q_live. zcases; lia.
Qed.

Lemma u16q_live_range q k : wf_queue q -> u16q_live q k -> 0 <= k < cap q.
Proof.
  intros (Hc & Hi & Hj & _). unfold u16q_live. zcases; lia.
Qed.

Lemma u16q_live_pop q k :
  wf_queue q -> i q <> j q -> u16q_live (u16q_pop q) k -> u16q_live q k.
Proof.
  intros H Hne. pose proof (u16q_pop_i q H) as Hi.
  destruct H as (Hc & Hi0 & Hj & _).
  unfold u16q_live. rewrite Hi. simpl j. simpl cap. zcases; lia.
Qed.

Lemma u16q_live_push q n k :
  wf_queue q -> u16q_live (u16q_push q n) k -> k = j q \/ u16q_live q k.
Proof.
  intros H. pose proof (u16q_push_j q n H) as Hj.
  destruct H as (Hc & Hi & Hj0 & _).
  unfold u16q_live. rewrite Hj. simpl i. simpl cap. zcases; lia.
Qed.

Lemma u16q_live_empty q k : i q = j q -> ~ u16q_live q k.
Proof. intros E. unfold u16q_live. rewrite E. zcases; lia. Qed.

Lemma buf_push_same q n :
  wf_queue q -> buf (u16q_push q n) !!! Z.to_nat (j q) = n.
Proof.
  intros (Hc & Hi & Hj & Hl). simpl.
  apply list_lookup_total_insert_eq. lia.
Qed.

Lemma buf_push_other q n k :
  0 <= k -> 0 <= j q -> k <> j q ->
  buf (u16q_push q n) !!! Z.to_nat k = buf q !!! Z.to_nat k.
Proof.
  intros Hk Hj Hne. simpl. apply list_lookup_total_insert_ne. lia.
Qed.

(** Pushing a payload and popping keep the live cells payloads. *)
Lemma u16q_payloads_push q n :
  wf_queue q -> payload n -> u16q_payloads q ->
  u16q_payloads (u16q_push q n).
Proof.
  intros Hwf Hn Hq k Hk.
  pose proof (u16q_live_range _ _ (wf_queue_push q n Hwf) Hk) as Hr.
  destruct (u16q_live_push q n k Hwf Hk) as [-> | Hl].
  - rewrite buf_push_same by assumption. exact Hn.
  - destruct (Z.eq_dec k (j q)) as [-> | Hne].
    + rewrite buf_push_same by assumption. exact Hn.
    + rewrite buf_push_other; [auto | lia | apply Hwf | exact Hne].
Qed.

Lemma u16q_payloads_pop q :
  wf_queue q -> u16q_payloads q -> u16q_payloads (snd (LINK_QUEUE_POP q)).
Proof.
  intros Hwf Hq. unfold LINK_QUEUE_POP.
  destruct (u16q_empty q) eqn:E; simpl; [exact Hq|].
  apply u16q_empty_false in E. intros k Hk.
  apply (Hq k). apply u16q_live_pop; assumption.
Qed.

Lemma LINK_QUEUE_POP_payload q :
  wf_queue q -> u16q_payloads q -> u16q_empty q = false ->
  payload (fst (LINK_QUEUE_POP q)).
Proof.
  intros Hwf Hq E. rewrite (LINK_QUEUE_POP_nonempty q E). simpl.
  apply u16q_empty_false in E. unfold u16q_front.
  apply Hq. apply u16q_live_front; assumption.
Qed.

Lemma u16q_payloads_empty q : u16q_empty q = true -> u16q_payloads q.
Proof.
  intros E k Hk. apply u16q_empty_true in E.
  exfalso. exact (u16q_live_empty q k E Hk).
Qed.

Lemma LINK_QUEUE_CLEAR_payloads fuel q q' :
  LINK_QUEUE_CLEAR fuel q = Some q' -> u16q_payloads q'.
Proof.
  intros H. apply u16q_payloads_empty.
  exact (LINK_QUEUE_CLEAR_empty fuel q q' H).
Qed.

Lemma u16q_drain_payloads n : forall q,
  wf_queue q -> u16q_payloads q -> Forall payload (u16q_drain n q).
Proof.
  induction n as [|n IH]; intros q Hwf Hq; simpl; [constructor|].
  destruct (u16q_empty q) eqn:E; [constructor|].
  constructor.
  - apply LINK_QUEUE_POP_payload; assumption.
  - apply IH; [apply wf_queue_LINK_QUEUE_POP | apply u16q_payloads_pop];
      assumption.
Qed.

(** ** Queues that cannot be told apart *)

Lemma u16q_equiv_empty q1 q2 :
  u16q_equiv q1 q2 -> u16q_empty q1 = u16q_empty q2.
Proof.
  intros (_ & Hi & Hj & _). unfold u16q_empty. rewrite Hi, Hj. reflexivity.
Qed.

Lemma u16q_equiv_push q1 q2 n :
  wf_queue q1 -> wf_queue q2 -> u16q_equiv q1 q2 ->
  u16q_equiv (u16q_push q1 n) (u16q_push q2 n).
Proof.
  intros W1 W2 (Hc & Hi & Hj & Hb).
  split; [exact Hc|]. split; [exact Hi|]. split.
  - rewrite !u16q_push_j by assumption. rewrite Hc, Hj. reflexivity.
  - intros k Hk.
    pose proof (u16q_live_range _ _ (wf_queue_push q1 n W1) Hk) as Hr.
    destruct (Z.eq_dec k (j q1)) as [-> | Hne].
    + rewrite buf_push_same by assumption.
      rewrite Hj. rewrite buf_push_same by assumption. reflexivity.
    + destruct (u16q_live_push q1 n k W1 Hk) as [-> | Hl]; [congruence|].
      rewrite !buf_push_other; [auto | lia | apply W2 | congruence
                               | lia | apply W1 | exact Hne].
Qed.

Lemma u16q_equiv_pop q1 q2 :
  wf_queue q1 -> wf_queue q2 -> u16q_equiv q1 q2 ->
  fst (LINK_QUEUE_POP q1) = fst (LINK_QUEUE_POP q2) /\
  u16q_equiv (snd (LINK_QUEUE_POP q1)) (snd (LINK_QUEUE_POP q2)).
Proof.
  intros W1 W2 He. pose proof (u16q_equiv_empty q1 q2 He) as Hem.
  unfold LINK_QUEUE_POP. rewrite <- Hem.
  destruct (u16q_empty q1) eqn:E; simpl; [split; [reflexivity | exact He]|].
  apply u16q_empty_false in E.
  destruct He as (Hc & Hi & Hj & Hb). split.
  - unfold u16q_front. rewrite <- Hi. apply Hb.
    apply u16q_live_front; assumption.
  - split; [exact Hc|]. split; [|split; [exact Hj|]].
    + rewrite !u16q_pop_i by assumption. rewrite Hc, Hi. reflexivity.
    + intros k Hk. simpl. apply Hb. apply u16q_live_pop; assumption.
Qed.

Lemma u16q_run_equiv ops : forall q1 q2,
  wf_queue q1 -> wf_queue q2 -> u16q_equiv q1 q2 ->
  fst (u16q_run ops q1) = fst (u16q_run ops q2).
Proof.
  induction ops as [|[n|] ops IH]; intros q1 q2 W1 W2 He; simpl.
  - reflexivity.
  - apply IH; auto using wf_queue_push, u16q_equiv_push.
  - destruct (u16q_equiv_pop q1 q2 W1 W2 He) as (Hv & He').
    pose proof (IH _ _ (wf_queue_LINK_QUEUE_POP q1 W1)
                  (wf_queue_LINK_QUEUE_POP q2 W2) He') as Hr.
    destruct (LINK_QUEUE_POP q1) as [v1 r1], (LINK_QUEUE_POP q2) as [v2 r2].
    simpl in *.
    destruct (u16q_run ops r1), (u16q_run ops r2). simpl in *. congruence.
Qed.

(** ** Runs of pushes *)

Lemma u32_range x : 0 <= u32 x < 2 ^ 32.
Proof. unfold u32. apply Z.mod_pos_bound. lia. Qed.

Lemma u16q_push_j_mod q n :
  wf_queue q -> j (u16q_push q n) = (j q + 1) mod cap q.
Proof.
  intros H. rewrite u16q_push_j by assumption.
  destruct H as (Hc & _ & Hj & _).
  destruct (Z.leb_spec (cap q) (j q + 1)).
  - replace (j q + 1) with (cap q) by lia. symmetry. apply Z_mod_same_full.
  - symmetry. apply Z.mod_small. lia.
Qed.

Lemma u16q_pushes vs : forall q,
  wf_queue q -> 0 <= len q < 2 ^ 32 ->
  let q' := fold_left u16q_push vs q in
  wf_queue q' /\
  cap q' = cap q /\
  i q' = i q /\
  j q' = (j q + Z.of_nat (length vs)) mod cap q /\
  len q' = u32 (len q + Z.of_nat (length vs)).
Proof.
  induction vs as [|v vs IH]; intros q Hwf Hlen; simpl.
  - split; [exact Hwf|]. split; [reflexivity|]. split; [reflexivity|].
    destruct Hwf as (Hc & _ & Hj & _). split.
    + rewrite Z.add_0_r. symmetry. apply Z.mod_small. exact Hj.
    + rewrite Z.add_0_r. symmetry. apply u32_small. exact Hlen.
  - destruct (IH (u16q_push q v) (wf_queue_push q v Hwf))
      as (W & C & I & J & L); [simpl; apply u32_range|].
    split; [exact W|]. split; [exact C|]. split; [exact I|]. split.
    + rewrite J. rewrite u16q_push_j_mod by assumption. simpl cap.
      rewrite Zplus_mod_idemp_l. f_equal. lia.
    + rewrite L. simpl len. unfold u32.
      rewrite Zplus_mod_idemp_l. f_equal. lia.
Qed.

(** [lc_send] of payloads is a push on the outgoing queue. *)
Lemma lc_send_payload self data :
  payload data ->
  lc_send self data =
  set_state
    (set_is_locked false
       (set_outgoing_messages
          (u16q_push (outgoing_messages (state self)) data)
          (set_is_locked true (state self)))) self.
Proof.
  intros (H0 & HF). unfold lc_send.
  destruct (Z.eqb_spec data LINK_DISCONNECTED); [contradiction|].
  destruct (Z.eqb_spec data LINK_NO_DATA); [contradiction|].
  reflexivity.
Qed.

Lemma lc_sends_outgoing vs : forall self,
  Forall payload vs ->
  outgoing_messages (state (lc_sends self vs)) =
  fold_left u16q_push vs (outgoing_messages (state self)).
Proof.
  unfold lc_sends.
  induction vs as [|v vs IH]; intros self Hvs; simpl; [reflexivity|].
  inversion Hvs as [|? ? Hv Hvs']; subst.
  rewrite IH by assumption. rewrite lc_send_payload by assumption.
  reflexivity.
Qed.

(** ** A queue that holds one value *)

Lemma u16q_contents_single q v :
  wf_queue q -> u16q_contents q = [v] ->
  u16q_empty q = false /\
  LINK_QUEUE_POP q = (v, u16q_pop q) /\
  u16q_empty (u16q_pop q) = true.
Proof.
  intros Hwf. unfold u16q_contents.
  pose proof Hwf as (Hc & Hi & Hj & _).
  destruct (Z.to_nat (cap q)) as [|n] eqn:En; [lia|]. simpl.
  destruct (u16q_empty q) eqn:E; [discriminate|].
  rewrite (LINK_QUEUE_POP_nonempty q E). simpl. intros H.
  inversion H as [[Hv Hr]]. split; [reflexivity|]. split; [reflexivity|].
  destruct n as [|n].
  - apply u16q_empty_false in E. lia.
  - simpl in Hr. destruct (u16q_empty (u16q_pop q)); [reflexivity|discriminate].
Qed.

(** One push on an empty queue of capacity at least 2 makes the queue
    hold exactly the value pushed.  (With capacity 1 the write cursor
    wraps onto the read cursor at once and the queue never holds a
    value.) *)
Lemma u16q_contents_push_empty q v :
  wf_queue q -> 2 <= cap q -> u16q_empty q = true ->
  u16q_contents (u16q_push q v) = [v].
Proof.
  intros Hwf Hc He. apply u16q_empty_true in He.
  pose proof (wf_queue_push q v Hwf) as Hwf'.
  pose proof (u16q_push_j q v Hwf) as Hj.
  pose proof (buf_push_same q v Hwf) as Hb.
  pose proof (u16q_pop_i _ Hwf') as Hi.
  unfold u16q_contents.
  change (cap (u16q_push q v)) with (cap q) in *.
  change (i (u16q_push q v)) with (i q) in *.
  destruct (Z.to_nat (cap q)) as [|[|n]] eqn:En; [lia|lia|].
  destruct Hwf as (_ & Hiq & Hjq & _).
  assert (u16q_empty (u16q_push q v) = false) as E1.
  { apply u16q_empty_false.
    change (i (u16q_push q v)) with (i q). rewrite Hj.
    destruct (Z.leb_spec (cap q) (j q + 1)); lia. }
  assert (u16q_empty (u16q_pop (u16q_push q v)) = true) as E2.
  { apply u16q_empty_true. rewrite Hi.
    change (j (u16q_pop (u16q_push q v))) with (j (u16q_push q v)).
    rewrite Hj, He. reflexivity. }
  cbn [u16q_drain]. rewrite E1.
  rewrite (LINK_QUEUE_POP_nonempty _ E1). cbn [fst snd]. rewrite E2.
  unfold u16q_front. change (i (u16q_push q v)) with (i q).
  rewrite He, Hb. reflexivity.
Qed.

(** ** Bits of [REG_SIOCNT] *)

Lemma isBitHigh_testbit bit hw :
  0 <= bit -> isBitHigh bit hw = Z.testbit (REG_SIOCNT hw) bit.
Proof.
  intros Hb. unfold isBitHigh.
  change 1 with (Z.ones 1) at 1. rewrite Z.land_ones by lia.
  change (2 ^ 1) with 2. rewrite <- Z.bit0_mod.
  rewrite Z.shiftr_spec by lia. rewrite Z.add_0_l.
  destruct (Z.testbit (REG_SIOCNT hw) bit); reflexivity.
Qed.

Lemma isBitHigh_setBitHigh bit hw :
  0 <= bit < 16 -> isBitHigh bit (setBitHigh bit hw) = true.
Proof.
  intros Hb. rewrite isBitHigh_testbit by lia.
  unfold setBitHigh, LINK_SET_HIGH, u16. simpl REG_SIOCNT.
  rewrite Z.mod_pow2_bits_low by lia.
  rewrite Z.lor_spec, Z.shiftl_spec by lia.
  replace (bit - bit) with 0 by lia. simpl. apply orb_true_r.
Qed.

Lemma lc_start_regs self hw :
  lc_is_sending (lc_start self hw) = false /\
  REG_SIOMLT_SEND (lc_start self hw) = LINK_NO_DATA.
Proof.
  unfold lc_is_sending, isBitHigh, lc_start, setBitHigh. simpl.
  destruct (baud_rate self); split; reflexivity.
Qed.

Lemma lc_transfer_master data hw :
  lc_is_master hw = true ->
  REG_SIOMLT_SEND (lc_transfer data hw) = data /\
  lc_is_sending (lc_transfer data hw) = true.
Proof.
  intros Hm. unfold lc_transfer.
  replace (lc_is_master (set_REG_SIOMLT_SEND data hw)) with true by exact (eq_sym Hm).
  split; [reflexivity|].
  unfold lc_is_sending. apply isBitHigh_setBitHigh. unfold LINK_BIT_START. lia.
Qed.

(** ** Concrete connections are well formed *)

Lemma wf_conn0 : wf_conn conn0.
Proof. wf_concrete. Qed.

Lemma wf_conn_active : wf_conn conn_active.
Proof. wf_concrete. Qed.

(** ** Full reset *)

Lemma lc_reset_total fuel self hw :
  wf_conn self -> buffer_size self <= Z.of_nat fuel ->
  exists self',
    lc_reset fuel self hw = Some (self', lc_start self' (lc_stop self' hw)) /\
    lc_reset_state fuel self = Some self' /\
    reset_post (state self') /\
    wf_conn self' /\
    self' = set_state (state self') self /\
    is_locked (state self') = is_locked (state self).
Proof.
  intros Hwf Hf.
  destruct (lc_reset_state_total fuel self Hwf Hf)
    as (self' & E & P & W & C & L).
  exists self'. unfold lc_reset. rewrite E.
  split; [reflexivity|]. split; [reflexivity|]. split; [exact P|].
  split; [exact W|]. split; [exact C | exact L].
Qed.

(** C3: after a full reset, whether it comes from activation, from the
    watchdog in the pace reaction or from a transport that is not ready
    or reports an error, the peer count and the local slot id are 0, the
    four incoming queues and the outgoing queue are empty, every timeout
    counter is the offline sentinel, the activity flag is clear and the
    silence counter is 0. *)
Theorem full_reset_clears_state fuel self hw :
  wf_conn self -> buffer_size self <= Z.of_nat fuel ->
  exists self' hw',
    lc_reset fuel self hw = Some (self', hw') /\
    reset_post (state self') /\
    lc_activate fuel self hw = Some (set_is_enabled true self', hw') /\
    reset_post (state (set_is_enabled true self')) /\
    (is_enabled self = true -> is_locked (state self) = false ->
     lc_did_timeout self = true ->
     lc_on_timer fuel self hw = Some (self', hw')) /\
    (is_enabled self = true -> is_locked (state self) = false ->
     lc_is_ready hw = false \/ lc_has_error hw = true ->
     lc_on_serial fuel self hw = Some (self', hw')).
Proof.
  intros Hwf Hf.
  destruct (lc_reset_total fuel self hw Hwf Hf)
    as (self' & E & _ & P & _ & _ & _).
  exists self', (lc_start self' (lc_stop self' hw)).
  split; [exact E|]. split; [exact P|]. split.
  { unfold lc_activate. rewrite E. reflexivity. }
  split; [exact P|]. split.
  - intros He Hl Ht. unfold lc_on_timer. rewrite He, Hl, Ht. exact E.
  - intros He Hl Hr. unfold lc_on_serial, lc_reset_if_needed.
    rewrite He, Hl. simpl.
    assert (negb (lc_is_ready hw) || lc_has_error hw = true) as ->.
    { destruct Hr as [-> | ->]; [reflexivity | apply orb_true_r]. }
    rewrite E. reflexivity.
Qed.

Lemma full_reset_clears_state_witness :
  exists self' hw',
    lc_reset 2 conn0 regs0 = Some (self', hw') /\ reset_post (state self').
Proof.
  destruct (full_reset_clears_state 2 conn0 regs0) as (self' & hw' & E & P & _).
  - wf_concrete.
  - vm_compute. discriminate.
  - exists self', hw'. split; assumption.
Defined.

(** C6: [lc_send] of either reserved value, 0x0000 or 0xFFFF, returns
    the connection unchanged; any call either changes nothing or pushes
    a value that is neither of the two onto the outgoing queue. *)
Theorem lc_send_reserved_noop self :
  lc_send self LINK_NO_DATA = self /\
  lc_send self LINK_DISCONNECTED = self /\
  forall data,
    lc_send self data = self \/
    (payload data /\
     outgoing_messages (state (lc_send self data)) =
     u16q_push (outgoing_messages (state self)) data).
Proof.
  split; [reflexivity|]. split; [reflexivity|].
  intros data. unfold lc_send, payload.
  destruct (Z.eqb_spec data LINK_DISCONNECTED); [left; reflexivity|].
  destruct (Z.eqb_spec data LINK_NO_DATA); [left; reflexivity|].
  right. simpl. auto.
Qed.

(** The pace reaction of an enabled, unguarded master below the silence
    timeout, whose transport is ready and idle: when the outgoing queue
    delivers exactly one value the reaction pops it, writes it to the
    transport and starts the transfer, and the queue is empty
    afterwards; when the queue tests empty it hands over
    [LINK_NO_DATA].  One [lc_send] leaves a queue that delivers its
    value only if [buffer_size] is at least 2
    ([u16q_contents_push_empty]). *)
Lemma lc_on_timer_transmits fuel self hw :
  is_enabled self = true ->
  is_locked (state self) = false ->
  lc_did_timeout self = false ->
  lc_is_master hw = true ->
  lc_is_ready hw = true ->
  lc_is_sending hw = false ->
  wf_queue (outgoing_messages (state self)) ->
  (forall v,
     u16q_contents (outgoing_messages (state self)) = [v] ->
     exists self' hw',
       lc_on_timer fuel self hw = Some (self', hw') /\
       LINK_QUEUE_POP (outgoing_messages (state self)) =
         (v, outgoing_messages (state self')) /\
       REG_SIOMLT_SEND hw' = v /\
       lc_is_sending hw' = true /\
       u16q_empty (outgoing_messages (state self')) = true /\
       u16q_contents (outgoing_messages (state self')) = []) /\
  (u16q_empty (outgoing_messages (state self)) = true ->
   exists hw',
     lc_on_timer fuel self hw = Some (self, hw') /\
     REG_SIOMLT_SEND hw' = LINK_NO_DATA /\
     lc_is_sending hw' = true).
Proof.
  intros He Hl Ht Hm Hr Hs Hwf.
  assert (lc_on_timer fuel self hw = Some (lc_send_pending_data self hw)) as E.
  { unfold lc_on_timer. rewrite He, Hl, Ht, Hm, Hr, Hs. reflexivity. }
  rewrite E. split.
  - intros v Hv.
    destruct (u16q_contents_single _ v Hwf Hv) as (_ & Hp & Hem).
    unfold lc_send_pending_data. rewrite Hp.
    destruct (lc_transfer_master v hw Hm) as (Hd & Hst).
    eexists. eexists. split; [reflexivity|]. simpl.
    repeat split; auto using u16q_contents_empty.
  - intros Hem. unfold lc_send_pending_data.
    rewrite (LINK_QUEUE_POP_empty _ Hem).
    destruct (lc_transfer_master LINK_NO_DATA hw Hm) as (Hd & Hst).
    exists (lc_transfer LINK_NO_DATA hw). split; [|split; assumption].
    destruct self as [[] ]. reflexivity.
Qed.

(** C10: with the silence timeout configured as 0 every enabled,
    unguarded pace reaction performs a full reset, whatever the
    registers say; the branch that transmits is not taken, and the
    connection it returns is again enabled, unguarded and has the
    silence timeout 0. *)
Theorem zero_timeout_always_resets fuel self hw :
  wf_conn self -> buffer_size self <= Z.of_nat fuel ->
  timeout self = 0 ->
  is_enabled self = true ->
  is_locked (state self) = false ->
  lc_did_timeout self = true /\
  lc_on_timer fuel self hw = lc_reset fuel self hw /\
  exists self' hw',
    lc_on_timer fuel self hw = Some (self', hw') /\
    reset_post (state self') /\
    lc_is_sending hw' = false /\
    (lc_is_master hw = true -> (self', hw') <> lc_send_pending_data self hw) /\
    wf_conn self' /\ buffer_size self' = buffer_size self /\
    timeout self' = 0 /\
    is_enabled self' = true /\
    is_locked (state self') = false.
Proof.
  intros Hwf Hf Ht He Hl.
  assert (lc_did_timeout self = true) as Hd.
  { unfold lc_did_timeout. rewrite Ht. apply Z.leb_le. apply Hwf. }
  assert (lc_on_timer fuel self hw = lc_reset fuel self hw) as E.
  { unfold lc_on_timer. rewrite He, Hl, Hd. reflexivity. }
  split; [exact Hd|]. split; [exact E|]. rewrite E.
  destruct (lc_reset_total fuel self hw Hwf Hf)
    as (self' & R & _ & P & W & C & L).
  exists self', (lc_start self' (lc_stop self' hw)).
  destruct (lc_start_regs self' (lc_stop self' hw)) as (Hs & _).
  split; [exact R|]. split; [exact P|]. split; [exact Hs|]. split.
  { intros Hm Heq. unfold lc_send_pending_data in Heq.
    destruct (LINK_QUEUE_POP (outgoing_messages (state self))) as [d q].
    inversion Heq as [[H1 H2]].
    destruct (lc_transfer_master d hw Hm) as (_ & Hst).
    rewrite <- H2 in Hst. congruence. }
  split; [exact W|]. rewrite C. simpl. rewrite L. auto.
Qed.

Lemma zero_timeout_always_resets_witness :
  lc_on_timer 2 conn_timeout0 regs_ready = lc_reset 2 conn_timeout0 regs_ready.
Proof.
  refine (proj1 (proj2
    (zero_timeout_always_resets 2 conn_timeout0 regs_ready _ _ _ _ _))).
  - wf_concrete.
  - vm_compute. discriminate.
  - reflexivity.
  - reflexivity.
  - reflexivity.
Defined.

(** C9: from an empty outgoing queue (cursors equal, length field 0) of
    capacity [buffer_size], [buffer_size] calls of [lc_send] with valid
    payloads bring the write cursor back onto the read cursor: the
    emptiness test holds although the length field is [buffer_size], a
    pop returns [LINK_NO_DATA], the transport is handed [LINK_NO_DATA],
    and whatever pushes and pops follow deliver exactly what they would
    have delivered had the values never been sent. *)
Theorem buffer_size_sends_are_lost self vs :
  wf_queue (outgoing_messages (state self)) ->
  cap (outgoing_messages (state self)) = buffer_size self ->
  u16q_empty (outgoing_messages (state self)) = true ->
  len (outgoing_messages (state self)) = 0 ->
  Z.of_nat (length vs) = buffer_size self ->
  Forall payload vs ->
  let q := outgoing_messages (state (lc_sends self vs)) in
  u16q_empty q = true /\
  len q = buffer_size self /\
  LINK_QUEUE_POP q = (LINK_NO_DATA, q) /\
  u16q_contents q = [] /\
  (forall hw,
     snd (lc_send_pending_data (lc_sends self vs) hw) =
     lc_transfer LINK_NO_DATA hw) /\
  (forall ops,
     fst (u16q_run ops q) =
     fst (u16q_run ops (outgoing_messages (state self)))).
Proof.
  intros Hwf Hcap Hem Hlen Hn Hvs q. subst q.
  rewrite lc_sends_outgoing by assumption.
  destruct (u16q_pushes vs _ Hwf) as (W & C & I & J & L); [lia|].
  set (q := fold_left u16q_push vs (outgoing_messages (state self))) in *.
  apply u16q_empty_true in Hem.
  assert (j q = i q) as Hji.
  { rewrite J, I, Hn, <- Hcap, <- Hem.
    rewrite <- (Z.mul_1_l (cap _)) at 1. rewrite Z_mod_plus_full.
    apply Z.mod_small. apply Hwf. }
  assert (u16q_empty q = true) as Hq by (apply u16q_empty_true; congruence).
  split; [exact Hq|]. split.
  { rewrite L, Hlen, Hn. apply u32_small.
    destruct Hwf as (Hc & _). lia. }
  split; [apply LINK_QUEUE_POP_empty; exact Hq|].
  split; [apply u16q_contents_empty; exact Hq|]. split.
  - intros hw. unfold lc_send_pending_data.
    rewrite lc_sends_outgoing by assumption. fold q.
    rewrite (LINK_QUEUE_POP_empty q Hq). reflexivity.
  - intros ops. apply u16q_run_equiv; try assumption.
    split; [exact C|]. split; [exact I|]. split; [congruence|].
    intros k Hk. exfalso. apply (u16q_live_empty q k); congruence.
Qed.

Lemma buffer_size_sends_are_lost_witness :
  u16q_empty (outgoing_messages (state (lc_sends conn_active [1; 2]))) = true
  /\ len (outgoing_messages (state (lc_sends conn_active [1; 2]))) = 2.
Proof.
  assert (wf_queue (outgoing_messages (state conn_active))) as Hwf.
  { vm_compute. repeat first [ split | reflexivity | discriminate ]. }
  assert (Forall payload [1; 2]) as Hvs.
  { repeat constructor; discriminate. }
  destruct (buffer_size_sends_are_lost conn_active [1; 2]
              Hwf eq_refl eq_refl eq_refl eq_refl Hvs) as (E & L & _).
  split; [exact E | exact L].
Defined.

(** C1 (the code departs from it): with capacity 2, [lc_send] of 1, 2
    and 3 leaves an outgoing queue that delivers 3 and then
    [LINK_NO_DATA]; the claim asks for 2 and then 3.  The same holds for
    [u16q_push] on a queue fresh from [u16q_init], whatever the buffer
    held. *)
Theorem lc_send_overflow_keeps_newest_only :
  u16q_contents (outgoing_messages (state (lc_sends conn_active [1; 2; 3])))
    = [3] /\
  u16q_contents (outgoing_messages (state (lc_sends conn_active [1; 2; 3])))
    <> [2; 3] /\
  forall a b,
    fst (u16q_run [QPush 1; QPush 2; QPush 3; QPop; QPop; QPop]
           (u16q_init 2 [a; b])) = [3; LINK_NO_DATA; LINK_NO_DATA].
Proof.
  split; [reflexivity|]. split; [discriminate|]. intros a b. reflexivity.
Qed.

(** ** The watchdog *)

Lemma lc_on_vblank_step self :
  wf_conn self ->
  is_enabled self = true ->
  is_locked (state self) = false ->
  silence (state self) + 1 < 2 ^ 32 ->
  let self' := lc_on_vblank self in
  wf_conn self' /\
  is_enabled self' = true /\
  is_locked (state self') = false /\
  timeout self' = timeout self /\
  buffer_size self' = buffer_size self /\
  silence (state self') = silence (state self) + 1.
Proof.
  destruct self as [s br tmo rt bs iv tid en].
  destruct s as [pc cur inc out tos flag it lock].
  unfold wf_conn, wf_state, silence, lc_on_vblank; simpl.
  intros (Hli & Hinc & Hout & Hlt & Htos & Hit) -> -> Hs. simpl.
  destruct flag; simpl.
  - conjs; auto; try lia; apply Hout.
  - rewrite u32_small by lia. conjs; auto; try lia; apply Hout.
Qed.

Lemma lc_on_vblanks_silence n : forall self,
  wf_conn self ->
  is_enabled self = true ->
  is_locked (state self) = false ->
  silence (state self) + Z.of_nat n < 2 ^ 32 ->
  let self' := lc_on_vblanks n self in
  wf_conn self' /\
  is_enabled self' = true /\
  is_locked (state self') = false /\
  timeout self' = timeout self /\
  buffer_size self' = buffer_size self /\
  silence (state self') = silence (state self) + Z.of_nat n.
Proof.
  unfold lc_on_vblanks.
  induction n as [|n IH]; intros self Hwf He Hl Hs.
  - simpl. conjs; auto; lia.
  - destruct (IH self Hwf He Hl) as (W & E & L & T & B & S); [lia|].
    simpl Nat.iter.
    destruct (lc_on_vblank_step _ W E L) as (W' & E' & L' & T' & B' & S');
      [lia|].
    conjs; auto; try congruence. lia.
Qed.

(** C5 as the claim words it fails: right after a completed exchange
    the activity flag is set, so the first tick only clears it.  With
    the silence timeout 3, three ticks after the exchange leave the
    silence counter at 2, and the pace reaction transmits instead of
    resetting. *)
Lemma silence_timeout_ticks_counterexample :
  wf_conn conn_exchanged /\
  is_enabled conn_exchanged = true /\
  is_locked (state conn_exchanged) = false /\
  timeout conn_exchanged <= Z.of_nat 3 /\
  irq_timeout (state (lc_on_vblanks 3 conn_exchanged)) = 2 /\
  lc_on_timer 2 (lc_on_vblanks 3 conn_exchanged) regs_ready <>
  lc_reset 2 (lc_on_vblanks 3 conn_exchanged) regs_ready /\
  lc_on_timer 2 (lc_on_vblanks 3 conn_exchanged) regs_ready =
  Some (lc_send_pending_data (lc_on_vblanks 3 conn_exchanged) regs_ready).
Proof.
  split; [wf_concrete|].
  conjs; vm_compute; first [ reflexivity | discriminate ].
Qed.

(** C5, amended: for an enabled, unguarded controller, once the ticks
    that found no exchange number at least the silence timeout (one
    tick more than the timeout when the activity flag was set at the
    start, and the 32-bit silence counter not wrapping), the next pace
    reaction performs a full reset and does not transmit. *)
Theorem silence_timeout_forces_reset fuel self hw n :
  wf_conn self -> buffer_size self <= Z.of_nat fuel ->
  is_enabled self = true ->
  is_locked (state self) = false ->
  timeout self + (if irq_flag (state self) then 1 else 0) <= Z.of_nat n ->
  irq_timeout (state self) + Z.of_nat n < 2 ^ 32 ->
  let self1 := lc_on_vblanks n self in
  lc_did_timeout self1 = true /\
  lc_on_timer fuel self1 hw = lc_reset fuel self1 hw /\
  exists self' hw',
    lc_on_timer fuel self1 hw = Some (self', hw') /\
    reset_post (state self') /\
    lc_is_sending hw' = false /\
    (lc_is_master hw = true ->
     (self', hw') <> lc_send_pending_data self1 hw).
Proof.
  intros Hwf Hf He Hl Hn Hw self1.
  destruct (lc_on_vblanks_silence n self Hwf He Hl)
    as (W & E & L & T & B & S).
  { unfold silence. destruct (irq_flag (state self)); lia. }
  fold self1 in W, E, L, T, B, S.
  assert (lc_did_timeout self1 = true) as Hd.
  { unfold lc_did_timeout. apply Z.leb_le. rewrite T.
    unfold silence in S.
    pose proof Hwf as (_ & _ & _ & _ & _ & Hit).
    revert S Hn.
    destruct (irq_flag (state self1)), (irq_flag (state self)); lia. }
  assert (lc_on_timer fuel self1 hw = lc_reset fuel self1 hw) as Eq.
  { unfold lc_on_timer. rewrite E, L, Hd. reflexivity. }
  split; [exact Hd|]. split; [exact Eq|]. rewrite Eq.
  destruct (lc_reset_total fuel self1 hw W) as (self' & R & _ & P & _);
    [lia|].
  exists self', (lc_start self' (lc_stop self' hw)).
  destruct (lc_start_regs self' (lc_stop self' hw)) as (Hs & _).
  split; [exact R|]. split; [exact P|]. split; [exact Hs|].
  intros Hm Heq. unfold lc_send_pending_data in Heq.
  destruct (LINK_QUEUE_POP (outgoing_messages (state self1))) as [d q].
  inversion Heq as [[H1 H2]].
  destruct (lc_transfer_master d hw Hm) as (_ & Hst).
  rewrite <- H2 in Hst. congruence.
Qed.

Lemma silence_timeout_forces_reset_witness :
  lc_on_timer 2 (lc_on_vblanks 4 conn_exchanged) regs_ready =
  lc_reset 2 (lc_on_vblanks 4 conn_exchanged) regs_ready.
Proof.
  refine (proj1 (proj2
    (silence_timeout_forces_reset 2 conn_exchanged regs_ready 4
       _ _ _ _ _ _))).
  - wf_concrete.
  - vm_compute. discriminate.
  - vm_compute. reflexivity.
  - vm_compute. reflexivity.
  - vm_compute. discriminate.
  - vm_compute. reflexivity.
Defined.

(** ** Partial correctness of the reset *)

Lemma LINK_QUEUE_CLEAR_wf fuel : forall q q',
  wf_queue q -> LINK_QUEUE_CLEAR fuel q = Some q' -> wf_queue q'.
Proof.
  induction fuel as [|fuel IH]; intros q q' Hwf; simpl;
    destruct (u16q_empty q) eqn:E; intros H; try congruence.
  eapply IH; [|exact H]. apply wf_queue_LINK_QUEUE_POP. exact Hwf.
Qed.

Lemma LINK_QUEUE_CLEAR_post fuel q q' :
  wf_queue q -> LINK_QUEUE_CLEAR fuel q = Some q' ->
  wf_queue q' /\ cap q' = cap q /\ u16q_empty q' = true.
Proof.
  intros Hwf H. split; [exact (LINK_QUEUE_CLEAR_wf fuel q q' Hwf H)|].
  split; [apply (LINK_QUEUE_CLEAR_frame fuel q q' H)|].
  exact (LINK_QUEUE_CLEAR_empty fuel q q' H).
Qed.

Lemma lc_reset_state_post fuel self self' :
  wf_conn self -> lc_reset_state fuel self = Some self' ->
  reset_post (state self') /\
  wf_conn self' /\
  self' = set_state (state self') self /\
  is_locked (state self') = is_locked (state self).
Proof.
  destruct self as [s br tmo rt bs iv tid en].
  destruct s as [pc cur inc out tos flag it lock].
  unfold wf_conn, wf_state; simpl.
  intros (Hli & Hinc & (Hout & Hoc) & Hlt & Htos & Hit).
  destruct (length_four _ Hli) as (q0 & q1 & q2 & q3 & ->).
  destruct (length_four _ Hlt) as (t0 & t1 & t2 & t3 & ->).
  rewrite !Forall_cons_iff in Hinc.
  destruct Hinc as ((W0 & C0) & (W1 & C1) & (W2 & C2) & (W3 & C3) & _).
  unfold lc_reset_state, lc_reset_state_slot. rewrite slots_eq. simpl.
  unfold incoming; simpl.
  destruct (LINK_QUEUE_CLEAR fuel q0) as [r0|] eqn:E0; [|discriminate]. simpl.
  unfold incoming; simpl.
  destruct (LINK_QUEUE_CLEAR fuel q1) as [r1|] eqn:E1; [|discriminate]. simpl.
  unfold incoming; simpl.
  destruct (LINK_QUEUE_CLEAR fuel q2) as [r2|] eqn:E2; [|discriminate]. simpl.
  unfold incoming; simpl.
  destruct (LINK_QUEUE_CLEAR fuel q3) as [r3|] eqn:E3; [|discriminate]. simpl.
  destruct (LINK_QUEUE_CLEAR fuel out) as [ro|] eqn:Eo; [|discriminate].
  intros H. inversion H; subst self'; clear H.
  destruct (LINK_QUEUE_CLEAR_post _ _ _ W0 E0) as (V0 & D0 & M0).
  destruct (LINK_QUEUE_CLEAR_post _ _ _ W1 E1) as (V1 & D1 & M1).
  destruct (LINK_QUEUE_CLEAR_post _ _ _ W2 E2) as (V2 & D2 & M2).
  destruct (LINK_QUEUE_CLEAR_post _ _ _ W3 E3) as (V3 & D3 & M3).
  destruct (LINK_QUEUE_CLEAR_post _ _ _ Hout Eo) as (Vo & Do & Mo).
  unfold reset_post, wf_conn, wf_state; simpl.
  rewrite !Forall_cons_iff.
  conjs; auto using u16q_contents_empty, Forall_nil_2;
    try reflexivity; try lia.
Qed.

Lemma lc_reset_post fuel self hw self' hw' :
  wf_conn self -> lc_reset fuel self hw = Some (self', hw') ->
  reset_post (state self') /\
  wf_conn self' /\
  self' = set_state (state self') self /\
  is_locked (state self') = is_locked (state self).
Proof.
  intros Hwf. unfold lc_reset.
  destruct (lc_reset_state fuel self) as [c|] eqn:E; [|discriminate].
  intros H. inversion H; subst. eapply lc_reset_state_post; eassumption.
Qed.

(** ** One slot of the scan *)

Lemma int_range x : - 2 ^ 31 <= int x < 2 ^ 31.
Proof.
  unfold int. pose proof (Z.mod_pos_bound (x + 2 ^ 31) (2 ^ 32)). lia.
Qed.

Lemma slot_step_total fuel rt cur k data q t :
  wf_queue q -> cap q <= Z.of_nat fuel ->
  exists r, slot_step fuel rt cur k data q t = Some r.
Proof.
  intros Hwf Hf. unfold slot_step.
  destruct (negb (data =? LINK_DISCONNECTED)); [eauto|].
  destruct (LINK_REMOTE_TIMEOUT_OFFLINE <? t); [|eauto].
  destruct (int rt <=? int (t + 1)); [|eauto].
  destruct (LINK_QUEUE_CLEAR_cap fuel q Hwf Hf) as (q' & E & _).
  rewrite E. eauto.
Qed.

Lemma slot_step_post fuel rt cur k data q t q' t' inc :
  slot_step fuel rt cur k data q t = Some (q', t', inc) ->
  wf_queue q -> -1 <= t < 2 ^ 31 - 1 ->
  wf_queue q' /\ cap q' = cap q /\
  -1 <= t' < 2 ^ 31 - 1 /\
  inc = Z.b2z (LINK_REMOTE_TIMEOUT_OFFLINE <? t') /\
  (u16q_payloads q -> u16q_payloads q').
Proof.
  unfold slot_step, LINK_REMOTE_TIMEOUT_OFFLINE. intros H Hwf Ht.
  destruct (Z.eqb_spec data LINK_DISCONNECTED) as [Hd|Hd]; simpl in H.
  - destruct (Z.ltb_spec (-1) t) as [Hon|Hoff].
    + rewrite (int_small (t + 1)) in H by lia.
      destruct (Z.leb_spec (int rt) (t + 1)) as [Hev|Hgr].
      * destruct (LINK_QUEUE_CLEAR fuel q) as [r|] eqn:E; [|discriminate].
        inversion H; subst.
        destruct (LINK_QUEUE_CLEAR_post _ _ _ Hwf E) as (V & C & M).
        conjs; auto; try lia. intros _. apply u16q_payloads_empty. exact M.
      * inversion H; subst. pose proof (int_range rt).
        conjs; auto; try lia.
        destruct (Z.ltb_spec (-1) (t + 1)); [reflexivity | lia].
    + inversion H; subst. conjs; auto; try lia.
      destruct (Z.ltb_spec (-1) t'); [lia | reflexivity].
  - inversion H; subst; clear H.
    destruct (Z.eqb_spec data LINK_NO_DATA) as [H0|H0]; simpl.
    + conjs; auto; lia.
    + destruct (Z.eqb_spec k cur); simpl.
      * conjs; auto; lia.
      * conjs; auto using wf_queue_push; try lia.
        apply u16q_payloads_push; [exact Hwf | split; assumption].
Qed.

Lemma four_cases k : 0 <= k < 4 -> k = 0 \/ k = 1 \/ k = 2 \/ k = 3.
Proof. lia. Qed.

(** [lc_on_serial_slot] acts on the queue and the counter of its slot
    as [slot_step] says and leaves the rest of the state alone. *)
Lemma lc_on_serial_slot_step fuel rt hw k s n :
  length (incoming_messages s) = 4%nat ->
  length (timeouts s) = 4%nat ->
  0 <= k < 4 ->
  lc_on_serial_slot fuel rt hw k (s, n) =
  match
    slot_step fuel rt (current_player_id s) k
      (REG_SIOMULTI hw !!! Z.to_nat k) (incoming s k) (timeout_of s k)
  with
  | Some (q', t', inc) =>
      Some (set_timeout k t' (set_incoming k q' s), n + inc)
  | None => None
  end.
Proof.
  destruct s as [pc cur inc out tos flag it lock]. simpl.
  intros Hli Hlt Hk.
  destruct (length_four _ Hli) as (q0 & q1 & q2 & q3 & ->).
  destruct (length_four _ Hlt) as (t0 & t1 & t2 & t3 & ->).
  unfold lc_on_serial_slot, slot_step.
  destruct (four_cases k Hk) as [-> | [-> | [-> | ->]]];
    unfold timeout_of, incoming, set_timeout, set_incoming; simpl;
    repeat match goal with
      | |- context [if ?b then _ else _] => destruct b; simpl
      | |- context [match LINK_QUEUE_CLEAR ?f ?q with _ => _ end] =>
          destruct (LINK_QUEUE_CLEAR f q); simpl
      end;
    rewrite ?Z.add_0_r; reflexivity.
Qed.

(** The scan of the four slots, slot by slot. *)
Lemma lc_on_serial_scan fuel rt hw s s' n :
  length (incoming_messages s) = 4%nat ->
  length (timeouts s) = 4%nat ->
  for_each (lc_on_serial_slot fuel rt hw) slots (s, 0) = Some (s', n) ->
  exists q0 t0 c0 q1 t1 c1 q2 t2 c2 q3 t3 c3,
    slot_step_of fuel rt hw s 0 = Some (q0, t0, c0) /\
    slot_step_of fuel rt hw s 1 = Some (q1, t1, c1) /\
    slot_step_of fuel rt hw s 2 = Some (q2, t2, c2) /\
    slot_step_of fuel rt hw s 3 = Some (q3, t3, c3) /\
    s' = set_timeouts [t0; t1; t2; t3]
           (set_incoming_messages [q0; q1; q2; q3] s) /\
    n = c0 + c1 + c2 + c3.
Proof.
  intros Hli Hlt.
  destruct s as [pc cur inc out tos flag it lock]. simpl in Hli, Hlt.
  destruct (length_four _ Hli) as (a0 & a1 & a2 & a3 & ->).
  destruct (length_four _ Hlt) as (b0 & b1 & b2 & b3 & ->).
  rewrite slots_eq. unfold slot_step_of. cbn [for_each].
  rewrite lc_on_serial_slot_step by (simpl; first [reflexivity | lia]).
  unfold incoming, timeout_of. simpl.
  destruct (slot_step fuel rt cur 0 _ a0 b0) as [[[q0 t0] c0]|] eqn:E0;
    [|discriminate].
  rewrite lc_on_serial_slot_step by (simpl; first [reflexivity | lia]).
  unfold incoming, timeout_of. simpl.
  destruct (slot_step fuel rt cur 1 _ a1 b1) as [[[q1 t1] c1]|] eqn:E1;
    [|discriminate].
  rewrite lc_on_serial_slot_step by (simpl; first [reflexivity | lia]).
  unfold incoming, timeout_of. simpl.
  destruct (slot_step fuel rt cur 2 _ a2 b2) as [[[q2 t2] c2]|] eqn:E2;
    [|discriminate].
  rewrite lc_on_serial_slot_step by (simpl; first [reflexivity | lia]).
  unfold incoming, timeout_of. simpl.
  destruct (slot_step fuel rt cur 3 _ a3 b3) as [[[q3 t3] c3]|] eqn:E3;
    [|discriminate].
  intros H. inversion H; subst; clear H.
  exists q0, t0, c0, q1, t1, c1, q2, t2, c2, q3, t3, c3.
  conjs; reflexivity.
Qed.

Lemma lc_on_serial_scan_total fuel rt hw s c :
  wf_state c s -> c <= Z.of_nat fuel ->
  exists r, for_each (lc_on_serial_slot fuel rt hw) slots (s, 0) = Some r.
Proof.
  intros (Hli & Hinc & _ & Hlt & _) Hf.
  destruct s as [pc cur inc out tos flag it lock]. simpl in Hli, Hlt, Hinc.
  destruct (length_four _ Hli) as (a0 & a1 & a2 & a3 & ->).
  destruct (length_four _ Hlt) as (b0 & b1 & b2 & b3 & ->).
  rewrite !Forall_cons_iff in Hinc.
  destruct Hinc as ((W0 & C0) & (W1 & C1) & (W2 & C2) & (W3 & C3) & _).
  rewrite slots_eq. cbn [for_each].
  rewrite lc_on_serial_slot_step by (simpl; first [reflexivity | lia]).
  unfold incoming, timeout_of. simpl.
  match goal with
  | |- context [slot_step fuel rt cur 0 ?d a0 b0] =>
      destruct (slot_step_total fuel rt cur 0 d a0 b0 W0)
        as ([[q0 t0] c0] & ->); [lia|]
  end.
  rewrite lc_on_serial_slot_step by (simpl; first [reflexivity | lia]).
  unfold incoming, timeout_of. simpl.
  match goal with
  | |- context [slot_step fuel rt cur 1 ?d a1 b1] =>
      destruct (slot_step_total fuel rt cur 1 d a1 b1 W1)
        as ([[q1 t1] c1] & ->); [lia|]
  end.
  rewrite lc_on_serial_slot_step by (simpl; first [reflexivity | lia]).
  unfold incoming, timeout_of. simpl.
  match goal with
  | |- context [slot_step fuel rt cur 2 ?d a2 b2] =>
      destruct (slot_step_total fuel rt cur 2 d a2 b2 W2)
        as ([[q2 t2] c2] & ->); [lia|]
  end.
  rewrite lc_on_serial_slot_step by (simpl; first [reflexivity | lia]).
  unfold incoming, timeout_of. simpl.
  match goal with
  | |- context [slot_step fuel rt cur 3 ?d a3 b3] =>
      destruct (slot_step_total fuel rt cur 3 d a3 b3 W3)
        as ([[q3 t3] c3] & ->); [lia|]
  end.
  eauto.
Qed.

(** ** The exchange-complete reaction *)

Lemma lc_on_serial_total fuel self hw :
  wf_conn self -> buffer_size self <= Z.of_nat fuel ->
  exists r, lc_on_serial fuel self hw = Some r.
Proof.
  intros Hwf Hf. unfold lc_on_serial, lc_reset_if_needed.
  destruct (negb (is_enabled self) || is_locked (state self)); [eauto|].
  destruct (negb (lc_is_ready hw) || lc_has_error hw).
  - destruct (lc_reset_total fuel self hw Hwf Hf) as (self' & -> & _). eauto.
  - destruct (lc_on_serial_scan_total fuel (remote_timeout self) hw
                (set_irq_timeout 0 (set_irq_flag true (state self)))
                (buffer_size self)) as ([s2 n] & ->); [|exact Hf|].
    + destruct Hwf as (Hli & Hinc & Hout & Hlt & Htos & Hit).
      unfold wf_state. simpl. conjs; auto; try lia; apply Hout.
    + destruct (negb (lc_is_master hw)); eauto.
Qed.

Lemma lc_on_serial_exchange fuel self hw self' hw' :
  wf_conn self ->
  is_enabled self = true ->
  is_locked (state self) = false ->
  lc_is_ready hw = true ->
  lc_has_error hw = false ->
  lc_on_serial fuel self hw = Some (self', hw') ->
  wf_conn self' /\
  is_enabled self' = true /\
  is_locked (state self') = false /\
  remote_timeout self' = remote_timeout self /\
  buffer_size self' = buffer_size self /\
  timeout self' = timeout self /\
  player_count (state self') = online_count (state self') /\
  irq_flag (state self') = true /\
  irq_timeout (state self') = 0 /\
  (forall k, 0 <= k < 4 ->
     exists inc,
       slot_step_of fuel (remote_timeout self) hw (state self) k =
       Some (incoming (state self') k, timeout_of (state self') k, inc)) /\
  (Forall u16q_payloads (incoming_messages (state self)) ->
   Forall u16q_payloads (incoming_messages (state self'))).
Proof.
  intros Hwf He Hl Hr Herr.
  unfold lc_on_serial, lc_reset_if_needed. rewrite He, Hl, Hr, Herr.
  cbn [negb orb].
  match goal with
  | |- context [for_each ?b slots ?a] =>
      destruct (for_each b slots a) as [[s2 n]|] eqn:E; [|discriminate]
  end.
  pose proof Hwf as (Hli & Hinc & (Hout & Hoc) & Hlt & Htos & Hit).
  apply lc_on_serial_scan in E; [|exact Hli|exact Hlt].
  destruct E as (q0 & t0 & c0 & q1 & t1 & c1 & q2 & t2 & c2 & q3 & t3 & c3
                 & E0 & E1 & E2 & E3 & -> & ->).
  destruct self as [s br tmo rt bs iv tid en].
  destruct s as [pc cur inc out tos flag it lock]. simpl in *.
  destruct (length_four _ Hli) as (a0 & a1 & a2 & a3 & ->).
  destruct (length_four _ Hlt) as (b0 & b1 & b2 & b3 & ->).
  rewrite !Forall_cons_iff in Hinc, Htos.
  destruct Hinc as ((W0 & C0) & (W1 & C1) & (W2 & C2) & (W3 & C3) & _).
  destruct Htos as (B0 & B1 & B2 & B3 & _).
  unfold slot_step_of, incoming, timeout_of in E0, E1, E2, E3. simpl in *.
  destruct (slot_step_post _ _ _ _ _ _ _ _ _ _ E0 W0 B0)
    as (V0 & D0 & R0 & I0 & P0).
  destruct (slot_step_post _ _ _ _ _ _ _ _ _ _ E1 W1 B1)
    as (V1 & D1 & R1 & I1 & P1).
  destruct (slot_step_post _ _ _ _ _ _ _ _ _ _ E2 W2 B2)
    as (V2 & D2 & R2 & I2 & P2).
  destruct (slot_step_post _ _ _ _ _ _ _ _ _ _ E3 W3 B3)
    as (V3 & D3 & R3 & I3 & P3).
  assert (u8 (c0 + c1 + c2 + c3) =
          Z.b2z (LINK_REMOTE_TIMEOUT_OFFLINE <? t0) +
          (Z.b2z (LINK_REMOTE_TIMEOUT_OFFLINE <? t1) +
           (Z.b2z (LINK_REMOTE_TIMEOUT_OFFLINE <? t2) +
            (Z.b2z (LINK_REMOTE_TIMEOUT_OFFLINE <? t3) + 0)))) as Hpc.
  { rewrite <- I0, <- I1, <- I2, <- I3.
    assert (0 <= c0 <= 1 /\ 0 <= c1 <= 1 /\ 0 <= c2 <= 1 /\ 0 <= c3 <= 1)
      as Hc.
    { rewrite I0, I1, I2, I3.
      destruct (_ <? t0), (_ <? t1), (_ <? t2), (_ <? t3); simpl; lia. }
    rewrite u8_small by lia. lia. }
  assert (wf_queue (snd (LINK_QUEUE_POP out)) /\
          cap (snd (LINK_QUEUE_POP out)) = bs) as (Vo & Do).
  { split; [apply wf_queue_LINK_QUEUE_POP; exact Hout|].
    rewrite cap_LINK_QUEUE_POP. exact Hoc. }
  assert (forall k, 0 <= k < 4 ->
            exists c : Z,
              slot_step fuel rt cur k (REG_SIOMULTI hw !!! Z.to_nat k)
                ([a0; a1; a2; a3] !!! Z.to_nat k)
                ([b0; b1; b2; b3] !!! Z.to_nat k) =
              Some ([q0; q1; q2; q3] !!! Z.to_nat k,
                    [t0; t1; t2; t3] !!! Z.to_nat k, c)) as Hslots.
  { intros k Hk.
    destruct (four_cases k Hk) as [-> | [-> | [-> | ->]]]; simpl; eauto. }
  assert (Forall u16q_payloads [a0; a1; a2; a3] ->
          Forall u16q_payloads [q0; q1; q2; q3]) as Hpay.
  { rewrite !Forall_cons_iff. intros (? & ? & ? & ? & _).
    conjs; auto. }
  unfold lc_send_pending_data.
  destruct (negb (lc_is_master hw)); simpl;
    [destruct (LINK_QUEUE_POP out) as [d qo]; simpl in *|];
    intros H; inversion H; subst; clear H;
    unfold wf_conn, wf_state, online_count, online, timeout_of, incoming;
    rewrite ?slots_eq; simpl;
    rewrite !Forall_cons_iff;
    (conjs; auto; try lia; try congruence);
    intros (? & ? & ? & ? & ?); conjs; auto.
Qed.

(** ** Grace period and eviction *)

Lemma slot_step_disconnected fuel rt cur k q t :
  0 <= rt < 2 ^ 31 -> 0 <= t < 2 ^ 31 - 1 ->
  slot_step fuel rt cur k LINK_DISCONNECTED q t =
  if rt <=? t + 1 then
    match LINK_QUEUE_CLEAR fuel q with
    | Some q' => Some (q', LINK_REMOTE_TIMEOUT_OFFLINE, 0)
    | None => None
    end
  else Some (q, t + 1, 1).
Proof.
  intros Hrt Ht. unfold slot_step. simpl.
  rewrite (int_small rt), (int_small (t + 1)) by lia.
  destruct (Z.ltb_spec LINK_REMOTE_TIMEOUT_OFFLINE t) as [_|H];
    [reflexivity|]. unfold LINK_REMOTE_TIMEOUT_OFFLINE in H. lia.
Qed.

Lemma lc_on_serial_disconnected fuel self hw slot :
  wf_conn self -> buffer_size self <= Z.of_nat fuel ->
  is_enabled self = true ->
  is_locked (state self) = false ->
  0 <= slot < 4 ->
  0 <= remote_timeout self < 2 ^ 31 ->
  0 <= timeout_of (state self) slot ->
  reads_disconnected slot hw ->
  exists self' hw',
    lc_on_serial fuel self hw = Some (self', hw') /\
    wf_conn self' /\
    is_enabled self' = true /\
    is_locked (state self') = false /\
    remote_timeout self' = remote_timeout self /\
    buffer_size self' = buffer_size self /\
    (timeout_of (state self) slot + 1 < remote_timeout self ->
     counted self' slot /\
     incoming (state self') slot = incoming (state self) slot /\
     timeout_of (state self') slot = timeout_of (state self) slot + 1) /\
    (remote_timeout self <= timeout_of (state self) slot + 1 ->
     evicted self' slot).
Proof.
  intros Hwf Hf He Hl Hk Hrt Ht (Hr & Herr & Hd).
  destruct (lc_on_serial_total fuel self hw Hwf Hf) as ([self' hw'] & E).
  exists self', hw'. split; [exact E|].
  destruct (lc_on_serial_exchange fuel self hw self' hw' Hwf He Hl Hr Herr E)
    as (W & E' & L' & RT & BS & _ & PC & _ & _ & Hs & _).
  destruct (Hs slot Hk) as (c & Hc). unfold slot_step_of in Hc.
  assert (0 <= timeout_of (state self) slot < 2 ^ 31 - 1) as Ht'.
  { split; [exact Ht|].
    destruct Hwf as (_ & _ & _ & Hlt & Htos & _).
    unfold timeout_of.
    assert (timeouts (state self) !! Z.to_nat slot =
            Some (timeouts (state self) !!! Z.to_nat slot)) as Hlk.
    { apply list_lookup_lookup_total_lt. lia. }
    rewrite Forall_lookup in Htos. apply (Htos _ _ Hlk). }
  rewrite Hd, slot_step_disconnected in Hc by assumption.
  conjs; auto.
  - intros Hg.
    destruct (Z.leb_spec (remote_timeout self)
                (timeout_of (state self) slot + 1)); [lia|].
    inversion Hc as [[Hq Hto]].
    unfold counted, online. rewrite <- Hto.
    conjs; auto.
    unfold LINK_REMOTE_TIMEOUT_OFFLINE. apply Z.ltb_lt. lia.
  - intros Hev.
    destruct (Z.leb_spec (remote_timeout self)
                (timeout_of (state self) slot + 1)); [|lia].
    destruct (LINK_QUEUE_CLEAR fuel (incoming (state self) slot))
      as [q'|] eqn:Eq; [|discriminate].
    inversion Hc as [[Hq Hto]].
    pose proof (LINK_QUEUE_CLEAR_empty _ _ _ Eq) as Hem.
    unfold evicted, online. rewrite <- Hto, <- Hq.
    conjs; auto using u16q_contents_empty.
Qed.

(** C4 as the claim words it fails for a remote timeout of 2^31 or
    more: the code compares the counter with [(int)remote_timeout],
    which is negative there.  With [remote_timeout] = 2^31, a slot that
    was just seen (counter 0, one value queued) and reads
    [LINK_DISCONNECTED] on one exchange, 1 < 2^31, is evicted by that
    exchange: queue cleared, counter offline, not counted. *)
Lemma remote_timeout_grace_counterexample :
  remote_timeout conn_remote_2_31 = 2 ^ 31 /\
  is_enabled conn_remote_2_31 = true /\
  is_locked (state conn_remote_2_31) = false /\
  timeout_of (state conn_remote_2_31) 1 = 0 /\
  u16q_contents (incoming (state conn_remote_2_31) 1) = [7] /\
  reads_disconnected 1 regs_slot_0 /\
  Z.of_nat (length [regs_slot_0]) < remote_timeout conn_remote_2_31 /\
  exists self',
    lc_on_serials 2 conn_remote_2_31 [regs_slot_0] = Some [self'] /\
    player_count (state self') = 1 /\
    online (state self') 1 = false /\
    timeout_of (state self') 1 = LINK_REMOTE_TIMEOUT_OFFLINE /\
    incoming (state self') 1 <> incoming (state conn_remote_2_31) 1 /\
    u16q_contents (incoming (state self') 1) = [].
Proof.
  unfold reads_disconnected.
  do 7 (split; [conjs; vm_compute; first [ reflexivity | discriminate ]|]).
  eexists. split; [vm_compute; reflexivity|].
  conjs; vm_compute; first [ reflexivity | discriminate ].
Qed.

(** C4, amended: with a remote timeout below 2^31, take a slot whose
    timeout counter [t] is not the offline sentinel; the counter is the
    number of consecutive exchanges that read [LINK_DISCONNECTED] for
    the slot so far.  While it stays below [remote_timeout], after each
    further exchange that reads [LINK_DISCONNECTED] the slot is counted
    in [player_count] and its incoming queue is as before; on the
    exchange where the counter reaches exactly [remote_timeout] the
    queue is cleared, the counter is set to the offline sentinel and the
    slot is left out of the new [player_count]. *)
Theorem remote_timeout_grace_then_eviction fuel slot hws : forall self,
  wf_conn self -> buffer_size self <= Z.of_nat fuel ->
  is_enabled self = true ->
  is_locked (state self) = false ->
  0 <= slot < 4 ->
  0 <= remote_timeout self < 2 ^ 31 ->
  0 <= timeout_of (state self) slot ->
  Forall (reads_disconnected slot) hws ->
  timeout_of (state self) slot + Z.of_nat (length hws)
    < remote_timeout self ->
  exists tr,
    lc_on_serials fuel self hws = Some tr /\
    Forall (fun self' =>
              counted self' slot /\
              incoming (state self') slot = incoming (state self) slot) tr /\
    forall hw,
      reads_disconnected slot hw ->
      timeout_of (state self) slot + Z.of_nat (length hws) + 1
        = remote_timeout self ->
      exists self',
        lc_on_serials fuel self (hws ++ [hw]) = Some (tr ++ [self']) /\
        evicted self' slot.
Proof.
  induction hws as [|hw0 hws IH]; intros self Hwf Hf He Hl Hk Hrt Ht Hhws Hlt.
  - exists []. split; [reflexivity|]. split; [constructor|].
    intros hw Hhw Hex. simpl in Hex.
    destruct (lc_on_serial_disconnected fuel self hw slot
                Hwf Hf He Hl Hk Hrt Ht Hhw)
      as (self' & hw' & E & _ & _ & _ & _ & _ & _ & Hev).
    exists self'. simpl. rewrite E. split; [reflexivity|].
    apply Hev. lia.
  - inversion Hhws as [|? ? Hhw0 Hhws']; subst.
    simpl length in Hlt. 
    destruct (lc_on_serial_disconnected fuel self hw0 slot
                Hwf Hf He Hl Hk Hrt Ht Hhw0)
      as (self1 & hw1 & E & W1 & E1 & L1 & RT1 & BS1 & Hgr & _).
    destruct Hgr as (Hc1 & Hq1 & Ht1); [lia|].
    destruct (IH self1 W1) as (tr & Etr & Htr & Hlast).
    { rewrite BS1. exact Hf. }
    { exact E1. }
    { exact L1. }
    { exact Hk. }
    { rewrite RT1. exact Hrt. }
    { rewrite Ht1. lia. }
    { exact Hhws'. }
    { rewrite RT1, Ht1. lia. }
    exists (self1 :: tr). simpl. rewrite E, Etr.
    split; [reflexivity|]. split.
    + constructor; [split; assumption|].
      eapply Forall_impl; [|exact Htr].
      intros c (Hc & Hq). split; [exact Hc | congruence].
    + intros hw Hhw Hex.
      destruct (Hlast hw Hhw) as (self' & El & Hev).
      { rewrite RT1, Ht1. lia. }
      exists self'. rewrite El. split; [reflexivity | exact Hev].
Qed.

Lemma remote_timeout_grace_then_eviction_witness :
  exists tr,
    lc_on_serials 2 conn_slots_0_1 [regs_slot_0; regs_slot_0] = Some tr /\
    Forall (fun self' =>
              counted self' 1 /\
              incoming (state self') 1 = incoming (state conn_slots_0_1) 1)
      tr.
Proof.
  assert (Forall (reads_disconnected 1) [regs_slot_0; regs_slot_0]) as Hhws.
  { repeat constructor; vm_compute; reflexivity. }
  assert (wf_conn conn_slots_0_1) as Hwf by wf_concrete.
  destruct (remote_timeout_grace_then_eviction 2 1
              [regs_slot_0; regs_slot_0] conn_slots_0_1 Hwf)
    as (tr & E & H & _).
  - vm_compute. discriminate.
  - vm_compute. reflexivity.
  - vm_compute. reflexivity.
  - vm_compute. split; [discriminate | reflexivity].
  - vm_compute. split; [discriminate | reflexivity].
  - vm_compute. discriminate.
  - exact Hhws.
  - vm_compute. reflexivity.
  - exists tr. split; assumption.
Defined.

(** ** The invariant of the reachable connections *)

Lemma reset_post_payloads s :
  reset_post s -> Forall u16q_payloads (incoming_messages s).
Proof.
  intros (_ & _ & _ & H & _).
  eapply Forall_impl; [|exact H].
  intros q (He & _). apply u16q_payloads_empty. exact He.
Qed.

Lemma inv_lc_init settings fresh hw :
  valid_settings settings ->
  valid_fresh (settings_buffer_size settings) fresh ->
  inv (fst (lc_init settings fresh hw)).
Proof.
  intros (Hbs & _) Hfr.
  assert (forall k, wf_queue (u16q_init (settings_buffer_size settings)
                                (fresh k))) as Hq.
  { intros k. unfold wf_queue. simpl. rewrite Hfr. lia. }
  unfold inv, wf_conn, wf_state, lc_init, linkstate_init.
  rewrite slots_eq. simpl.
  rewrite !Forall_cons_iff.
  conjs; auto using Forall_nil_2; try lia;
    apply u16q_payloads_empty; reflexivity.
Qed.

Lemma inv_lc_reset_state fuel self self' :
  inv self -> lc_reset_state fuel self = Some self' -> inv self'.
Proof.
  intros (Hwf & _) H.
  destruct (lc_reset_state_post fuel self self' Hwf H) as (P & W & _).
  split; [exact W | apply reset_post_payloads; exact P].
Qed.

Lemma inv_lc_reset fuel self hw self' hw' :
  inv self -> lc_reset fuel self hw = Some (self', hw') -> inv self'.
Proof.
  intros Hinv. unfold lc_reset.
  destruct (lc_reset_state fuel self) as [c|] eqn:E; [|discriminate].
  intros H. inversion H; subst. eapply inv_lc_reset_state; eassumption.
Qed.

Lemma inv_set_is_enabled b self : inv self -> inv (set_is_enabled b self).
Proof. intros H. exact H. Qed.

Lemma inv_lc_activate fuel self hw self' hw' :
  inv self -> lc_activate fuel self hw = Some (self', hw') -> inv self'.
Proof.
  intros Hinv. unfold lc_activate.
  destruct (lc_reset fuel self hw) as [[c h]|] eqn:E; [|discriminate].
  intros H. inversion H; subst.
  apply inv_set_is_enabled. eapply inv_lc_reset; eassumption.
Qed.

Lemma inv_lc_deactivate fuel self hw self' hw' :
  inv self -> lc_deactivate fuel self hw = Some (self', hw') -> inv self'.
Proof.
  intros Hinv. unfold lc_deactivate.
  destruct (lc_reset_state fuel (set_is_enabled false self)) as [c|] eqn:E;
    [|discriminate].
  intros H. inversion H; subst.
  eapply inv_lc_reset_state; [|exact E]. apply inv_set_is_enabled. exact Hinv.
Qed.

Lemma inv_lc_send self data : inv self -> inv (lc_send self data).
Proof.
  intros Hinv. unfold lc_send.
  destruct ((data =? LINK_DISCONNECTED) || (data =? LINK_NO_DATA));
    [exact Hinv|].
  destruct Hinv as ((Hli & Hinc & (Hout & Hoc) & Hlt & Htos & Hit) & Hpay).
  unfold inv, wf_conn, wf_state. simpl.
  conjs; auto; try lia. apply (wf_queue_push _ data Hout).
Qed.

Lemma inv_lc_has_message self player_id b self' :
  inv self -> lc_has_message self player_id = Some (b, self') -> inv self'.
Proof.
  intros Hinv. unfold lc_has_message, linkstate_has_message.
  destruct (player_count (state self) <=? player_id).
  - intros H. inversion H; subst. destruct self as [[] ]. exact Hinv.
  - simpl. destruct (incoming_messages (state self) !! Z.to_nat player_id);
      [|discriminate].
    intros H. inversion H; subst. exact Hinv.
Qed.

Lemma inv_lc_read_message self player_id message self' :
  inv self ->
  lc_read_message self player_id = Some (message, self') -> inv self'.
Proof.
  intros ((Hli & Hinc & Hout & Hlt & Htos & Hit) & Hpay).
  unfold lc_read_message, linkstate_read_message. simpl.
  destruct (incoming_messages (state self) !! Z.to_nat player_id)
    as [q|] eqn:Eq; [|discriminate].
  pose proof (Forall_lookup_1 _ _ _ _ Hinc Eq) as (Wq & Cq).
  pose proof (Forall_lookup_1 _ _ _ _ Hpay Eq) as Pq.
  pose proof (wf_queue_LINK_QUEUE_POP q Wq) as W'.
  pose proof (cap_LINK_QUEUE_POP q) as C'.
  pose proof (u16q_payloads_pop q Wq Pq) as P'.
  destruct (LINK_QUEUE_POP q) as [m q']. simpl in *.
  intros H. inversion H; subst.
  unfold inv, wf_conn, wf_state. simpl. rewrite length_insert.
  conjs; auto; try lia; try apply Hout.
  - apply Forall_insert; [exact Hinc|]. split; [exact W' | congruence].
  - apply Forall_insert; assumption.
Qed.

Lemma inv_lc_on_vblank self : inv self -> inv (lc_on_vblank self).
Proof.
  intros Hinv. unfold lc_on_vblank.
  destruct (negb (is_enabled self) || is_locked (state self));
    [exact Hinv|].
  destruct Hinv as ((Hli & Hinc & (Hout & Hoc) & Hlt & Htos & Hit) & Hpay).
  unfold inv, wf_conn, wf_state.
  destruct (irq_flag (state self)); simpl; conjs; auto;
    try lia; apply u32_range.
Qed.

Lemma inv_lc_send_pending_data self hw :
  inv self -> inv (fst (lc_send_pending_data self hw)).
Proof.
  intros ((Hli & Hinc & (Hout & Hoc) & Hlt & Htos & Hit) & Hpay).
  unfold lc_send_pending_data.
  pose proof (wf_queue_LINK_QUEUE_POP _ Hout) as W'.
  pose proof (cap_LINK_QUEUE_POP (outgoing_messages (state self))) as C'.
  destruct (LINK_QUEUE_POP (outgoing_messages (state self))) as [d q].
  simpl in *. unfold inv, wf_conn, wf_state. simpl.
  conjs; auto; try lia; congruence.
Qed.

Lemma inv_lc_on_timer fuel self hw self' hw' :
  inv self -> lc_on_timer fuel self hw = Some (self', hw') -> inv self'.
Proof.
  intros Hinv. unfold lc_on_timer.
  destruct (negb (is_enabled self) || is_locked (state self)).
  { intros H. inversion H; subst. exact Hinv. }
  destruct (lc_did_timeout self).
  { apply inv_lc_reset. exact Hinv. }
  destruct (lc_is_master hw && lc_is_ready hw && negb (lc_is_sending hw)).
  - intros H. inversion H as [H1].
    pose proof (inv_lc_send_pending_data self hw Hinv) as Hi.
    rewrite H1 in Hi. exact Hi.
  - intros H. inversion H; subst. exact Hinv.
Qed.

Lemma inv_lc_on_serial fuel self hw self' hw' :
  inv self -> lc_on_serial fuel self hw = Some (self', hw') -> inv self'.
Proof.
  intros Hinv H.
  destruct (is_enabled self) eqn:He;
    [|unfold lc_on_serial in H; rewrite He in H; simpl in H;
      inversion H; subst; exact Hinv].
  destruct (is_locked (state self)) eqn:Hl;
    [unfold lc_on_serial in H; rewrite He, Hl in H; simpl in H;
     inversion H; subst; exact Hinv|].
  destruct (negb (lc_is_ready hw) || lc_has_error hw) eqn:Hre.
  - unfold lc_on_serial, lc_reset_if_needed in H.
    rewrite He, Hl, Hre in H. cbn [negb orb] in H.
    destruct (lc_reset fuel self hw) as [[c h]|] eqn:E; [|discriminate].
    inversion H; subst. eapply inv_lc_reset; eassumption.
  - apply orb_false_iff in Hre. destruct Hre as (Hr & Herr).
    apply negb_false_iff in Hr.
    destruct Hinv as (Hwf & Hpay).
    destruct (lc_on_serial_exchange fuel self hw self' hw'
                Hwf He Hl Hr Herr H)
      as (W & _ & _ & _ & _ & _ & _ & _ & _ & _ & P).
    split; [exact W | exact (P Hpay)].
Qed.

Lemma reachable_inv self : reachable self -> inv self.
Proof.
  induction 1;
    eauto using inv_lc_init, inv_lc_activate, inv_lc_deactivate,
      inv_lc_send, inv_lc_has_message, inv_lc_read_message,
      inv_lc_on_vblank, inv_lc_on_timer, inv_lc_on_serial.
Qed.

Lemma reachable_conn_slots_0_2 : reachable conn_slots_0_2.
Proof.
  apply (reach_serial 2 conn_active regs_slots_0_2 conn_slots_0_2
           regs_slots_0_2).
  - apply (reach_activate 2 conn0 regs0 conn_active
             (lc_start conn_active (lc_stop conn_active regs0))).
    + apply (reach_init settings0 fresh0 regs0).
      * unfold valid_settings. simpl. lia.
      * intros k. reflexivity.
    + vm_compute. reflexivity.
  - unfold valid_regs. simpl.
    split; [lia|]. split; [reflexivity|].
    repeat constructor; lia.
  - vm_compute. reflexivity.
Qed.

(** C7: in every reachable connection no incoming queue holds 0x0000 or
    0xFFFF, so [lc_read_message] never returns 0xFFFF and returns 0x0000
    only when the queue it reads is empty. *)
Theorem incoming_queues_hold_payloads self :
  reachable self ->
  (forall k q,
     incoming_messages (state self) !! k = Some q ->
     Forall payload (u16q_contents q)) /\
  (forall player_id message self',
     lc_read_message self player_id = Some (message, self') ->
     message <> LINK_DISCONNECTED /\
     (message = LINK_NO_DATA ->
      exists q,
        incoming_messages (state self) !! Z.to_nat player_id = Some q /\
        u16q_empty q = true)).
Proof.
  intros Hr. destruct (reachable_inv self Hr) as (Hwf & Hpay).
  destruct Hwf as (_ & Hinc & _). split.
  - intros k q Hq.
    pose proof (Forall_lookup_1 _ _ _ _ Hinc Hq) as (Wq & _).
    pose proof (Forall_lookup_1 _ _ _ _ Hpay Hq) as Pq.
    apply u16q_drain_payloads; assumption.
  - intros player_id message self'.
    unfold lc_read_message, linkstate_read_message. simpl.
    destruct (incoming_messages (state self) !! Z.to_nat player_id)
      as [q|] eqn:Hq; [|discriminate].
    pose proof (Forall_lookup_1 _ _ _ _ Hinc Hq) as (Wq & _).
    pose proof (Forall_lookup_1 _ _ _ _ Hpay Hq) as Pq.
    destruct (u16q_empty q) eqn:E.
    + rewrite (LINK_QUEUE_POP_empty q E). intros H. inversion H; subst.
      split; [discriminate|]. intros _. exists q. split; [reflexivity|exact E].
    + pose proof (LINK_QUEUE_POP_payload q Wq Pq E) as (H0 & HF).
      destruct (LINK_QUEUE_POP q) as [m q']. simpl in *.
      intros H. inversion H; subst.
      split; [exact HF|]. intros Hm. contradiction.
Qed.

Lemma incoming_queues_hold_payloads_witness :
  Forall payload (u16q_contents (incoming (state conn_slots_0_2) 2)).
Proof.
  apply (proj1 (incoming_queues_hold_payloads conn_slots_0_2
                  reachable_conn_slots_0_2) 2%nat).
  vm_compute. reflexivity.
Defined.

(** C2 (the code departs from it): the connection reached by an
    exchange in which slots 0 and 2 report has peer count 2, so slot 2
    is out of range; [lc_has_message] answers [false] for it and changes
    nothing, but [lc_read_message] pops the value 7 from its queue. *)
Theorem lc_read_message_out_of_range_pops :
  reachable conn_slots_0_2 /\
  player_count (state conn_slots_0_2) = 2 /\
  lc_has_message conn_slots_0_2 2 = Some (false, conn_slots_0_2) /\
  exists self',
    lc_read_message conn_slots_0_2 2 = Some (7, self') /\
    self' <> conn_slots_0_2 /\
    u16q_contents (incoming (state conn_slots_0_2) 2) = [7] /\
    u16q_contents (incoming (state self') 2) = [].
Proof.
  split; [exact reachable_conn_slots_0_2|].
  split; [vm_compute; reflexivity|]. split; [vm_compute; reflexivity|].
  eexists. split; [vm_compute; reflexivity|].
  split; [vm_compute; discriminate|]. split; vm_compute; reflexivity.
Qed.

(** * Further properties of the code *)

(** ** The ring buffer below its capacity *)

Lemma u16q_pop_push q v : u16q_pop (u16q_push q v) = u16q_push (u16q_pop q) v.
Proof.
  unfold u16q_pop, u16q_push. simpl. f_equal. unfold u32.
  rewrite Zminus_mod_idemp_l, Zplus_mod_idemp_l. f_equal. lia.
Qed.

Lemma u16q_dist_push q v :
  wf_queue q -> u16q_dist q + 1 < cap q ->
  u16q_dist (u16q_push q v) = u16q_dist q + 1.
Proof.
  intros H Hd. pose proof (u16q_push_j q v H) as Hj.
  destruct H as (Hc & Hi & Hj0 & _).
  unfold u16q_dist in *. rewrite Hj. simpl i. simpl cap.
  revert Hd. zcases; lia.
Qed.

Lemma u16q_front_push q v :
  wf_queue q -> i q <> j q -> u16q_front (u16q_push q v) = u16q_front q.
Proof.
  intros (Hc & Hi & Hj & _) Hne. unfold u16q_front.
  change (i (u16q_push q v)) with (i q).
  apply buf_push_other; lia.
Qed.

Lemma u16q_drain_push v n : forall q,
  wf_queue q ->
  u16q_dist q + 1 <= Z.of_nat n ->
  u16q_dist q + 1 < cap q ->
  u16q_drain n (u16q_push q v) = u16q_drain n q ++ [v].
Proof.
  induction n as [|n IH]; intros q Hwf Hn Hc.
  { pose proof (u16q_dist_bounds q Hwf). lia. }
  pose proof (wf_queue_push q v Hwf) as Hwf'.
  assert (u16q_empty (u16q_push q v) = false) as E1.
  { apply u16q_empty_false. intros Heq.
    apply (u16q_dist_zero _ Hwf') in Heq.
    rewrite u16q_dist_push in Heq by assumption.
    pose proof (u16q_dist_bounds q Hwf). lia. }
  cbn [u16q_drain]. rewrite E1.
  rewrite (LINK_QUEUE_POP_nonempty _ E1). cbn [fst snd].
  rewrite u16q_pop_push.
  destruct (u16q_empty q) eqn:E.
  - apply u16q_empty_true in E.
    assert (u16q_empty (u16q_push (u16q_pop q) v) = true) as E2.
    { rewrite <- u16q_pop_push. apply u16q_empty_true.
      rewrite (u16q_pop_i _ Hwf').
      change (j (u16q_pop (u16q_push q v))) with (j (u16q_push q v)).
      change (cap (u16q_push q v)) with (cap q).
      change (i (u16q_push q v)) with (i q).
      rewrite (u16q_push_j q v Hwf), E. reflexivity. }
    rewrite (u16q_drain_empty _ _ E2). simpl.
    unfold u16q_front. change (i (u16q_push q v)) with (i q).
    rewrite E, (buf_push_same q v Hwf). reflexivity.
  - rewrite (LINK_QUEUE_POP_nonempty _ E). cbn [fst snd].
    apply u16q_empty_false in E.
    rewrite (u16q_front_push q v Hwf E).
    rewrite IH; [reflexivity | apply wf_queue_pop; exact Hwf | |].
    + rewrite u16q_dist_pop by assumption. lia.
    + rewrite u16q_dist_pop by assumption. simpl cap. lia.
Qed.

Lemma u16q_contents_push q v :
  wf_queue q -> u16q_dist q + 1 < cap q ->
  u16q_contents (u16q_push q v) = u16q_contents q ++ [v].
Proof.
  intros Hwf Hc. unfold u16q_contents.
  change (cap (u16q_push q v)) with (cap q).
  apply u16q_drain_push; [exact Hwf | lia | exact Hc].
Qed.

Lemma u16q_drain_length n : forall q,
  wf_queue q -> u16q_dist q <= Z.of_nat n ->
  Z.of_nat (length (u16q_drain n q)) = u16q_dist q.
Proof.
  induction n as [|n IH]; intros q Hwf Hn; simpl.
  - pose proof (u16q_dist_bounds q Hwf). lia.
  - destruct (u16q_empty q) eqn:E.
    + apply u16q_empty_true in E. simpl. symmetry.
      apply (u16q_dist_zero q Hwf). exact E.
    + rewrite (LINK_QUEUE_POP_nonempty _ E). cbn [fst snd length].
      apply u16q_empty_false in E.
      rewrite Nat2Z.inj_succ, IH.
      * rewrite u16q_dist_pop by assumption. lia.
      * apply wf_queue_pop. exact Hwf.
      * rewrite u16q_dist_pop by assumption. lia.
Qed.

(** X1: a queue never holds more than [cap - 1] values: the number of
    values it delivers is the distance from the read to the write
    cursor. *)
Theorem u16q_contents_length q :
  wf_queue q ->
  Z.of_nat (length (u16q_contents q)) = u16q_dist q /\
  Z.of_nat (length (u16q_contents q)) <= cap q - 1.
Proof.
  intros Hwf. pose proof (u16q_dist_bounds q Hwf) as Hb.
  assert (Z.of_nat (length (u16q_contents q)) = u16q_dist q) as E.
  { unfold u16q_contents. apply u16q_drain_length; [exact Hwf | lia]. }
  split; [exact E | lia].
Qed.

Lemma u16q_contents_length_witness :
  Z.of_nat (length (u16q_contents (outgoing_messages (state conn_sent7))))
  <= 2 - 1.
Proof.
  assert (wf_queue (outgoing_messages (state conn_sent7))) as Hwf.
  { vm_compute. repeat first [ split | reflexivity | discriminate ]. }
  exact (proj2 (u16q_contents_length _ Hwf)).
Defined.

Lemma u16q_contents_pushes vs : forall q,
  wf_queue q ->
  u16q_dist q + Z.of_nat (length vs) < cap q ->
  u16q_contents (fold_left u16q_push vs q) = u16q_contents q ++ vs.
Proof.
  induction vs as [|v vs IH]; intros q Hwf Hc; simpl.
  - rewrite app_nil_r. reflexivity.
  - simpl length in Hc.
    rewrite IH.
    + rewrite u16q_contents_push by (assumption || lia).
      rewrite <- app_assoc. reflexivity.
    + apply wf_queue_push. exact Hwf.
    + rewrite u16q_dist_push by (assumption || lia). simpl cap. lia.
Qed.

(** X2: while fewer than [cap] values are held in all, the queue is
    first-in first-out: pushing [vs] appends [vs], in order, to what the
    queue delivers. *)
Theorem u16q_fifo_below_capacity vs : forall q,
  wf_queue q ->
  u16q_dist q + Z.of_nat (length vs) < cap q ->
  u16q_contents (fold_left u16q_push vs q) = u16q_contents q ++ vs.
Proof. exact (u16q_contents_pushes vs). Qed.

Lemma u16q_fifo_below_capacity_witness :
  u16q_contents (fold_left u16q_push [1; 2] (u16q_init 3 [0; 0; 0])) =
  u16q_contents (u16q_init 3 [0; 0; 0]) ++ [1; 2].
Proof.
  apply u16q_fifo_below_capacity.
  - vm_compute. repeat first [ split | reflexivity | discriminate ].
  - vm_compute. reflexivity.
Defined.

(** X3: [lc_send] queues payloads in order: as long as the outgoing
    queue holds fewer than [buffer_size] values in all, the values sent
    are appended, in order, to what the outgoing queue delivers. *)
Theorem lc_sends_queue_in_order self vs :
  wf_queue (outgoing_messages (state self)) ->
  Forall payload vs ->
  u16q_dist (outgoing_messages (state self)) + Z.of_nat (length vs)
    < cap (outgoing_messages (state self)) ->
  u16q_contents (outgoing_messages (state (lc_sends self vs))) =
  u16q_contents (outgoing_messages (state self)) ++ vs.
Proof.
  intros Hwf Hvs Hc. rewrite lc_sends_outgoing by assumption.
  apply u16q_contents_pushes; assumption.
Qed.

Lemma lc_sends_queue_in_order_witness :
  u16q_contents (outgoing_messages (state (lc_sends conn_active [9]))) =
  u16q_contents (outgoing_messages (state conn_active)) ++ [9].
Proof.
  apply lc_sends_queue_in_order.
  - vm_compute. repeat first [ split | reflexivity | discriminate ].
  - repeat constructor; discriminate.
  - vm_compute. reflexivity.
Defined.

Lemma u16q_drain_enough n : forall m q,
  wf_queue q ->
  u16q_dist q <= Z.of_nat n -> u16q_dist q <= Z.of_nat m ->
  u16q_drain n q = u16q_drain m q.
Proof.
  induction n as [|n IH]; intros m q Hwf Hn Hm.
  - assert (u16q_empty q = true) as E.
    { apply u16q_empty_true. apply (u16q_dist_zero q Hwf).
      pose proof (u16q_dist_bounds q Hwf). lia. }
    rewrite (u16q_drain_empty m q E). reflexivity.
  - destruct (u16q_empty q) eqn:E.
    + rewrite !u16q_drain_empty by assumption. reflexivity.
    + destruct m as [|m].
      * apply u16q_empty_false in E.
        pose proof (u16q_dist_zero q Hwf). pose proof (u16q_dist_bounds q Hwf).
        lia.
      * simpl. rewrite E. rewrite (LINK_QUEUE_POP_nonempty _ E). cbn [fst snd].
        apply u16q_empty_false in E. f_equal.
        apply IH; [apply wf_queue_pop; exact Hwf | |];
          rewrite u16q_dist_pop by assumption; lia.
Qed.

Lemma u16q_contents_pop q :
  wf_queue q -> u16q_empty q = false ->
  u16q_contents q = u16q_front q :: u16q_contents (u16q_pop q).
Proof.
  intros Hwf E. unfold u16q_contents. change (cap (u16q_pop q)) with (cap q).
  pose proof (u16q_dist_bounds q Hwf) as Hb.
  remember (u16q_drain (Z.to_nat (cap q)) (u16q_pop q)) as r eqn:Hr.
  destruct (Z.to_nat (cap q)) as [|n] eqn:En; [lia|].
  cbn [u16q_drain]. rewrite E. rewrite (LINK_QUEUE_POP_nonempty _ E).
  cbn [fst snd]. f_equal. subst r.
  apply u16q_empty_false in E.
  apply u16q_drain_enough; [apply wf_queue_pop; exact Hwf | |];
    rewrite u16q_dist_pop by assumption; lia.
Qed.

(** X4: the pace reaction transmits the outgoing queue in order: on an
    enabled, unguarded connection below the silence timeout, as many
    pace reactions as the queue holds values, each finding the transport
    master, ready and idle, hand the queued values to the transport one
    by one, oldest first, and leave the queue empty. *)
Theorem pace_reactions_transmit_in_order fuel hws : forall self,
  is_enabled self = true ->
  is_locked (state self) = false ->
  lc_did_timeout self = false ->
  wf_queue (outgoing_messages (state self)) ->
  Forall master_idle hws ->
  length hws = length (u16q_contents (outgoing_messages (state self))) ->
  exists self',
    lc_on_timers fuel self hws =
      Some (u16q_contents (outgoing_messages (state self)), self') /\
    u16q_empty (outgoing_messages (state self')) = true.
Proof.
  induction hws as [|hw hws IH]; intros self He Hl Ht Hwf Hhws Hlen.
  - simpl in Hlen. exists self. simpl.
    destruct (u16q_contents _) eqn:Ec; [|discriminate].
    split; [reflexivity|].
    destruct (u16q_empty (outgoing_messages (state self))) eqn:E;
      [reflexivity|].
    rewrite (u16q_contents_pop _ Hwf E) in Ec. discriminate.
  - inversion Hhws as [|? ? (Hm & Hr & Hs) Hhws']; subst.
    destruct (u16q_empty (outgoing_messages (state self))) eqn:E.
    { rewrite (u16q_contents_empty _ E) in Hlen. discriminate. }
    rewrite (u16q_contents_pop _ Hwf E) in Hlen |- *.
    simpl in Hlen. injection Hlen as Hlen.
    cbn [lc_on_timers]. unfold lc_on_timer.
    rewrite He, Hl, Ht, Hm, Hr, Hs. cbn [negb orb andb].
    unfold lc_send_pending_data.
    rewrite (LINK_QUEUE_POP_nonempty _ E).
    destruct (lc_transfer_master
                (u16q_front (outgoing_messages (state self))) hw Hm)
      as (Hd & _).
    rewrite Hd.
    destruct (IH (set_state
                    (set_outgoing_messages
                       (u16q_pop (outgoing_messages (state self)))
                       (state self)) self))
      as (self' & Er & Hem); try assumption.
    + apply wf_queue_pop. exact Hwf.
    + simpl in Er. simpl. rewrite Er. exists self'.
      split; [reflexivity | exact Hem].
Qed.

Lemma pace_reactions_transmit_in_order_witness :
  exists self',
    lc_on_timers 0 conn_sent7 [regs_ready] = Some ([7], self').
Proof.
  assert (wf_queue (outgoing_messages (state conn_sent7))) as Hwf.
  { vm_compute. repeat first [ split | reflexivity | discriminate ]. }
  assert (Forall master_idle [regs_ready]) as Hhws.
  { repeat constructor; vm_compute; reflexivity. }
  destruct (pace_reactions_transmit_in_order 0 [regs_ready] conn_sent7
              eq_refl eq_refl eq_refl Hwf Hhws eq_refl) as (self' & E & _).
  exists self'. exact E.
Defined.

(** ** The guards of the reactions *)

Lemma lc_reacts_guarded fuel evs : forall self,
  is_enabled self = false \/ is_locked (state self) = true ->
  lc_reacts fuel self evs = Some (self, map snd evs).
Proof.
  induction evs as [|[r hw] evs IH]; intros self Hg; [reflexivity|].
  assert (negb (is_enabled self) || is_locked (state self) = true) as Hb.
  { destruct Hg as [-> | ->]; [reflexivity | apply orb_true_r]. }
  assert (lc_react fuel self r hw = Some (self, hw)) as E.
  { destruct r; simpl.
    - unfold lc_on_vblank. rewrite Hb. reflexivity.
    - unfold lc_on_timer. rewrite Hb. reflexivity.
    - unfold lc_on_serial. rewrite Hb. reflexivity. }
  cbn [lc_reacts]. rewrite E, (IH self Hg). reflexivity.
Qed.

(** X5: a connection that is disabled, or whose reentrancy flag is set,
    ignores its interrupts: whatever reactions run, on whatever register
    files, the connection stays as it is and no register is written. *)
Theorem reactions_skip_when_disabled_or_locked fuel evs : forall self,
  is_enabled self = false \/ is_locked (state self) = true ->
  lc_reacts fuel self evs = Some (self, map snd evs).
Proof. exact (lc_reacts_guarded fuel evs). Qed.

Lemma reactions_skip_when_disabled_or_locked_witness :
  lc_reacts 0 conn0 [(OnSerial, regs_ready); (OnTimer, regs_ready)] =
  Some (conn0, [regs_ready; regs_ready]).
Proof.
  apply (reactions_skip_when_disabled_or_locked 0
           [(OnSerial, regs_ready); (OnTimer, regs_ready)] conn0).
  left. vm_compute. reflexivity.
Defined.

(** X6: [lc_deactivate] disables the connection, clears its state as a
    full reset does and stops the transport without restarting it;
    afterwards the connection reports itself disconnected and no
    interrupt changes it. *)
Theorem lc_deactivate_disconnects fuel self hw :
  wf_conn self -> buffer_size self <= Z.of_nat fuel ->
  exists self',
    lc_deactivate fuel self hw = Some (self', lc_stop self hw) /\
    is_enabled self' = false /\
    lc_is_active self' = false /\
    reset_post (state self') /\
    lc_is_connected self' = false /\
    forall fuel' evs,
      lc_reacts fuel' self' evs = Some (self', map snd evs).
Proof.
  intros Hwf Hf.
  destruct (lc_reset_state_total fuel (set_is_enabled false self) Hwf Hf)
    as (self' & E & P & W & C & L).
  exists self'. unfold lc_deactivate. rewrite E.
  assert (is_enabled self' = false) as He by (rewrite C; reflexivity).
  split.
  { do 2 f_equal. rewrite C. reflexivity. }
  split; [exact He|]. split; [exact He|]. split; [exact P|]. split.
  - destruct P as (Hpc & _). unfold lc_is_connected, linkstate_is_connected.
    rewrite Hpc. reflexivity.
  - intros fuel' evs. apply lc_reacts_guarded.
    left. exact He.
Qed.

Lemma lc_deactivate_disconnects_witness :
  exists self',
    lc_deactivate 2 conn_sent7 regs_ready =
      Some (self', lc_stop conn_sent7 regs_ready) /\
    is_enabled self' = false.
Proof.
  assert (wf_conn conn_sent7) as Hwf by wf_concrete.
  destruct (lc_deactivate_disconnects 2 conn_sent7 regs_ready Hwf)
    as (self' & E & He & _).
  - vm_compute. discriminate.
  - exists self'. split; assumption.
Defined.

(** X7: right after a full reset the public API has nothing to report:
    [lc_is_connected] is false, [lc_has_message] answers [false] for
    every slot and [lc_read_message] returns [LINK_NO_DATA] for each of
    the four slots, all without changing the connection. *)
Theorem full_reset_leaves_nothing_to_read fuel self hw :
  wf_conn self -> buffer_size self <= Z.of_nat fuel ->
  is_locked (state self) = false ->
  exists self' hw',
    lc_reset fuel self hw = Some (self', hw') /\
    lc_is_connected self' = false /\
    (forall player_id,
       0 <= player_id ->
       lc_has_message self' player_id = Some (false, self')) /\
    (forall player_id,
       0 <= player_id < 4 ->
       lc_read_message self' player_id = Some (LINK_NO_DATA, self')).
Proof.
  intros Hwf Hf Hl.
  destruct (lc_reset_total fuel self hw Hwf Hf)
    as (self' & E & _ & P & W & _ & L).
  exists self', (lc_start self' (lc_stop self' hw)).
  split; [exact E|].
  destruct P as (Hpc & _ & Hli & Hem & _).
  rewrite Hl in L.
  destruct self' as [s br tmo rt bs iv tid en].
  destruct s as [pc cur inc out tos flag it lock]. simpl in *. subst pc lock.
  split; [reflexivity|]. split.
  - intros id Hid. unfold lc_has_message, linkstate_has_message. simpl.
    destruct (Z.leb_spec 0 id); [reflexivity | lia].
  - intros id Hid.
    destruct (length_four _ Hli) as (q0 & q1 & q2 & q3 & ->).
    rewrite !Forall_cons_iff in Hem.
    destruct Hem as ((E0 & _) & (E1 & _) & (E2 & _) & (E3 & _) & _).
    unfold lc_read_message, linkstate_read_message, set_incoming. simpl.
    destruct (four_cases id Hid) as [-> | [-> | [-> | ->]]]; simpl;
      rewrite LINK_QUEUE_POP_empty by assumption; reflexivity.
Qed.

Lemma full_reset_leaves_nothing_to_read_witness :
  exists self' hw',
    lc_reset 2 conn_slots_0_2 regs0 = Some (self', hw') /\
    lc_read_message self' 2 = Some (LINK_NO_DATA, self').
Proof.
  assert (wf_conn conn_slots_0_2) as Hwf by wf_concrete.
  destruct (full_reset_leaves_nothing_to_read 2 conn_slots_0_2 regs0 Hwf)
    as (self' & hw' & E & _ & _ & Hr).
  - vm_compute. discriminate.
  - vm_compute. reflexivity.
  - exists self', hw'. split; [exact E|]. apply Hr. lia.
Defined.

(** ** Presence bookkeeping *)

Lemma online_count_bounds s : 0 <= online_count s <= 4.
Proof.
  unfold online_count. rewrite slots_eq. simpl.
  destruct (online s 0), (online s 1), (online s 2), (online s 3);
    simpl; lia.
Qed.

Lemma player_id_bits x :
  0 <= Z.shiftr (Z.land x (Z.shiftl 3 LINK_BITS_PLAYER_ID))
         LINK_BITS_PLAYER_ID <= 3.
Proof.
  unfold LINK_BITS_PLAYER_ID. rewrite Z.shiftr_land.
  change (Z.shiftr (Z.shiftl 3 4) 4) with (Z.ones 2).
  rewrite Z.land_ones by lia.
  pose proof (Z.mod_pos_bound (Z.shiftr x 4) (2 ^ 2)). lia.
Qed.

(** The exchange-complete reaction on an enabled, unguarded connection
    whose transport is ready and reports no error, written out. *)
Lemma lc_on_serial_exchange_eq fuel self hw self' hw' :
  length (incoming_messages (state self)) = 4%nat ->
  length (timeouts (state self)) = 4%nat ->
  is_enabled self = true ->
  is_locked (state self) = false ->
  lc_is_ready hw = true ->
  lc_has_error hw = false ->
  lc_on_serial fuel self hw = Some (self', hw') ->
  exists q0 t0 c0 q1 t1 c1 q2 t2 c2 q3 t3 c3,
    slot_step_of fuel (remote_timeout self) hw (state self) 0
      = Some (q0, t0, c0) /\
    slot_step_of fuel (remote_timeout self) hw (state self) 1
      = Some (q1, t1, c1) /\
    slot_step_of fuel (remote_timeout self) hw (state self) 2
      = Some (q2, t2, c2) /\
    slot_step_of fuel (remote_timeout self) hw (state self) 3
      = Some (q3, t3, c3) /\
    let s3 :=
      set_current_player_id
        (Z.shiftr (Z.land (REG_SIOCNT hw) (Z.shiftl 3 LINK_BITS_PLAYER_ID))
           LINK_BITS_PLAYER_ID)
        (set_player_count (u8 (c0 + c1 + c2 + c3))
           (set_timeouts [t0; t1; t2; t3]
              (set_incoming_messages [q0; q1; q2; q3]
                 (set_irq_timeout 0 (set_irq_flag true (state self)))))) in
    (self', hw') =
    if negb (lc_is_master hw)
    then lc_send_pending_data (set_state s3 self) hw
    else (set_state s3 self, hw).
Proof.
  intros Hli Hlt He Hl Hr Herr.
  unfold lc_on_serial, lc_reset_if_needed. rewrite He, Hl, Hr, Herr.
  cbn [negb orb].
  match goal with
  | |- context [for_each ?b slots ?a] =>
      destruct (for_each b slots a) as [[s2 n]|] eqn:E; [|discriminate]
  end.
  apply lc_on_serial_scan in E; [|exact Hli|exact Hlt].
  destruct E as (q0 & t0 & c0 & q1 & t1 & c1 & q2 & t2 & c2 & q3 & t3 & c3
                 & E0 & E1 & E2 & E3 & -> & ->).
  intros H.
  exists q0, t0, c0, q1, t1, c1, q2, t2, c2, q3, t3, c3.
  split; [exact E0|]. split; [exact E1|]. split; [exact E2|].
  split; [exact E3|].
  cbv zeta. destruct (negb (lc_is_master hw)); inversion H; reflexivity.
Qed.

Lemma slot_step_offline_empty fuel rt cur k data q t q' t' inc :
  slot_step fuel rt cur k data q t = Some (q', t', inc) ->
  -1 <= t < 2 ^ 31 - 1 ->
  ((LINK_REMOTE_TIMEOUT_OFFLINE <? t) = false -> u16q_empty q = true) ->
  (LINK_REMOTE_TIMEOUT_OFFLINE <? t') = false ->
  u16q_empty q' = true.
Proof.
  unfold slot_step, LINK_REMOTE_TIMEOUT_OFFLINE. intros H Ht Hq Hoff.
  destruct (Z.eqb_spec data LINK_DISCONNECTED) as [Hd|Hd]; simpl in H.
  - destruct (Z.ltb_spec (-1) t) as [Hon|Hoff'].
    + rewrite (int_small (t + 1)) in H by lia.
      destruct (Z.leb_spec (int rt) (t + 1)) as [Hev|Hgr].
      * destruct (LINK_QUEUE_CLEAR fuel q) as [r|] eqn:E; [|discriminate].
        inversion H; subst. exact (LINK_QUEUE_CLEAR_empty _ _ _ E).
      * inversion H; subst. apply Z.ltb_ge in Hoff. lia.
    + inversion H; subst. apply Hq. reflexivity.
  - inversion H; subst. discriminate.
Qed.

Lemma inv_presence_reset self self' :
  inv_presence self ->
  reset_post (state self') ->
  is_locked (state self') = is_locked (state self) ->
  inv_presence self'.
Proof.
  intros (Hl & _) (Hpc & Hcur & Hli & Hem & _ & _ & Hto & _) L.
  destruct (length_four _ Hli) as (q0 & q1 & q2 & q3 & Hq).
  presence_unfold. rewrite Hpc, Hcur, Hto, Hq, L in *.
  rewrite !Forall_cons_iff in Hem.
  destruct Hem as ((E0 & _) & (E1 & _) & (E2 & _) & (E3 & _) & _).
  conjs; try lia; try reflexivity; auto.
  intros k Hk _.
  destruct (four_cases k Hk) as [-> | [-> | [-> | ->]]]; assumption.
Qed.

Lemma inv_presence_lc_init settings fresh hw :
  inv_presence (fst (lc_init settings fresh hw)).
Proof.
  unfold lc_init, linkstate_init. presence_unfold. simpl.
  conjs; try lia; try reflexivity; try discriminate.
  intros k Hk.
  destruct (four_cases k Hk) as [-> | [-> | [-> | ->]]]; reflexivity.
Qed.

Lemma inv_presence_lc_reset_state fuel self self' :
  wf_conn self -> inv_presence self ->
  lc_reset_state fuel self = Some self' -> inv_presence self'.
Proof.
  intros Hwf Hp H.
  destruct (lc_reset_state_post fuel self self' Hwf H) as (P & _ & _ & L).
  eapply inv_presence_reset; eassumption.
Qed.

Lemma inv_presence_lc_reset fuel self hw self' hw' :
  wf_conn self -> inv_presence self ->
  lc_reset fuel self hw = Some (self', hw') -> inv_presence self'.
Proof.
  intros Hwf Hp. unfold lc_reset.
  destruct (lc_reset_state fuel self) as [c|] eqn:E; [|discriminate].
  intros H. inversion H; subst.
  eapply inv_presence_lc_reset_state; eassumption.
Qed.

Lemma inv_presence_lc_activate fuel self hw self' hw' :
  wf_conn self -> inv_presence self ->
  lc_activate fuel self hw = Some (self', hw') -> inv_presence self'.
Proof.
  intros Hwf Hp. unfold lc_activate.
  destruct (lc_reset fuel self hw) as [[c h]|] eqn:E; [|discriminate].
  intros H. inversion H; subst.
  pose proof (inv_presence_lc_reset _ _ _ _ _ Hwf Hp E) as Hc.
  destruct (lc_reset_post _ _ _ _ _ Hwf E) as ((Hpc & _ & _ & _ & _ & _ & Hto & _) & _).
  destruct Hc as (L & B & C & _ & Q).
  unfold inv_presence. simpl. conjs; auto; try lia.
  intros _. presence_unfold. rewrite Hpc, Hto. reflexivity.
Qed.

Lemma inv_presence_lc_deactivate fuel self hw self' hw' :
  wf_conn self -> inv_presence self ->
  lc_deactivate fuel self hw = Some (self', hw') -> inv_presence self'.
Proof.
  intros Hwf Hp. unfold lc_deactivate.
  destruct (lc_reset_state fuel (set_is_enabled false self)) as [c|] eqn:E;
    [|discriminate].
  intros H. inversion H; subst.
  eapply (inv_presence_lc_reset_state fuel (set_is_enabled false self));
    [exact Hwf | | exact E].
  destruct Hp as (L & B & C & _ & Q).
  unfold inv_presence. simpl. conjs; auto; try lia.
Qed.

Lemma inv_presence_lc_send self data :
  inv_presence self -> inv_presence (lc_send self data).
Proof.
  intros Hp. unfold lc_send.
  destruct ((data =? LINK_DISCONNECTED) || (data =? LINK_NO_DATA));
    [exact Hp|].
  destruct Hp as (L & B & C & P & Q).
  unfold inv_presence. simpl. conjs; auto; lia.
Qed.

Lemma inv_presence_lc_has_message self player_id b self' :
  inv_presence self ->
  lc_has_message self player_id = Some (b, self') -> inv_presence self'.
Proof.
  intros Hp. unfold lc_has_message, linkstate_has_message.
  destruct (player_count (state self) <=? player_id).
  - intros H. inversion H; subst. destruct self as [[] ]. exact Hp.
  - simpl. destruct (incoming_messages (state self) !! Z.to_nat player_id);
      [|discriminate].
    intros H. inversion H; subst.
    destruct Hp as (L & B & C & P & Q).
    unfold inv_presence. simpl. conjs; auto; lia.
Qed.

Lemma inv_presence_lc_on_vblank self :
  inv_presence self -> inv_presence (lc_on_vblank self).
Proof.
  intros Hp. unfold lc_on_vblank.
  destruct (negb (is_enabled self) || is_locked (state self));
    [exact Hp|].
  destruct Hp as (L & B & C & P & Q).
  unfold inv_presence.
  destruct (irq_flag (state self)); simpl; conjs; auto; lia.
Qed.

Lemma inv_presence_lc_send_pending_data self hw :
  inv_presence self -> inv_presence (fst (lc_send_pending_data self hw)).
Proof.
  intros (L & B & C & P & Q). unfold lc_send_pending_data.
  destruct (LINK_QUEUE_POP (outgoing_messages (state self))) as [d q].
  unfold inv_presence. simpl. conjs; auto; lia.
Qed.

Lemma inv_presence_lc_on_timer fuel self hw self' hw' :
  wf_conn self -> inv_presence self ->
  lc_on_timer fuel self hw = Some (self', hw') -> inv_presence self'.
Proof.
  intros Hwf Hp. unfold lc_on_timer.
  destruct (negb (is_enabled self) || is_locked (state self)).
  { intros H. inversion H; subst. exact Hp. }
  destruct (lc_did_timeout self) eqn:Hd.
  { intros H.
    pose proof (inv_presence_lc_reset _ _ _ _ _ Hwf Hp H) as Hc.
    destruct (lc_reset_post _ _ _ _ _ Hwf H)
      as ((Hpc & _ & _ & _ & _ & _ & Hto & _) & _).
    destruct Hc as (L & B & C & _ & Q).
    unfold inv_presence. conjs; auto; try lia.
    intros _. presence_unfold. rewrite Hpc, Hto. reflexivity. }
  destruct (lc_is_master hw && lc_is_ready hw && negb (lc_is_sending hw)).
  - intros H. inversion H as [H1].
    pose proof (inv_presence_lc_send_pending_data self hw Hp) as Hi.
    rewrite H1 in Hi. exact Hi.
  - intros H. inversion H; subst. exact Hp.
Qed.

Lemma inv_presence_lc_read_message self player_id message self' :
  wf_conn self -> inv_presence self ->
  lc_read_message self player_id = Some (message, self') -> inv_presence self'.
Proof.
  intros (Hli & _) (L & B & C & P & Q).
  unfold lc_read_message, linkstate_read_message, set_incoming. simpl.
  destruct (incoming_messages (state self) !! Z.to_nat player_id)
    as [q|] eqn:Eq; [|discriminate].
  destruct (LINK_QUEUE_POP q) as [m q'] eqn:Ep.
  intros H. inversion H; subst; clear H.
  unfold inv_presence. simpl. conjs; auto; try lia.
  intros k Hk Hoff. specialize (Q k Hk Hoff).
  unfold incoming in *. simpl.
  destruct (Nat.eq_dec (Z.to_nat player_id) (Z.to_nat k)) as [Heq|Hne].
  - rewrite Heq in *.
    rewrite list_lookup_total_insert_eq by (rewrite Hli; lia).
    assert (incoming_messages (state self) !!! Z.to_nat k = q) as Hq.
    { apply list_lookup_total_correct. exact Eq. }
    rewrite Hq in Q. rewrite (LINK_QUEUE_POP_empty q Q) in Ep.
    inversion Ep; subst. exact Q.
  - rewrite list_lookup_total_insert_ne by exact Hne. exact Q.
Qed.

Lemma lc_on_serial_player_id fuel self hw self' hw' :
  wf_conn self ->
  is_enabled self = true ->
  is_locked (state self) = false ->
  lc_is_ready hw = true ->
  lc_has_error hw = false ->
  lc_on_serial fuel self hw = Some (self', hw') ->
  current_player_id (state self') =
  Z.shiftr (Z.land (REG_SIOCNT hw) (Z.shiftl 3 LINK_BITS_PLAYER_ID))
    LINK_BITS_PLAYER_ID.
Proof.
  intros (Hli & _ & _ & Hlt & _) He Hl Hr Herr H.
  destruct (lc_on_serial_exchange_eq fuel self hw self' hw'
              Hli Hlt He Hl Hr Herr H)
    as (q0 & t0 & c0 & q1 & t1 & c1 & q2 & t2 & c2 & q3 & t3 & c3
        & _ & _ & _ & _ & Heq).
  cbv zeta in Heq. unfold lc_send_pending_data in Heq.
  destruct (negb (lc_is_master hw)).
  - cbn [state set_state outgoing_messages set_current_player_id] in Heq.
    destruct (LINK_QUEUE_POP _) as [d q] in Heq.
    inversion Heq; subst. reflexivity.
  - inversion Heq; subst. reflexivity.
Qed.

Lemma inv_presence_lc_on_serial fuel self hw self' hw' :
  wf_conn self -> inv_presence self ->
  lc_on_serial fuel self hw = Some (self', hw') -> inv_presence self'.
Proof.
  intros Hwf Hp H.
  destruct (is_enabled self) eqn:He;
    [|unfold lc_on_serial in H; rewrite He in H; simpl in H;
      inversion H; subst; exact Hp].
  destruct (is_locked (state self)) eqn:Hl;
    [unfold lc_on_serial in H; rewrite He, Hl in H; simpl in H;
     inversion H; subst; exact Hp|].
  destruct (negb (lc_is_ready hw) || lc_has_error hw) eqn:Hre.
  - unfold lc_on_serial, lc_reset_if_needed in H.
    rewrite He, Hl, Hre in H. cbn [negb orb] in H.
    destruct (lc_reset fuel self hw) as [[c h]|] eqn:E; [|discriminate].
    inversion H; subst.
    pose proof (inv_presence_lc_reset _ _ _ _ _ Hwf Hp E) as Hc.
    destruct (lc_reset_post _ _ _ _ _ Hwf E)
      as ((Hpc & _ & _ & _ & _ & _ & Hto & _) & _).
    destruct Hc as (L & B & C & _ & Q).
    unfold inv_presence. conjs; auto; try lia.
    intros _. presence_unfold. rewrite Hpc, Hto. reflexivity.
  - apply orb_false_iff in Hre. destruct Hre as (Hr & Herr).
    apply negb_false_iff in Hr.
    destruct (lc_on_serial_exchange fuel self hw self' hw'
                Hwf He Hl Hr Herr H)
      as (W & _ & L' & _ & _ & _ & PC & _ & _ & Hs & _).
    pose proof (lc_on_serial_player_id fuel self hw self' hw'
                  Hwf He Hl Hr Herr H) as Hid.
    pose proof (player_id_bits (REG_SIOCNT hw)) as Hbits.
    pose proof (online_count_bounds (state self')) as Hoc.
    destruct Hp as (_ & _ & _ & _ & Q).
    unfold inv_presence. conjs; auto; try lia.
    intros k Hk Hoff.
    destruct (Hs k Hk) as (c & Hc). unfold slot_step_of in Hc.
    eapply slot_step_offline_empty; [exact Hc | | | exact Hoff].
    + destruct Hwf as (_ & _ & _ & Hlt & Htos & _).
      unfold timeout_of.
      assert (timeouts (state self) !! Z.to_nat k =
              Some (timeouts (state self) !!! Z.to_nat k)) as Hlk.
      { apply list_lookup_lookup_total_lt. lia. }
      rewrite Forall_lookup in Htos. apply (Htos _ _ Hlk).
    + intros Ho. apply (Q k Hk). exact Ho.
Qed.

Lemma reachable_inv_presence self : reachable self -> inv_presence self.
Proof.
  induction 1 as [ | ? ? ? ? ? Hr | ? ? ? ? ? Hr | ? ? Hr | ? ? ? ? Hr
                 | ? ? ? ? Hr | ? Hr | ? ? ? ? ? Hr | ? ? ? ? ? Hr ];
    try (pose proof (proj1 (reachable_inv _ Hr)) as Hwf);
    eauto using inv_presence_lc_init, inv_presence_lc_activate,
      inv_presence_lc_deactivate, inv_presence_lc_send,
      inv_presence_lc_has_message, inv_presence_lc_read_message,
      inv_presence_lc_on_vblank, inv_presence_lc_on_timer,
      inv_presence_lc_on_serial.
Qed.

(** X8: between two calls of a reachable connection the reentrancy flag
    is clear, the peer count is at most 4 and the local slot id at most
    3, and while the connection is enabled the peer count is exactly the
    number of slots whose timeout counter is not the offline
    sentinel. *)
Theorem reachable_presence self :
  reachable self ->
  is_locked (state self) = false /\
  0 <= player_count (state self) <= 4 /\
  0 <= current_player_id (state self) <= 3 /\
  (is_enabled self = true ->
   player_count (state self) = online_count (state self)).
Proof.
  intros Hr. destruct (reachable_inv_presence self Hr) as (L & B & C & P & _).
  conjs; auto; lia.
Qed.

Lemma reachable_presence_witness :
  player_count (state conn_slots_0_2) = online_count (state conn_slots_0_2).
Proof.
  apply (reachable_presence conn_slots_0_2 reachable_conn_slots_0_2).
  vm_compute. reflexivity.
Defined.

(** X9: in a reachable connection a slot whose timeout counter is the
    offline sentinel has no message left: its incoming queue is empty
    and [lc_read_message] returns [LINK_NO_DATA] for it, changing
    nothing. *)
Theorem offline_slot_has_no_messages self k :
  reachable self ->
  0 <= k < 4 ->
  online (state self) k = false ->
  u16q_empty (incoming (state self) k) = true /\
  u16q_contents (incoming (state self) k) = [] /\
  lc_read_message self k = Some (LINK_NO_DATA, self).
Proof.
  intros Hr Hk Hoff.
  destruct (reachable_inv_presence self Hr) as (L & _ & _ & _ & Q).
  destruct (reachable_inv self Hr) as ((Hli & _) & _).
  specialize (Q k Hk Hoff).
  split; [exact Q|]. split; [apply u16q_contents_empty; exact Q|].
  destruct self as [s br tmo rt bs iv tid en].
  destruct s as [pc cur inc out tos flag it lock]. simpl in *. subst lock.
  destruct (length_four _ Hli) as (q0 & q1 & q2 & q3 & ->).
  unfold lc_read_message, linkstate_read_message, set_incoming, incoming in *.
  simpl.
  destruct (four_cases k Hk) as [-> | [-> | [-> | ->]]]; simpl in *;
    rewrite LINK_QUEUE_POP_empty by assumption; reflexivity.
Qed.

Lemma offline_slot_has_no_messages_witness :
  lc_read_message conn_slots_0_2 1 = Some (LINK_NO_DATA, conn_slots_0_2).
Proof.
  apply (offline_slot_has_no_messages conn_slots_0_2 1
           reachable_conn_slots_0_2).
  - lia.
  - vm_compute. reflexivity.
Defined.



Lemma lc_has_message_read_reachable self player_id :
  reachable self ->
  0 <= player_id ->
  lc_has_message self player_id =
    Some ((player_id <? player_count (state self)) &&
          negb (u16q_empty (incoming (state self) player_id)), self) /\
  (player_id < player_count (state self) ->
   exists message self',
     lc_read_message self player_id = Some (message, self') /\
     (u16q_empty (incoming (state self) player_id) = false ->
      payload message /\
      u16q_contents (incoming (state self) player_id) =
      message :: u16q_contents (incoming (state self') player_id)) /\
     (u16q_empty (incoming (state self) player_id) = true ->
      message = LINK_NO_DATA /\ self' = self)).
Proof.
  intros Hr Hid.
  destruct (reachable_inv_presence self Hr) as (L & B & _).
  destruct (reachable_inv self Hr) as ((Hli & Hinc & _) & Hpay).
  destruct self as [s br tmo rt bs iv tid en].
  destruct s as [pc cur inc out tos flag it lock]. simpl in *. subst lock.
  destruct (length_four _ Hli) as (q0 & q1 & q2 & q3 & ->).
  rewrite !Forall_cons_iff in Hinc, Hpay.
  destruct Hinc as ((W0 & _) & (W1 & _) & (W2 & _) & (W3 & _) & _).
  destruct Hpay as (P0 & P1 & P2 & P3 & _).
  unfold lc_has_message, linkstate_has_message, lc_read_message,
    linkstate_read_message, set_incoming, incoming. simpl.
  destruct (Z.leb_spec pc player_id) as [Hge|Hlt].
  - split; [|lia].
    destruct (Z.ltb_spec player_id pc); [lia|]. reflexivity.
  - destruct (Z.ltb_spec player_id pc); [|lia].
    assert (0 <= player_id < 4) as Hk by lia.
    assert (forall q, wf_queue q -> u16q_payloads q ->
              exists message q',
                LINK_QUEUE_POP q = (message, q') /\
                (u16q_empty q = false ->
                 payload message /\
                 u16q_contents q = message :: u16q_contents q') /\
                (u16q_empty q = true -> message = LINK_NO_DATA /\ q' = q))
      as Hpop.
    { intros q Wq Pq. destruct (u16q_empty q) eqn:E.
      - rewrite (LINK_QUEUE_POP_empty q E). eexists. eexists.
        split; [reflexivity|]. split; [discriminate | auto].
      - pose proof (LINK_QUEUE_POP_payload q Wq Pq E) as Hp.
        rewrite (LINK_QUEUE_POP_nonempty q E) in *. eexists. eexists.
        split; [reflexivity|]. split; [|discriminate].
        intros _. split; [exact Hp|]. apply u16q_contents_pop; assumption. }
    destruct (four_cases player_id Hk) as [-> | [-> | [-> | ->]]]; simpl;
      (split; [reflexivity|]); intros _;
      match goal with
      | |- context [LINK_QUEUE_POP ?q] =>
          let m := fresh "m" in
          let q' := fresh "q'" in
          let E := fresh "E" in
          let Hn := fresh "Hn" in
          let He := fresh "He" in
          destruct (Hpop q) as (m & q' & E & Hn & He);
            [assumption | assumption |];
          rewrite E; exists m; eexists; split; [reflexivity|]; simpl;
          split; [exact Hn|];
          intros Hem; destruct (He Hem) as (-> & ->); split; reflexivity
      end.
Qed.

(** X11: in a reachable connection [lc_has_message] is a query: for any
    slot id it answers without changing the connection, [true] exactly
    when the id is below the peer count and the slot's queue is not
    empty.  For an id below the peer count [lc_read_message] then
    removes and returns the oldest value of the queue, a payload, or
    returns [LINK_NO_DATA] and changes nothing when the queue is
    empty. *)
Theorem lc_has_message_then_read self player_id :
  reachable self ->
  0 <= player_id ->
  lc_has_message self player_id =
    Some ((player_id <? player_count (state self)) &&
          negb (u16q_empty (incoming (state self) player_id)), self) /\
  (player_id < player_count (state self) ->
   exists message self',
     lc_read_message self player_id = Some (message, self') /\
     (u16q_empty (incoming (state self) player_id) = false ->
      payload message /\
      u16q_contents (incoming (state self) player_id) =
      message :: u16q_contents (incoming (state self') player_id)) /\
     (u16q_empty (incoming (state self) player_id) = true ->
      message = LINK_NO_DATA /\ self' = self)).
Proof. exact (lc_has_message_read_reachable self player_id). Qed.

Lemma lc_has_message_then_read_witness :
  lc_has_message conn_slots_0_1 1 = Some (true, conn_slots_0_1).
Proof.
  assert (reachable conn_slots_0_1) as Hr.
  { apply (reach_serial 2 conn_active regs_slots_0_1 conn_slots_0_1
             regs_slots_0_1).
    - apply (reach_activate 2 conn0 regs0 conn_active
               (lc_start conn_active (lc_stop conn_active regs0))).
      + apply (reach_init settings0 fresh0 regs0).
        * unfold valid_settings. simpl. lia.
        * intros k. reflexivity.
      + vm_compute. reflexivity.
    - unfold valid_regs. simpl.
      split; [lia|]. split; [reflexivity|].
      repeat constructor; lia.
    - vm_compute. reflexivity. }
  assert (0 <= 1) as H01 by lia.
  exact (proj1 (lc_has_message_then_read conn_slots_0_1 1 Hr H01)).
Defined.

(** ** What an exchange delivers *)

(** X12: a completed exchange (enabled, unguarded, transport ready, no
    error) treats the value [data] read for slot [k] as follows.  If it
    is not [LINK_DISCONNECTED] the slot's timeout counter becomes 0.  If
    it is a payload and [k] is not the local slot id recorded by the
    previous exchange (0 after a reset), it is pushed onto the slot's
    incoming queue, and is delivered after the values already queued
    while the queue has room.  If it is [LINK_NO_DATA], or [k] is that
    local slot id, the queue is left as it is. *)
Theorem exchange_delivers_payloads fuel self hw k :
  wf_conn self -> buffer_size self <= Z.of_nat fuel ->
  is_enabled self = true ->
  is_locked (state self) = false ->
  lc_is_ready hw = true ->
  lc_has_error hw = false ->
  0 <= k < 4 ->
  let data := REG_SIOMULTI hw !!! Z.to_nat k in
  exists self' hw',
    lc_on_serial fuel self hw = Some (self', hw') /\
    (data <> LINK_DISCONNECTED ->
     timeout_of (state self') k = 0 /\ online (state self') k = true) /\
    (payload data -> k <> current_player_id (state self) ->
     incoming (state self') k = u16q_push (incoming (state self) k) data /\
     (u16q_dist (incoming (state self) k) + 1 < buffer_size self ->
      u16q_contents (incoming (state self') k) =
      u16q_contents (incoming (state self) k) ++ [data])) /\
    (data = LINK_NO_DATA \/ k = current_player_id (state self) ->
     data <> LINK_DISCONNECTED ->
     incoming (state self') k = incoming (state self) k).
Proof.
  intros Hwf Hf He Hl Hr Herr Hk data.
  destruct (lc_on_serial_total fuel self hw Hwf Hf) as ([self' hw'] & E).
  exists self', hw'. split; [exact E|].
  destruct (lc_on_serial_exchange fuel self hw self' hw' Hwf He Hl Hr Herr E)
    as (_ & _ & _ & _ & _ & _ & _ & _ & _ & Hs & _).
  destruct (Hs k Hk) as (c & Hc). unfold slot_step_of, slot_step in Hc.
  fold data in Hc.
  assert (wf_queue (incoming (state self) k) /\
          cap (incoming (state self) k) = buffer_size self) as (Wq & Cq).
  { destruct Hwf as (Hli & Hinc & _). unfold incoming.
    assert (incoming_messages (state self) !! Z.to_nat k =
            Some (incoming_messages (state self) !!! Z.to_nat k)) as Hlk.
    { apply list_lookup_lookup_total_lt. lia. }
    rewrite Forall_lookup in Hinc. apply (Hinc _ _ Hlk). }
  split; [|split].
  - intros Hd. destruct (Z.eqb_spec data LINK_DISCONNECTED); [contradiction|].
    simpl in Hc. inversion Hc as [[Hq Ht Hc']].
    unfold online. rewrite <- Ht. split; reflexivity.
  - intros (H0 & HF) Hcur.
    destruct (Z.eqb_spec data LINK_DISCONNECTED); [contradiction|].
    destruct (Z.eqb_spec data LINK_NO_DATA); [contradiction|].
    destruct (Z.eqb_spec k (current_player_id (state self)));
      [contradiction|].
    simpl in Hc. inversion Hc as [[Hq Ht Hc']].
    split; [reflexivity|]. intros Hroom.
    apply u16q_contents_push; [exact Wq | lia].
  - intros Hor Hd.
    destruct (Z.eqb_spec data LINK_DISCONNECTED); [contradiction|].
    simpl in Hc.
    destruct (Z.eqb_spec data LINK_NO_DATA);
      [simpl in Hc; inversion Hc; reflexivity|].
    destruct (Z.eqb_spec k (current_player_id (state self)));
      [simpl in Hc; inversion Hc; reflexivity|].
    destruct Hor; contradiction.
Qed.

Lemma exchange_delivers_payloads_witness :
  exists self' hw',
    lc_on_serial 2 conn_active regs_slots_0_2 = Some (self', hw') /\
    incoming (state self') 2 = u16q_push (incoming (state conn_active) 2) 7.
Proof.
  assert (wf_conn conn_active) as Hwf by wf_concrete.
  assert (buffer_size conn_active <= Z.of_nat 2) as Hf.
  { vm_compute. discriminate. }
  assert (0 <= 2 < 4) as Hk by lia.
  destruct (exchange_delivers_payloads 2 conn_active regs_slots_0_2 2
              Hwf Hf eq_refl eq_refl eq_refl eq_refl Hk)
    as (self' & hw' & E & _ & Hp & _).
  exists self', hw'. split; [exact E|].
  apply Hp.
  - split; discriminate.
  - vm_compute. discriminate.
Defined.

(** What the exchange-complete reaction, when it returns, has done with
    the outgoing queue and the registers. *)
Lemma lc_on_serial_reply fuel self hw self' hw' :
  wf_conn self ->
  is_enabled self = true ->
  is_locked (state self) = false ->
  lc_is_ready hw = true ->
  lc_has_error hw = false ->
  lc_on_serial fuel self hw = Some (self', hw') ->
  (lc_is_master hw = false ->
   hw' = set_REG_SIOMLT_SEND
           (fst (LINK_QUEUE_POP (outgoing_messages (state self)))) hw /\
   outgoing_messages (state self') =
   snd (LINK_QUEUE_POP (outgoing_messages (state self)))) /\
  (lc_is_master hw = true ->
   hw' = hw /\
   outgoing_messages (state self') = outgoing_messages (state self)).
Proof.
  intros (Hli & _ & _ & Hlt & _) He Hl Hr Herr H.
  destruct (lc_on_serial_exchange_eq fuel self hw self' hw'
              Hli Hlt He Hl Hr Herr H)
    as (q0 & t0 & c0 & q1 & t1 & c1 & q2 & t2 & c2 & q3 & t3 & c3
        & _ & _ & _ & _ & Heq).
  cbv zeta in Heq. unfold lc_send_pending_data in Heq.
  cbn [state set_state outgoing_messages set_current_player_id
       set_player_count set_timeouts set_incoming_messages
       set_irq_timeout set_irq_flag] in Heq.
  split; intros Hm; rewrite Hm in Heq; cbn [negb] in Heq.
  - destruct (LINK_QUEUE_POP (outgoing_messages (state self))) as [d q].
    inversion Heq; subst. split; [|reflexivity].
    unfold lc_transfer.
    replace (lc_is_master (set_REG_SIOMLT_SEND d hw)) with false
      by (symmetry; exact Hm).
    reflexivity.
  - inversion Heq; subst. split; reflexivity.
Qed.

(** X13: a completed exchange (enabled, unguarded, transport ready, no
    error) returns, and at its end a slave answers at once: it pops the
    outgoing queue ([LINK_NO_DATA] if empty) and writes the value to
    [REG_SIOMLT_SEND] without touching [REG_SIOCNT]; a master writes no
    register and leaves its outgoing queue alone. *)
Theorem exchange_reply fuel self hw :
  wf_conn self -> buffer_size self <= Z.of_nat fuel ->
  is_enabled self = true ->
  is_locked (state self) = false ->
  lc_is_ready hw = true ->
  lc_has_error hw = false ->
  exists self' hw',
    lc_on_serial fuel self hw = Some (self', hw') /\
    (lc_is_master hw = false ->
     hw' = set_REG_SIOMLT_SEND
             (fst (LINK_QUEUE_POP (outgoing_messages (state self)))) hw /\
     outgoing_messages (state self') =
     snd (LINK_QUEUE_POP (outgoing_messages (state self)))) /\
    (lc_is_master hw = true ->
     hw' = hw /\
     outgoing_messages (state self') = outgoing_messages (state self)).
Proof.
  intros Hwf Hf He Hl Hr Herr.
  destruct (lc_on_serial_total fuel self hw Hwf Hf) as ([self' hw'] & E).
  exists self', hw'. split; [exact E|].
  exact (lc_on_serial_reply fuel self hw self' hw' Hwf He Hl Hr Herr E).
Qed.

Lemma exchange_reply_witness :
  exists self' hw',
    lc_on_serial 2 conn_sent7 regs_slave_ready = Some (self', hw') /\
    REG_SIOMLT_SEND hw' = 7 /\
    REG_SIOCNT hw' = 12 /\
    u16q_empty (outgoing_messages (state self')) = true.
Proof.
  assert (wf_conn conn_sent7) as Hwf by wf_concrete.
  assert (buffer_size conn_sent7 <= Z.of_nat 2) as Hf.
  { vm_compute. discriminate. }
  assert (lc_is_master regs_slave_ready = false) as Hm.
  { vm_compute. reflexivity. }
  destruct (exchange_reply 2 conn_sent7 regs_slave_ready
              Hwf Hf eq_refl eq_refl eq_refl eq_refl)
    as (self' & hw' & E & Hs & _).
  destruct (Hs Hm) as (Hhw & Hout).
  exists self', hw'. split; [exact E|].
  rewrite Hhw, Hout. vm_compute. repeat split.
Defined.

(** ** The watchdog after an exchange *)

Lemma lc_on_vblank_flag self :
  is_enabled self = true ->
  is_locked (state self) = false ->
  irq_flag (state (lc_on_vblank self)) = false.
Proof.
  intros He Hl. unfold lc_on_vblank. rewrite He, Hl. reflexivity.
Qed.

(** X14: a completed exchange postpones the watchdog: it leaves the
    silence counter at 0 with the activity flag set, so after [n]
    further ticks the counter is [n - 1] (0 for no tick), and the pace
    reaction finds the silence timeout reached exactly when
    [timeout <= max 0 (n - 1)]: with a positive timeout, not before
    [timeout + 1] ticks have run. *)
Theorem exchange_postpones_watchdog fuel self hw n :
  wf_conn self -> buffer_size self <= Z.of_nat fuel ->
  is_enabled self = true ->
  is_locked (state self) = false ->
  lc_is_ready hw = true ->
  lc_has_error hw = false ->
  Z.of_nat n < 2 ^ 32 ->
  exists self' hw',
    lc_on_serial fuel self hw = Some (self', hw') /\
    irq_flag (state self') = true /\
    irq_timeout (state self') = 0 /\
    irq_timeout (state (lc_on_vblanks n self')) = Z.max 0 (Z.of_nat n - 1) /\
    lc_did_timeout (lc_on_vblanks n self') =
      (timeout self <=? Z.max 0 (Z.of_nat n - 1)).
Proof.
  intros Hwf Hf He Hl Hr Herr Hn.
  destruct (lc_on_serial_total fuel self hw Hwf Hf) as ([self' hw'] & E).
  exists self', hw'. split; [exact E|].
  destruct (lc_on_serial_exchange fuel self hw self' hw' Hwf He Hl Hr Herr E)
    as (W & E' & L' & _ & _ & T & _ & Hfl & Hit & _).
  split; [exact Hfl|]. split; [exact Hit|].
  assert (irq_timeout (state (lc_on_vblanks n self')) =
          Z.max 0 (Z.of_nat n - 1)) as Hc.
  { destruct n as [|n].
    - simpl. exact Hit.
    - destruct (lc_on_vblanks_silence n self' W E' L')
        as (Wn & En & Ln & _ & _ & Sn).
      { unfold silence. rewrite Hfl, Hit. lia. }
      destruct (lc_on_vblank_step _ Wn En Ln) as (_ & _ & _ & _ & _ & S1).
      { rewrite Sn. unfold silence. rewrite Hfl, Hit. lia. }
      pose proof (lc_on_vblank_flag _ En Ln) as Hf1.
      change (lc_on_vblanks (S n) self')
        with (lc_on_vblank (lc_on_vblanks n self')).
      unfold silence in S1, Sn. rewrite Hf1, Sn in S1.
      rewrite Hfl, Hit in S1. lia. }
  split; [exact Hc|].
  unfold lc_did_timeout. rewrite Hc.
  destruct (lc_on_vblanks_silence n self' W E' L') as (_ & _ & _ & Tn & _).
  { unfold silence. rewrite Hfl, Hit. lia. }
  rewrite Tn, T. reflexivity.
Qed.

Lemma exchange_postpones_watchdog_witness :
  exists self' hw',
    lc_on_serial 2 conn_active regs_ready = Some (self', hw') /\
    lc_did_timeout (lc_on_vblanks 3 self') = false.
Proof.
  assert (wf_conn conn_active) as Hwf by wf_concrete.
  assert (buffer_size conn_active <= Z.of_nat 2) as Hf.
  { vm_compute. discriminate. }
  assert (Z.of_nat 3 < 2 ^ 32) as Hn by reflexivity.
  destruct (exchange_postpones_watchdog 2 conn_active regs_ready 3
              Hwf Hf eq_refl eq_refl eq_refl eq_refl Hn)
    as (self' & hw' & E & _ & _ & _ & Hd).
  exists self', hw'. split; [exact E|]. rewrite Hd. reflexivity.
Defined.

(** ** The registers *)

Lemma LINK_SET_LOW_bits reg bit b :
  0 <= bit -> 0 <= b < 16 ->
  Z.testbit (LINK_SET_LOW reg bit) b =
  if b =? bit then false else Z.testbit reg b.
Proof.
  intros Hbit Hb. unfold LINK_SET_LOW, u16.
  rewrite Z.mod_pow2_bits_low by lia.
  rewrite Z.land_spec, Z.lnot_spec by lia.
  rewrite Z.shiftl_1_l, Z.pow2_bits_eqb by lia.
  rewrite (Z.eqb_sym bit b).
  destruct (b =? bit); simpl; [apply andb_false_r | apply andb_true_r].
Qed.

Lemma LINK_SET_HIGH_bits reg bit b :
  0 <= bit -> 0 <= b < 16 ->
  Z.testbit (LINK_SET_HIGH reg bit) b =
  if b =? bit then true else Z.testbit reg b.
Proof.
  intros Hbit Hb. unfold LINK_SET_HIGH, u16.
  rewrite Z.mod_pow2_bits_low by lia.
  rewrite Z.lor_spec.
  rewrite Z.shiftl_1_l, Z.pow2_bits_eqb by lia.
  rewrite (Z.eqb_sym bit b).
  destruct (b =? bit); simpl; [apply orb_true_r | apply orb_false_r].
Qed.

Lemma timer_enable_cleared cnt b :
  0 <= b < 16 ->
  Z.testbit (u16 (Z.land cnt (Z.lnot TM_ENABLE))) b =
  if b =? 7 then false else Z.testbit cnt b.
Proof.
  intros Hb. unfold u16.
  rewrite Z.mod_pow2_bits_low by lia.
  rewrite Z.land_spec, Z.lnot_spec by lia.
  change TM_ENABLE with (2 ^ 7).
  rewrite Z.pow2_bits_eqb by lia. rewrite (Z.eqb_sym 7 b).
  destruct (b =? 7); simpl; [apply andb_false_r | apply andb_true_r].
Qed.

(** X15: [lc_stop] (the last step of [lc_init] and of [lc_deactivate])
    clears the enable bit of the pacing timer and keeps its other bits
    and its reload value, clears bit 14 and sets bit 15 of [REG_RCNT],
    and touches neither the other timers nor the serial registers. *)
Theorem lc_stop_registers self hw :
  0 <= send_timer_id self < 4 ->
  length (REG_TM hw) = 4%nat ->
  let hw' := lc_stop self hw in
  let t := REG_TM hw !!! Z.to_nat (send_timer_id self) in
  let t' := REG_TM hw' !!! Z.to_nat (send_timer_id self) in
  tm_start t' = tm_start t /\
  (forall b, 0 <= b < 16 ->
     Z.testbit (tm_cnt t') b = if b =? 7 then false else Z.testbit (tm_cnt t) b) /\
  (forall n, n <> Z.to_nat (send_timer_id self) ->
     REG_TM hw' !!! n = REG_TM hw !!! n) /\
  (forall b, 0 <= b < 16 ->
     Z.testbit (REG_RCNT hw') b =
     if b =? 15 then true
     else if b =? 14 then false
     else Z.testbit (REG_RCNT hw) b) /\
  REG_SIOCNT hw' = REG_SIOCNT hw /\
  REG_SIOMLT_SEND hw' = REG_SIOMLT_SEND hw /\
  REG_SIOMULTI hw' = REG_SIOMULTI hw.
Proof.
  intros Hid Hlen hw' t t'. subst hw' t t'.
  unfold lc_stop, lc_stop_timer. simpl.
  rewrite list_lookup_total_insert_eq by lia. simpl.
  conjs; try reflexivity.
  - intros b Hb. apply timer_enable_cleared. exact Hb.
  - intros n Hn. apply list_lookup_total_insert_ne. lia.
  - intros b Hb.
    unfold LINK_BIT_GENERAL_PURPOSE_HIGH, LINK_BIT_GENERAL_PURPOSE_LOW.
    rewrite LINK_SET_HIGH_bits by lia.
    destruct (b =? 15); [reflexivity|].
    apply LINK_SET_LOW_bits; lia.
Qed.

Lemma lc_stop_registers_witness :
  Z.testbit (REG_RCNT (lc_stop conn0 regs_ready)) 15 = true.
Proof.
  assert (0 <= send_timer_id conn0 < 4) as Hid.
  { vm_compute. split; [discriminate | reflexivity]. }
  assert (0 <= 15 < 16) as Hb by lia.
  exact (proj1 (proj2 (proj2 (proj2
           (lc_stop_registers conn0 regs_ready Hid eq_refl)))) 15 Hb).
Defined.

Lemma u16_u32 x : u16 (u32 x) = u16 x.
Proof.
  unfold u16, u32. apply Z.mod_mod_divide.
  exists (2 ^ 16). reflexivity.
Qed.

(** X16: a full reset programs the transport whatever the registers
    held: [REG_SIOCNT] is the baud rate with the multiplayer and IRQ
    bits set (so no transfer is started), [REG_SIOMLT_SEND] is 0, the
    pacing timer is enabled at 1024 cycles with its IRQ and reloads
    [-interval] (as a 16-bit value), bits 14 and 15 of [REG_RCNT] are
    clear, and the other timers and the receive registers are left
    alone. *)
Theorem full_reset_programs_transport fuel self hw :
  wf_conn self -> buffer_size self <= Z.of_nat fuel ->
  0 <= send_timer_id self < 4 ->
  length (REG_TM hw) = 4%nat ->
  exists self' hw',
    lc_reset fuel self hw = Some (self', hw') /\
    REG_SIOCNT hw' = BaudRate_value (baud_rate self) + 0x6000 /\
    REG_SIOMLT_SEND hw' = 0 /\
    REG_TM hw' !!! Z.to_nat (send_timer_id self) =
      mkTMR_REC ((- interval self) mod 2 ^ 16) 0xC3 /\
    (forall n, n <> Z.to_nat (send_timer_id self) ->
       REG_TM hw' !!! n = REG_TM hw !!! n) /\
    (forall b, 0 <= b < 16 ->
       Z.testbit (REG_RCNT hw') b =
       if (b =? 15) || (b =? 14) then false else Z.testbit (REG_RCNT hw) b) /\
    REG_SIOMULTI hw' = REG_SIOMULTI hw.
Proof.
  intros Hwf Hf Hid Hlen.
  destruct (lc_reset_total fuel self hw Hwf Hf)
    as (self' & E & _ & _ & _ & C & _).
  exists self', (lc_start self' (lc_stop self' hw)).
  split; [exact E|].
  assert (send_timer_id self' = send_timer_id self) as Ht
    by (rewrite C; reflexivity).
  assert (interval self' = interval self) as Hi by (rewrite C; reflexivity).
  assert (baud_rate self' = baud_rate self) as Hb by (rewrite C; reflexivity).
  unfold lc_start, lc_start_timer, setBitHigh. simpl.
  rewrite Ht, Hi, Hb in *.
  conjs.
  - destruct (baud_rate self); reflexivity.
  - reflexivity.
  - rewrite list_lookup_total_insert_eq.
    + rewrite u16_u32. reflexivity.
    + unfold lc_stop, lc_stop_timer. simpl. rewrite length_insert. lia.
  - intros n Hn. rewrite !list_lookup_total_insert_ne by lia. reflexivity.
  - intros b Hb'.
    unfold LINK_BIT_GENERAL_PURPOSE_HIGH, LINK_BIT_GENERAL_PURPOSE_LOW.
    rewrite LINK_SET_LOW_bits, LINK_SET_HIGH_bits, LINK_SET_LOW_bits by lia.
    destruct (b =? 15), (b =? 14); reflexivity.
  - reflexivity.
Qed.

Lemma full_reset_programs_transport_witness :
  exists self' hw',
    lc_reset 2 conn0 regs_ready = Some (self', hw') /\
    REG_SIOCNT hw' = BaudRate_value (baud_rate conn0) + 0x6000.
Proof.
  assert (wf_conn conn0) as Hwf by wf_concrete.
  assert (buffer_size conn0 <= Z.of_nat 2) as Hf.
  { vm_compute. discriminate. }
  assert (0 <= send_timer_id conn0 < 4) as Hid.
  { vm_compute. split; [discriminate | reflexivity]. }
  destruct (full_reset_programs_transport 2 conn0 regs_ready
              Hwf Hf Hid eq_refl) as (self' & hw' & E & Hs & _).
  exists self', hw'. split; assumption.
Defined.

(** ** The read loop of the example program *)

Lemma lc_read_message_player_count self player_id message self' :
  lc_read_message self player_id = Some (message, self') ->
  player_count (state self') = player_count (state self).
Proof.
  unfold lc_read_message, linkstate_read_message. simpl.
  destruct (incoming_messages (state self) !! Z.to_nat player_id)
    as [q|]; [|discriminate].
  destruct (LINK_QUEUE_POP q) as [m q'].
  intros H. inversion H; subst. reflexivity.
Qed.

Lemma last_cons_default {A : Type} (l : list A) : forall d x : A,
  List.last (x :: l) d = List.last l x.
Proof.
  induction l as [|y l IH]; intros d x; [reflexivity|].
  change (List.last (x :: y :: l) d) with (List.last (y :: l) d).
  rewrite (IH d y), (IH x y). reflexivity.
Qed.

Lemma main_read_all_reachable fuel : forall conn id data,
  reachable conn ->
  0 <= id < player_count (state conn) ->
  (length (u16q_contents (incoming (state conn) id)) <= fuel)%nat ->
  exists conn',
    main_read_all fuel conn id data =
      Some (List.last
              ((fun m => u16 (m - 1)) <$>
               u16q_contents (incoming (state conn) id)) data,
            conn') /\
    reachable conn' /\
    u16q_empty (incoming (state conn') id) = true.
Proof.
  induction fuel as [|fuel IH]; intros conn id data Hr Hid Hlen;
    destruct (lc_has_message_read_reachable conn id Hr) as (Hh & Hread);
    try lia;
    destruct (Hread) as (m & conn' & Er & Hne & Hem); try lia;
    cbn [main_read_all]; rewrite Hh;
    destruct (Z.ltb_spec id (player_count (state conn))); try lia;
    destruct (u16q_empty (incoming (state conn) id)) eqn:E; cbn [andb negb].
  - exists conn. rewrite (u16q_contents_empty _ E).
    split; [reflexivity|]. split; assumption.
  - destruct (Hne eq_refl) as (_ & Hc). rewrite Hc in Hlen.
    simpl in Hlen. lia.
  - exists conn. rewrite (u16q_contents_empty _ E).
    split; [reflexivity|]. split; assumption.
  - destruct (Hne eq_refl) as (_ & Hc). rewrite Er.
    assert (reachable conn') as Hr'.
    { apply (reach_read_message conn id m conn' Hr); [|exact Er].
      destruct (reachable_inv_presence conn Hr) as (_ & B & _). lia. }
    destruct (IH conn' id (u16 (m - 1)) Hr') as (conn'' & Em & Hr'' & He'').
    + rewrite (lc_read_message_player_count _ _ _ _ Er). exact Hid.
    + rewrite Hc in Hlen. simpl in Hlen. lia.
    + exists conn''. rewrite Em, Hc. rewrite fmap_cons, last_cons_default.
      split; [reflexivity|]. split; assumption.
Qed.

(** X17: the read loop of the example program, run for a slot below the
    peer count of a reachable connection, ends within [buffer_size]
    rounds, leaves the slot's incoming queue empty and keeps only the
    newest message: the data it ends with is the last value the queue
    held, less one, or the data it started with if the queue was
    empty. *)
Theorem main_read_all_keeps_newest fuel conn id data :
  reachable conn ->
  0 <= id < player_count (state conn) ->
  buffer_size conn <= Z.of_nat fuel ->
  exists conn',
    main_read_all fuel conn id data =
      Some (List.last
              ((fun m => u16 (m - 1)) <$>
               u16q_contents (incoming (state conn) id)) data,
            conn') /\
    reachable conn' /\
    u16q_empty (incoming (state conn') id) = true.
Proof.
  intros Hr Hid Hf. apply main_read_all_reachable; try assumption.
  destruct (reachable_inv conn Hr) as ((Hli & Hinc & _) & _).
  destruct (reachable_inv_presence conn Hr) as (_ & B & _).
  assert (wf_queue (incoming (state conn) id) /\
          cap (incoming (state conn) id) = buffer_size conn) as (Wq & Cq).
  { unfold incoming.
    assert (incoming_messages (state conn) !! Z.to_nat id =
            Some (incoming_messages (state conn) !!! Z.to_nat id)) as Hlk.
    { apply list_lookup_lookup_total_lt. lia. }
    rewrite Forall_lookup in Hinc. apply (Hinc _ _ Hlk). }
  pose proof (u16q_dist_bounds _ Wq) as Hb.
  assert (Z.of_nat (length (u16q_contents (incoming (state conn) id))) =
          u16q_dist (incoming (state conn) id)) as El.
  { unfold u16q_contents. apply u16q_drain_length; [exact Wq | lia]. }
  lia.
Qed.

Lemma reachable_conn_slots_0_1 : reachable conn_slots_0_1.
Proof.
  apply (reach_serial 2 conn_active regs_slots_0_1 conn_slots_0_1
           regs_slots_0_1).
  - apply (reach_activate 2 conn0 regs0 conn_active
             (lc_start conn_active (lc_stop conn_active regs0))).
    + apply (reach_init settings0 fresh0 regs0).
      * unfold valid_settings. simpl. lia.
      * intros k. reflexivity.
    + vm_compute. reflexivity.
  - unfold valid_regs. simpl.
    split; [lia|]. split; [reflexivity|].
    repeat constructor; lia.
  - vm_compute. reflexivity.
Qed.

Lemma main_read_all_keeps_newest_witness :
  exists conn', main_read_all 2 conn_slots_0_1 1 0 = Some (6, conn').
Proof.
  assert (0 <= 1 < player_count (state conn_slots_0_1)) as Hid.
  { vm_compute. split; [discriminate | reflexivity]. }
  assert (buffer_size conn_slots_0_1 <= Z.of_nat 2) as Hf.
  { vm_compute. discriminate. }
  destruct (main_read_all_keeps_newest 2 conn_slots_0_1 1 0
              reachable_conn_slots_0_1 Hid Hf) as (conn' & E & _).
  exists conn'. rewrite E. vm_compute. reflexivity.
Defined.

(** ** Construction, repeated resets, slaves *)

(** X18: [lc_init] returns a disabled connection with the configuration
    of the settings and five empty queues of capacity [buffer_size],
    and stops the transport; until [lc_activate] the connection reports
    itself disconnected and ignores every interrupt. *)
Theorem lc_init_disabled settings fresh hw :
  valid_settings settings ->
  valid_fresh (settings_buffer_size settings) fresh ->
  let self := fst (lc_init settings fresh hw) in
  snd (lc_init settings fresh hw) = lc_stop self hw /\
  wf_conn self /\
  is_enabled self = false /\
  lc_is_connected self = false /\
  buffer_size self = settings_buffer_size settings /\
  timeout self = settings_timeout settings /\
  remote_timeout self = settings_remote_timeout settings /\
  Forall (fun q => u16q_contents q = [] /\
                   cap q = settings_buffer_size settings)
    (outgoing_messages (state self) :: incoming_messages (state self)) /\
  forall fuel evs, lc_reacts fuel self evs = Some (self, map snd evs).
Proof.
  intros Hs Hfr self.
  destruct (inv_lc_init settings fresh hw Hs Hfr) as (Hwf & _).
  fold self in Hwf.
  split; [reflexivity|]. split; [exact Hwf|]. split; [reflexivity|].
  split; [reflexivity|]. split; [reflexivity|]. split; [reflexivity|].
  split; [reflexivity|]. split.
  - subst self. unfold lc_init, linkstate_init.
    change slots with [0; 1; 2; 3]. simpl.
    rewrite !Forall_cons_iff.
    conjs; try reflexivity; try apply Forall_nil_2;
      apply u16q_contents_empty; reflexivity.
  - intros fuel evs. apply lc_reacts_guarded. left. reflexivity.
Qed.

Lemma lc_init_disabled_witness :
  wf_conn conn0 /\ is_enabled conn0 = false.
Proof.
  assert (valid_settings settings0) as Hs.
  { unfold valid_settings. simpl. lia. }
  assert (valid_fresh (settings_buffer_size settings0) fresh0) as Hf.
  { intros k. reflexivity. }
  destruct (lc_init_disabled settings0 fresh0 regs0 Hs Hf)
    as (_ & W & E & _).
  split; [exact W | exact E].
Defined.

Lemma LINK_QUEUE_CLEAR_noop fuel q :
  u16q_empty q = true -> LINK_QUEUE_CLEAR fuel q = Some q.
Proof. intros E. destruct fuel; simpl; rewrite E; reflexivity. Qed.

(** X19: a full reset is idempotent on the connection: resetting the
    state a second time changes nothing, and needs no pop at all. *)
Theorem lc_reset_state_idempotent fuel fuel' self self' :
  wf_conn self ->
  lc_reset_state fuel self = Some self' ->
  lc_reset_state fuel' self' = Some self'.
Proof.
  intros Hwf H.
  destruct (lc_reset_state_post fuel self self' Hwf H)
    as ((Hpc & Hcur & Hli & Hem & Ho & _ & Hto & Hfl & Hit) & _).
  destruct self' as [s br tmo rt bs iv tid en].
  destruct s as [pc cur inc out tos flag it lock]. simpl in *. subst.
  destruct (length_four _ Hli) as (q0 & q1 & q2 & q3 & ->).
  rewrite !Forall_cons_iff in Hem.
  destruct Hem as ((E0 & _) & (E1 & _) & (E2 & _) & (E3 & _) & _).
  unfold lc_reset_state, lc_reset_state_slot.
  change slots with [0; 1; 2; 3]. simpl.
  unfold incoming; simpl. rewrite (LINK_QUEUE_CLEAR_noop fuel' q0 E0). simpl.
  unfold incoming; simpl. rewrite (LINK_QUEUE_CLEAR_noop fuel' q1 E1). simpl.
  unfold incoming; simpl. rewrite (LINK_QUEUE_CLEAR_noop fuel' q2 E2). simpl.
  unfold incoming; simpl. rewrite (LINK_QUEUE_CLEAR_noop fuel' q3 E3). simpl.
  rewrite (LINK_QUEUE_CLEAR_noop fuel' out Ho). reflexivity.
Qed.

Lemma lc_reset_state_idempotent_witness :
  exists self',
    lc_reset_state 2 conn_slots_0_2 = Some self' /\
    lc_reset_state 0 self' = Some self'.
Proof.
  assert (wf_conn conn_slots_0_2) as Hwf by wf_concrete.
  destruct (lc_reset_state 2 conn_slots_0_2) as [self'|] eqn:E.
  - exists self'. split; [reflexivity|].
    exact (lc_reset_state_idempotent 2 0 conn_slots_0_2 self' Hwf E).
  - vm_compute in E. discriminate.
Defined.

(** X20: a slave never starts a transfer: whichever reaction runs on a
    register file whose slave bit is set, it either leaves [REG_SIOCNT]
    as it found it or (on a full reset) rewrites it with the start bit
    clear. *)
Theorem slave_never_starts_transfer fuel self r hw self' hw' :
  lc_is_master hw = false ->
  lc_react fuel self r hw = Some (self', hw') ->
  REG_SIOCNT hw' = REG_SIOCNT hw \/ lc_is_sending hw' = false.
Proof.
  intros Hm.
  assert (forall c h, lc_reset fuel self hw = Some (c, h) ->
            lc_is_sending h = false) as Hreset.
  { intros c h. unfold lc_reset.
    destruct (lc_reset_state fuel self) as [c0|]; [|discriminate].
    intros H. inversion H; subst. apply lc_start_regs. }
  assert (forall c, REG_SIOCNT (snd (lc_send_pending_data c hw)) =
                    REG_SIOCNT hw) as Hsend.
  { intros c. unfold lc_send_pending_data.
    destruct (LINK_QUEUE_POP (outgoing_messages (state c))) as [d q].
    simpl. unfold lc_transfer.
    replace (lc_is_master (set_REG_SIOMLT_SEND d hw)) with false
      by (symmetry; exact Hm).
    reflexivity. }
  destruct r; simpl.
  - intros H. inversion H; subst. left. reflexivity.
  - unfold lc_on_timer.
    destruct (negb (is_enabled self) || is_locked (state self)).
    { intros H. inversion H; subst. left. reflexivity. }
    destruct (lc_did_timeout self).
    { intros H. right. exact (Hreset _ _ H). }
    rewrite Hm. simpl. intros H. inversion H; subst. left. reflexivity.
  - unfold lc_on_serial, lc_reset_if_needed.
    destruct (negb (is_enabled self) || is_locked (state self)).
    { intros H. inversion H; subst. left. reflexivity. }
    destruct (negb (lc_is_ready hw) || lc_has_error hw).
    { destruct (lc_reset fuel self hw) as [[c h]|]; [|discriminate].
      intros H. inversion H; subst. right. exact (Hreset _ _ eq_refl). }
    match goal with
    | |- context [for_each ?b slots ?a] =>
        destruct (for_each b slots a) as [[s2 n]|]; [|discriminate]
    end.
    rewrite Hm. cbn [negb]. intros H. inversion H as [H1].
    left.
    match type of H1 with
    | lc_send_pending_data ?c hw = _ => rewrite <- (Hsend c)
    end.
    rewrite H1. reflexivity.
Qed.

Lemma slave_never_starts_transfer_witness :
  exists self' hw',
    lc_react 2 conn_active OnSerial (set_REG_SIOCNT 12 regs_ready) =
      Some (self', hw') /\
    (REG_SIOCNT hw' = 12 \/ lc_is_sending hw' = false).
Proof.
  assert (lc_is_master (set_REG_SIOCNT 12 regs_ready) = false) as Hm.
  { vm_compute. reflexivity. }
  destruct (lc_react 2 conn_active OnSerial (set_REG_SIOCNT 12 regs_ready))
    as [[self' hw']|] eqn:E.
  - exists self', hw'. split; [reflexivity|].
    exact (slave_never_starts_transfer 2 conn_active OnSerial
             (set_REG_SIOCNT 12 regs_ready) self' hw' Hm E).
  - vm_compute in E. discriminate.
Defined.

(** What [lc_is_connected] answers on the connection the
    exchange-complete reaction returned. *)
Lemma lc_on_serial_is_connected fuel self hw self' hw' :
  wf_conn self ->
  is_enabled self = true ->
  is_locked (state self) = false ->
  lc_is_ready hw = true ->
  lc_has_error hw = false ->
  lc_on_serial fuel self hw = Some (self', hw') ->
  let id :=
    Z.shiftr (Z.land (REG_SIOCNT hw) (Z.shiftl 3 LINK_BITS_PLAYER_ID))
      LINK_BITS_PLAYER_ID in
  current_player_id (state self') = id /\
  player_count (state self') = online_count (state self') /\
  lc_is_connected self' =
    (1 <? online_count (state self')) && (id <? online_count (state self')).
Proof.
  intros Hwf He Hl Hr Herr H id.
  destruct (lc_on_serial_exchange fuel self hw self' hw' Hwf He Hl Hr Herr H)
    as (_ & _ & _ & _ & _ & _ & PC & _).
  pose proof (lc_on_serial_player_id fuel self hw self' hw'
                Hwf He Hl Hr Herr H) as Hid.
  fold id in Hid.
  split; [exact Hid|]. split; [exact PC|].
  unfold lc_is_connected, linkstate_is_connected. rewrite PC, Hid.
  reflexivity.
Qed.

(** X21: a completed exchange (enabled, unguarded, transport ready, no
    error) returns a connection whose local slot id is bits 4-5 of
    [REG_SIOCNT] and whose peer count is the number of online slots, and
    on which [lc_is_connected] holds exactly when at least two slots
    are online and that slot id is below the number of online slots. *)
Theorem exchange_then_is_connected fuel self hw :
  wf_conn self -> buffer_size self <= Z.of_nat fuel ->
  is_enabled self = true ->
  is_locked (state self) = false ->
  lc_is_ready hw = true ->
  lc_has_error hw = false ->
  let id :=
    Z.shiftr (Z.land (REG_SIOCNT hw) (Z.shiftl 3 LINK_BITS_PLAYER_ID))
      LINK_BITS_PLAYER_ID in
  exists self' hw',
    lc_on_serial fuel self hw = Some (self', hw') /\
    current_player_id (state self') = id /\
    player_count (state self') = online_count (state self') /\
    lc_is_connected self' =
      (1 <? online_count (state self')) &&
      (id <? online_count (state self')).
Proof.
  intros Hwf Hf He Hl Hr Herr id.
  destruct (lc_on_serial_total fuel self hw Hwf Hf) as ([self' hw'] & E).
  exists self', hw'. split; [exact E|].
  exact (lc_on_serial_is_connected fuel self hw self' hw'
           Hwf He Hl Hr Herr E).
Qed.

Lemma exchange_then_is_connected_witness :
  exists self' hw',
    lc_on_serial 2 conn_active regs_slots_0_2 = Some (self', hw') /\
    player_count (state self') = 2 /\
    lc_is_connected self' = true.
Proof.
  assert (wf_conn conn_active) as Hwf by wf_concrete.
  assert (buffer_size conn_active <= Z.of_nat 2) as Hf.
  { vm_compute. discriminate. }
  destruct (exchange_then_is_connected 2 conn_active regs_slots_0_2
              Hwf Hf eq_refl eq_refl eq_refl eq_refl)
    as (self' & hw' & E & _ & Hpc & Hc).
  exists self', hw'. split; [exact E|].
  assert (lc_on_serial 2 conn_active regs_slots_0_2 =
          Some (conn_slots_0_2, regs_slots_0_2)) as E'.
  { vm_compute. reflexivity. }
  rewrite E' in E. inversion E; subst self' hw'.
  split; [rewrite Hpc | rewrite Hc]; vm_compute; reflexivity.
Defined.

(** C8 (the code departs from it): with [buffer_size] 1, one [lc_send]
    of 7 on the activated connection leaves an outgoing queue whose
    length field is 1 and whose buffer holds 7, but whose write cursor
    has wrapped onto the read cursor.  The connection is reachable,
    enabled, unguarded and below the silence timeout, and the transport
    is master, ready and idle; the pace reaction hands [LINK_NO_DATA]
    to the transport, not 7, and leaves the queue as it was. *)
Theorem pace_reaction_loses_single_value :
  reachable conn_buffer1_sent7 /\
  buffer_size conn_buffer1_sent7 = 1 /\
  len (outgoing_messages (state conn_buffer1_sent7)) = 1 /\
  buf (outgoing_messages (state conn_buffer1_sent7)) = [7] /\
  is_enabled conn_buffer1_sent7 = true /\
  is_locked (state conn_buffer1_sent7) = false /\
  lc_did_timeout conn_buffer1_sent7 = false /\
  lc_is_master regs_ready = true /\
  lc_is_ready regs_ready = true /\
  lc_is_sending regs_ready = false /\
  u16q_empty (outgoing_messages (state conn_buffer1_sent7)) = true /\
  exists hw',
    lc_on_timer 1 conn_buffer1_sent7 regs_ready =
      Some (conn_buffer1_sent7, hw') /\
    REG_SIOMLT_SEND hw' = LINK_NO_DATA /\
    REG_SIOMLT_SEND hw' <> 7 /\
    lc_is_sending hw' = true.
Proof.
  split.
  { apply (reach_send conn_buffer1 7); [|lia].
    apply (reach_activate 1 (fst (lc_init settings_buffer1 fresh1 regs0))
             regs0 conn_buffer1
             (lc_start conn_buffer1 (lc_stop conn_buffer1 regs0))).
    - apply (reach_init settings_buffer1 fresh1 regs0).
      + unfold valid_settings. simpl. lia.
      + intros k. reflexivity.
    - vm_compute. reflexivity. }
  do 10 (split; [vm_compute; reflexivity|]).
  eexists. split; [vm_compute; reflexivity|].
  conjs; vm_compute; first [ reflexivity | discriminate ].
Qed.
